(** * Reddit humanoid tracker: a shallow embedding of the partitioned pipeline

    The development follows the source tree of [reddit_tracker]:
    - [Classify]  : [get_post_labels] of assets/posts.py;
    - [Calendar]  : the partition windows computed at the top of every asset;
    - [Posts]     : the ingestion, classification and robot-post statements of
                    assets/posts.py;
    - [Metrics]   : the weekly aggregation of assets/metrics.py;
    - [Sensor]    : [generate_pdf_reports_sensor] of sensors/__init__.py;
    - [Summaries] : [summarize_robot_posts] of assets/summaries.py;
    - [Scenario]  : one small forum, store and directory on which the assets
                    are run.
    The definitions come first; the lemmas and theorems follow, stage by
    stage.

    Strings are byte strings ([String.string]), a title being its UTF-8
    bytes; tables are lists of records in storage order; Python dictionaries
    used as maps are [gmap]s, dictionaries whose order matters are association
    lists. The module assets/constants.py is not part of the sources at hand:
    the constants taken from it are parameters. *)

From Stdlib Require Import ZArith Bool Ascii String List Lia.
From Stdlib Require Import DecimalString DecimalPos DecimalZ.
From stdpp Require Import base option list gmap strings.

Open Scope string_scope.

(** ** Python string primitives used by the assets *)

Module PyStr.

(** [c.lower()] on one byte: only the ASCII capitals move, which is all the
    ASCII keywords of the classification can observe. *)
Definition lower_ascii (c : ascii) : ascii :=
  let n := N_of_ascii c in
  if ((65 <=? n) && (n <=? 90))%N then ascii_of_N (n + 32) else c.

(** [s.lower()] *)
Fixpoint lower (s : string) : string :=
  match s with
  | EmptyString => EmptyString
  | String c s' => String (lower_ascii c) (lower s')
  end.

(** [sub in s]: [sub] occurs in [s] at some offset. *)
Fixpoint str_in (sub s : string) : bool :=
  String.prefix sub s ||
  match s with
  | EmptyString => false
  | String _ s' => str_in sub s'
  end.

(** [any(k in s for k in ks)] *)
Definition any_in (ks : list string) (s : string) : bool :=
  existsb (fun k => str_in k s) ks.

(** [sep.join(parts)] *)
Definition join (sep : string) (parts : list string) : string :=
  String.concat sep parts.

(** [c in s] for one character. *)
Fixpoint has_char (c : ascii) (s : string) : bool :=
  match s with
  | EmptyString => false
  | String a s' => Ascii.eqb a c || has_char c s'
  end.

(** [s.endswith(suffix)] *)
Definition endswith (s suffix : string) : bool :=
  let n := String.length s in
  let k := String.length suffix in
  (k <=? n)%nat && String.eqb (String.substring (n - k) k s) suffix.

End PyStr.

(** ** Classification engine (assets/posts.py, [get_post_labels]) *)

Module Classify.
Import PyStr.

(** The [robots] dictionary, in insertion order. *)
Definition robots : list (string * list string) :=
  [ ("optimus", ["robot"; "bot"; "humanoid"]);
    ("figure",  ["01"; "02"; "03"; "humanoid"; "robot"; "bot"]);
    ("neo",     ["1x"; "humanoid"; "robot"; "bot"]) ].

Definition exclusion_patterns : list string :=
  ["to figure"; "figure out"; "figure it out"].

Definition neo_patterns : list string :=
  ["1x bot"; "1x robot"; "1x humanoid"].

(** The body of the [for robot, keywords in robots.items()] loop: the test
    that decides whether [robot] is appended to [labels]. [title] is already
    lower-cased. *)
Definition robot_matches (title robot : string) (keywords : list string) : bool :=
  if String.eqb robot "optimus" then
    str_in "optimus" title || (str_in "tesla" title && any_in keywords title)
  else if String.eqb robot "figure" then
    if str_in "figure" title && any_in keywords title then
      negb (any_in exclusion_patterns title)
    else false
  else
    (str_in "neo" title && any_in keywords title) || any_in neo_patterns title.

(** One iteration of the loop on the mutable list [labels]. *)
Definition label_step (title : string) (labels : list string)
    (item : string * list string) : list string :=
  let '(robot, keywords) := item in
  if robot_matches title robot keywords then (labels ++ [robot])%list else labels.

Definition get_post_labels (title : string) : string :=
  let labels : list string := [] in
  let title := lower title in
  let labels := fold_left (label_step title) robots labels in
  let labels :=
    if (List.length labels =? 0)%nat then
      if str_in "humanoid" title then (labels ++ ["other"])%list
      else (labels ++ ["none"])%list
    else labels in
  if (1 <? List.length labels)%nat then join "-" labels
  else match labels with
       | l0 :: _ => l0
       | [] => EmptyString
       end.

(** The three brand rules as the specification words them, each a predicate
    on the lower-cased title alone. *)
Definition brand_optimus (t : string) : bool :=
  str_in "optimus" t ||
  (str_in "tesla" t && any_in ["robot"; "bot"; "humanoid"] t).

Definition brand_figure (t : string) : bool :=
  (str_in "figure" t && any_in ["01"; "02"; "03"; "humanoid"; "robot"; "bot"] t)
  && negb (any_in exclusion_patterns t).

Definition brand_neo (t : string) : bool :=
  (str_in "neo" t && any_in ["1x"; "humanoid"; "robot"; "bot"] t)
  || any_in neo_patterns t.

Definition brand_rule (brand t : string) : bool :=
  if String.eqb brand "optimus" then brand_optimus t
  else if String.eqb brand "figure" then brand_figure t
  else brand_neo t.

(** The brands in their declared evaluation order. *)
Definition brand_order : list string := ["optimus"; "figure"; "neo"].

(** Classification as the specification states it: the matching brands, in
    declared order, joined by the separator; [other]/[none] without a match. *)
Definition classify_spec (title : string) : string :=
  let t := lower title in
  match List.filter (fun b => brand_rule b t) brand_order with
  | [] => if str_in "humanoid" t then "other" else "none"
  | [b] => b
  | bs => join "-" bs
  end.

(** The three single brand values accepted downstream. *)
Definition single_brand (label : string) : bool :=
  String.eqb label "optimus" || String.eqb label "figure" || String.eqb label "neo".

End Classify.

(** ** Partition calendar

    The first lines of every asset turn the partition key into datetimes with
    [datetime.strptime(key, "%Y-%m-%d")] and [timedelta] arithmetic. The
    definitions below follow CPython's [datetime] module. Every datetime the
    assets build is a midnight, so a datetime is its calendar date. *)

Module Calendar.

Open Scope Z_scope.

Record datetime := mkdate { year : Z; month : Z; day : Z }.

Definition MINYEAR : Z := 1.
Definition MAXYEAR : Z := 9999.
Definition MAXORDINAL : Z := 3652059.

Definition DAYS_IN_MONTH : list Z :=
  [-1; 31; 28; 31; 30; 31; 30; 31; 31; 30; 31; 30; 31].

Definition DAYS_BEFORE_MONTH : list Z :=
  [-1; 0; 31; 59; 90; 120; 151; 181; 212; 243; 273; 304; 334].

Definition table (t : list Z) (i : Z) : Z := nth (Z.to_nat i) t (-1).

Definition is_leap (y : Z) : bool :=
  (y mod 4 =? 0) && (negb (y mod 100 =? 0) || (y mod 400 =? 0)).

Definition days_before_year (y : Z) : Z :=
  let y := y - 1 in y * 365 + y / 4 - y / 100 + y / 400.

Definition days_in_month (y m : Z) : Z :=
  if (m =? 2) && is_leap y then 29 else table DAYS_IN_MONTH m.

Definition days_before_month (y m : Z) : Z :=
  table DAYS_BEFORE_MONTH m + (if (2 <? m) && is_leap y then 1 else 0).

Definition ymd2ord (y m d : Z) : Z :=
  days_before_year y + days_before_month y m + d.

Definition DI400Y : Z := 146097.
Definition DI100Y : Z := 36524.
Definition DI4Y : Z := 1461.

(** The tail of [_ord2ymd]: month and day of the [n]-th day (from 0) of a
    year, from the estimate [(n + 50) >> 5] of the month. *)
Definition month_day (leapyear : bool) (n : Z) : Z * Z :=
  let m := Z.shiftr (n + 50) 5 in
  let preceding :=
    table DAYS_BEFORE_MONTH m + (if (2 <? m) && leapyear then 1 else 0) in
  if n <? preceding then
    let m := m - 1 in
    let preceding :=
      preceding
      - (table DAYS_IN_MONTH m + (if (m =? 2) && leapyear then 1 else 0)) in
    (m, n - preceding + 1)
  else (m, n - preceding + 1).

(** [_ord2ymd]: the inverse of [ymd2ord] on proleptic Gregorian ordinals. *)
Definition ord2ymd (n : Z) : datetime :=
  let n := n - 1 in
  let n400 := n / DI400Y in
  let n := n mod DI400Y in
  let y := n400 * 400 + 1 in
  let n100 := n / DI100Y in
  let n := n mod DI100Y in
  let n4 := n / DI4Y in
  let n := n mod DI4Y in
  let n1 := n / 365 in
  let n := n mod 365 in
  let y := y + n100 * 100 + n4 * 4 + n1 in
  if (n1 =? 4) || (n100 =? 4) then mkdate (y - 1) 12 31
  else
    let leapyear := (n1 =? 3) && (negb (n4 =? 24) || (n100 =? 3)) in
    let '(m, d) := month_day leapyear n in
    mkdate y m d.

(** The checks that the asserts of [_ord2ymd] and a comparison with
    [ymd2ord] make on one day of a year. *)
Definition month_day_ok (leapyear : bool) (n : Z) : bool :=
  let '(m, d) := month_day leapyear n in
  (1 <=? m) && (m <=? 12) && (1 <=? d)
  && (d <=? table DAYS_IN_MONTH m + (if (m =? 2) && leapyear then 1 else 0))
  && (table DAYS_BEFORE_MONTH m + (if (2 <? m) && leapyear then 1 else 0) + d
      =? n + 1).

Definition toordinal (d : datetime) : Z := ymd2ord (year d) (month d) (day d).

(** [d.weekday()]: Monday is 0. *)
Definition weekday (d : datetime) : Z := (toordinal d + 6) mod 7.

(** The constructor's range checks ([ValueError] otherwise). *)
Definition valid_date (y m d : Z) : bool :=
  (MINYEAR <=? y) && (y <=? MAXYEAR) && (1 <=? m) && (m <=? 12)
  && (1 <=? d) && (d <=? days_in_month y m).

Definition make_datetime (y m d : Z) : option datetime :=
  if valid_date y m d then Some (mkdate y m d) else None.

(** [d + timedelta(days=n)]; [None] is [OverflowError]. *)
Definition add_days (d : datetime) (n : Z) : option datetime :=
  let o := toordinal d + n in
  if (0 <? o) && (o <=? MAXORDINAL) then Some (ord2ymd o) else None.

(** *** [strptime(key, "%Y-%m-%d")] *)

Definition is_digit (c : ascii) : bool :=
  let n := N_of_ascii c in ((48 <=? n) && (n <=? 57))%N.

Definition digit_val (c : ascii) : Z := Z.of_N (N_of_ascii c) - 48.

Fixpoint int_of_digits (acc : Z) (s : string) : option Z :=
  match s with
  | EmptyString => Some acc
  | String c s' =>
      if is_digit c then int_of_digits (10 * acc + digit_val c) s' else None
  end.

Definition parse_int (s : string) : option Z :=
  match s with
  | EmptyString => None
  | _ => int_of_digits 0 s
  end.

(** [s.split(sep)] for a one-character separator. *)
Fixpoint split_on (sep : ascii) (s : string) : list string :=
  match s with
  | EmptyString => [EmptyString]
  | String c s' =>
      if Ascii.eqb c sep then EmptyString :: split_on sep s'
      else match split_on sep s' with
           | w :: ws => String c w :: ws
           | [] => [String c EmptyString]
           end
  end.

(** The directive [%Y] is [\d\d\d\d]. *)
Definition field_Y (s : string) : option Z :=
  if (String.length s =? 4)%nat then parse_int s else None.

(** The directive [%m] is [1[0-2]|0[1-9]|[1-9]]. *)
Definition field_m (s : string) : option Z :=
  if (String.length s <=? 2)%nat then
    match parse_int s with
    | Some m => if (1 <=? m) && (m <=? 12) then Some m else None
    | None => None
    end
  else None.

(** The directive [%d] is [3[01]|[12]\d|0[1-9]|[1-9]| [1-9]]. *)
Definition field_d (s : string) : option Z :=
  let digits :=
    match s with
    | String " " (String c EmptyString) =>
        if Ascii.eqb c "0" then EmptyString else String c EmptyString
    | _ => s
    end in
  if (String.length digits <=? 2)%nat then
    match parse_int digits with
    | Some d => if (1 <=? d) && (d <=? 31) then Some d else None
    | None => None
    end
  else None.

(** [None] is [ValueError]. *)
Definition strptime (key : string) : option datetime :=
  match split_on "-" key with
  | [fy; fm; fd] =>
      match field_Y fy, field_m fm, field_d fd with
      | Some y, Some m, Some d => make_datetime y m d
      | _, _, _ => None
      end
  | _ => None
  end.

(** *** Orders *)

(** Lexicographic combination of two comparisons, as [String.compare] does
    character by character. *)
Definition lexcmp (c1 c2 : comparison) : comparison :=
  match c1 with Eq => c2 | Lt => Lt | Gt => Gt end.

(** The days of month [m1] end before month [m2] starts, when [m1 < m2]. *)
Definition months_ordered (leap : bool) (m1 m2 : Z) : bool :=
  negb (m1 <? m2)
  || (table DAYS_BEFORE_MONTH m1 + (if (2 <? m1) && leap then 1 else 0)
      + (table DAYS_IN_MONTH m1 + (if (m1 =? 2) && leap then 1 else 0))
      <=? table DAYS_BEFORE_MONTH m2 + (if (2 <? m2) && leap then 1 else 0)).

(** *** Formatting *)

Definition digit_char (d : Z) : ascii := ascii_of_N (Z.to_N (d mod 10) + 48).

(** [%02d] *)
Definition pad2 (n : Z) : string :=
  String (digit_char (n / 10)) (String (digit_char n) EmptyString).

(** [%04d] *)
Definition pad4 (n : Z) : string :=
  String (digit_char (n / 1000)) (String (digit_char (n / 100))
    (String (digit_char (n / 10)) (String (digit_char n) EmptyString))).

(** [d.strftime('%Y-%m-%d')] for the four-digit years of [datetime]. *)
Definition strftime_ymd (d : datetime) : string :=
  (pad4 (year d) ++ "-" ++ pad2 (month d) ++ "-" ++ pad2 (day d))%string.

(** [str(d)] for a midnight datetime. *)
Definition str_datetime (d : datetime) : string :=
  (strftime_ymd d ++ " 00:00:00")%string.

(** *** The windows of the assets

    [time.mktime] reads the process time zone; it is a parameter here. *)

Section Windows.
Variable mktime : datetime -> Z.

(** posts.py, lines 33-38 (and the same lines of [classify_daily_reddit_posts]
    and [summarize_robot_posts]): [(start_timestamp, end_timestamp)]. *)
Definition daily_dates (key : string) : option (datetime * datetime) :=
  match strptime key with
  | Some start_date =>
      match add_days start_date 1 with
      | Some end_date => Some (start_date, end_date)
      | None => None
      end
  | None => None
  end.

Definition daily_window (key : string) : option (Z * Z) :=
  match daily_dates key with
  | Some (start_date, end_date) => Some (mktime start_date, mktime end_date)
  | None => None
  end.

(** metrics.py, lines 32-39. *)
Definition week_dates (key : string) : option (datetime * datetime) :=
  match strptime key with
  | Some partition_date =>
      match add_days partition_date (- weekday partition_date),
            add_days partition_date 1 with
      | Some start_date, Some end_date => Some (start_date, end_date)
      | _, _ => None
      end
  | None => None
  end.

Definition week_window (key : string) : option (Z * Z) :=
  match week_dates key with
  | Some (start_date, end_date) => Some (mktime start_date, mktime end_date)
  | None => None
  end.

End Windows.

(** A time zone at a fixed offset (in seconds) from UTC: [time.mktime] of a
    midnight, and [datetime.fromtimestamp(ts).strftime("%Y-%m-%d %H:%M:%S")]. *)
Definition mktime_fixed (offset : Z) (d : datetime) : Z :=
  (toordinal d - 719163) * 86400 - offset.

Definition local_str_fixed (offset : Z) (ts : Z) : string :=
  let t := ts + offset in
  let secs := t mod 86400 in
  (strftime_ymd (ord2ymd (t / 86400 + 719163)) ++ " "
   ++ pad2 (secs / 3600) ++ ":" ++ pad2 (secs mod 3600 / 60) ++ ":"
   ++ pad2 (secs mod 60))%string.

End Calendar.

(** ** Exceptions and results *)

Inductive exn :=
  | ValueError            (* malformed partition key *)
  | OverflowError         (* date arithmetic out of range *)
  | ServerError           (* prawcore.exceptions.ServerError *)
  | UpstreamError         (* any other exception of the forum client *)
  | ConstraintException   (* duckdb: PRIMARY KEY violation *)
  | ModelError            (* exception of the language-model client *)
  | TypeError             (* [**] applied to something that is no mapping *)
  | JSONDecodeError.      (* json.loads / json.load *)

Inductive outcome (A : Type) :=
  | Ok (a : A)
  | Raise (e : exn).
Arguments Ok {A} a.
Arguments Raise {A} e.

(** ** The posts tables (assets/posts.py) *)

Module Posts.
Import PyStr Calendar.

Open Scope Z_scope.

(** What the forum client exposes of a submission. [created_utc] is kept in
    whole seconds. *)
Record submission := mkSubmission {
  sub_id : string;
  sub_title : string;
  sub_permalink : string;
  sub_url : string;
  sub_created_utc : Z;
  sub_score : Z;
  sub_num_comments : Z }.

(** One dictionary appended to [posts_in_date_range]. *)
Record fetched := mkFetched {
  f_post_id : string;
  f_subreddit : string;
  f_title : string;
  f_permalink : string;
  f_url : string;
  f_created_utc : Z;
  f_created_local : string;
  f_score : Z;
  f_n_comments : Z }.

(** A row of [posts] (and of [robot_posts], created with the same columns).
    [humanoid] is [None] for SQL NULL. *)
Record post_row := mkPost {
  post_id : string;
  humanoid : option string;
  subreddit : string;
  title : string;
  created_utc : Z;
  created_local : string;
  score : Z;
  n_comments : Z;
  partition_date : string }.

(** How one pass over [subreddit.new(limit=None)] ends. *)
Inductive listing_end := ListingDone | ListingServerError | ListingOtherError.

Definition ids (t : list post_row) : list string := List.map post_id t.

Fixpoint nodupb (l : list string) : bool :=
  match l with
  | [] => true
  | x :: l' => negb (existsb (String.eqb x) l') && nodupb l'
  end.

Section Ingestion.

(** [constants.SUBREDDITS] *)
Variable SUBREDDITS : list string.
(** [time.mktime], in the process time zone *)
Variable mktime : datetime -> Z.
(** [datetime.fromtimestamp(ts).strftime("%Y-%m-%d %H:%M:%S")] *)
Variable local_str : Z -> string.
(** The forum: what attempt [k] at listing a subreddit yields before it ends. *)
Variable new_listing : string -> nat -> list submission * listing_end.

Definition in_range (start_timestamp end_timestamp : Z) (post : submission) : bool :=
  (start_timestamp <=? sub_created_utc post)
  && (sub_created_utc post <=? end_timestamp).

Definition to_fetched (subreddit_name : string) (post : submission) : fetched :=
  {| f_post_id := sub_id post;
     f_subreddit := subreddit_name;
     f_title := sub_title post;
     f_permalink := sub_permalink post;
     f_url := sub_url post;
     f_created_utc := sub_created_utc post;
     f_created_local := local_str (sub_created_utc post);
     f_score := sub_score post;
     f_n_comments := sub_num_comments post |}.

(** The [for attempt in range(retries)] loop around one subreddit; [attempt]
    counts up, [fuel] is the number of attempts left. The posts appended
    before a server error stay in [posts_in_date_range]. *)
Fixpoint fetch_subreddit (fuel : nat) (attempt : nat) (s e : Z)
    (subreddit_name : string) (posts_in_date_range : list fetched)
    : outcome (list fetched) :=
  match fuel with
  | O => Ok posts_in_date_range
  | S fuel' =>
      let '(results, fin) := new_listing subreddit_name attempt in
      let posts_in_date_range :=
        (posts_in_date_range
         ++ List.map (to_fetched subreddit_name) (List.filter (in_range s e) results))%list in
      match fin with
      | ListingDone => Ok posts_in_date_range
      | ListingServerError =>
          match fuel' with
          | O => Raise ServerError
          | S _ => fetch_subreddit fuel' (S attempt) s e subreddit_name posts_in_date_range
          end
      | ListingOtherError => Raise UpstreamError
      end
  end.

Fixpoint fetch_all (subs : list string) (s e : Z) (acc : list fetched)
    : outcome (list fetched) :=
  match subs with
  | [] => Ok acc
  | subreddit_name :: subs' =>
      match fetch_subreddit 5 0 s e subreddit_name acc with
      | Ok acc' => fetch_all subs' s e acc'
      | Raise x => Raise x
      end
  end.

(** [delete_query]: rows with [start <= created_utc < end] go. *)
Definition delete_posts (s e : Z) (posts : list post_row) : list post_row :=
  List.filter (fun r => negb ((s <=? created_utc r) && (created_utc r <? e))) posts.

Definition to_row (partition_date_str : string) (f : fetched) : post_row :=
  {| post_id := f_post_id f;
     humanoid := None;
     subreddit := f_subreddit f;
     title := f_title f;
     created_utc := f_created_utc f;
     created_local := f_created_local f;
     score := f_score f;
     n_comments := f_n_comments f;
     partition_date := partition_date_str |}.

(** [insert_query]: the statement is atomic; it aborts, leaving the table as
    it was, when a [post_id] would occur twice. *)
Definition insert_posts (partition_date_str : string) (batch : list fetched)
    (posts : list post_row) : outcome (list post_row) :=
  let posts' := (posts ++ List.map (to_row partition_date_str) batch)%list in
  if nodupb (ids posts') then Ok posts' else Raise ConstraintException.

(** [fetch_daily_reddit_posts]: the table after the run, and the metadata
    count or the exception. The statements are autocommitted one by one, so
    a failed insert leaves the delete in place. The store is taken to be
    reachable: the retry loop on [duckdb.IOException] runs its body once. *)
Definition fetch_daily_reddit_posts (key : string) (posts : list post_row)
    : list post_row * outcome nat :=
  match strptime key with
  | None => (posts, Raise ValueError)
  | Some start_date =>
      match add_days start_date 1 with
      | None => (posts, Raise OverflowError)
      | Some end_date =>
          let start_timestamp := mktime start_date in
          let end_timestamp := mktime end_date in
          match fetch_all SUBREDDITS start_timestamp end_timestamp [] with
          | Raise x => (posts, Raise x)
          | Ok posts_in_date_range =>
              let n_reddit_posts := List.length posts_in_date_range in
              let posts := delete_posts start_timestamp end_timestamp posts in
              match insert_posts key posts_in_date_range posts with
              | Ok posts' => (posts', Ok n_reddit_posts)
              | Raise x => (posts, Raise x)
              end
          end
      end
  end.

(** The rows of [posts] that fall in [start <= created_utc < end]. *)
Definition rows_in_window (s e : Z) (posts : list post_row) : list post_row :=
  List.filter (fun r => (s <=? created_utc r) && (created_utc r <? e)) posts.

(** [classify_daily_reddit_posts]: [select_query], the [apply] of the label
    function, and [update_query]. *)
Definition set_label (updates : list post_row) (r : post_row) : post_row :=
  match List.find (fun u => String.eqb (post_id u) (post_id r)) updates with
  | Some u =>
      {| post_id := post_id r; humanoid := humanoid u; subreddit := subreddit r;
         title := title r; created_utc := created_utc r;
         created_local := created_local r; score := score r;
         n_comments := n_comments r; partition_date := partition_date r |}
  | None => r
  end.

Definition with_label (r : post_row) : post_row :=
  {| post_id := post_id r;
     humanoid := Some (Classify.get_post_labels (title r));
     subreddit := subreddit r; title := title r; created_utc := created_utc r;
     created_local := created_local r; score := score r;
     n_comments := n_comments r; partition_date := partition_date r |}.

Definition classify_daily_reddit_posts (key : string) (posts : list post_row)
    : list post_row * outcome nat :=
  match strptime key with
  | None => (posts, Raise ValueError)
  | Some start_date =>
      match add_days start_date 1 with
      | None => (posts, Raise OverflowError)
      | Some end_date =>
          let posts_partition_df :=
            List.map with_label
              (rows_in_window (mktime start_date) (mktime end_date) posts) in
          (List.map (set_label posts_partition_df) posts,
           Ok (List.length posts_partition_df))
      end
  end.

(** [humanoid IN ('optimus', 'figure', 'neo')]; NULL is not selected. *)
Definition is_robot (r : post_row) : bool :=
  match humanoid r with
  | Some l => Classify.single_brand l
  | None => false
  end.

(** [created_local >= '{start_date}' AND created_local < '{end_date}'],
    a comparison of strings. *)
Definition in_local_window (start_date end_date : datetime) (r : post_row) : bool :=
  String.leb (str_datetime start_date) (created_local r)
  && String.ltb (created_local r) (str_datetime end_date).

(** The rows [insert_query] of [select_robot_posts] adds. *)
Definition robot_insert (start_date end_date : datetime) (posts : list post_row)
    : list post_row :=
  List.filter (fun r => is_robot r && in_local_window start_date end_date r) posts.

(** [select_robot_posts]: the [robot_posts] table after the run and the
    number of rows inserted. The table has no key of its own. *)
Definition select_robot_posts (key : string) (posts robot_posts : list post_row)
    : list post_row * outcome nat :=
  match strptime key with
  | None => (robot_posts, Raise ValueError)
  | Some start_date =>
      match add_days start_date 1 with
      | None => (robot_posts, Raise OverflowError)
      | Some end_date =>
          let kept :=
            List.filter (fun r => negb (in_local_window start_date end_date r))
              robot_posts in
          let inserted := robot_insert start_date end_date posts in
          ((kept ++ inserted)%list, Ok (List.length inserted))
      end
  end.

(** [select_query] of [summarize_robot_posts]. *)
Definition summary_select (s e : Z) (robot_posts : list post_row) : list post_row :=
  List.filter
    (fun r => (s <=? created_utc r) && (created_utc r <? e) && is_robot r)
    robot_posts.

End Ingestion.

End Posts.

(** ** Weekly aggregation (assets/metrics.py) *)

Module Metrics.
Import PyStr Calendar Posts.

Open Scope Z_scope.

(** A row of [weekly_post_metrics]. The two averages are DOUBLE columns
    rounded to two decimals; they are kept in hundredths, computed exactly. *)
Record weekly_row := mkWeekly {
  id : Z;
  w_humanoid : option string;
  n_posts : Z;
  avg_score : Z;
  avg_comments : Z;
  w_partition_date : string }.

(** The part of the database the asset writes: the sequence [seq_weekly_id]
    (its next value) and the table; [None] before they are created. *)
Record store := mkStore {
  seq_weekly_id : option Z;
  weekly_post_metrics : option (list weekly_row) }.

Definition empty_store : store :=
  {| seq_weekly_id := None; weekly_post_metrics := None |}.

(** The columns of a row other than the surrogate key. *)
Definition payload (r : weekly_row) : option string * Z * Z * Z * string :=
  (w_humanoid r, n_posts r, avg_score r, avg_comments r, w_partition_date r).

(** [ROUND(AVG(x), 2)], in hundredths, halves away from zero. *)
Definition round2_avg (xs : list Z) : Z :=
  let n := Z.of_nat (List.length xs) in
  let num := 100 * fold_right Z.add 0 xs in
  if 0 <=? num then (2 * num + n) / (2 * n)
  else - ((2 * (- num) + n) / (2 * n)).

Definition label_eqb (a b : option string) : bool :=
  match a, b with
  | Some x, Some y => String.eqb x y
  | None, None => true
  | _, _ => false
  end.

(** The keys of [GROUP BY humanoid], in order of first occurrence. *)
Fixpoint group_keys (ls : list (option string)) : list (option string) :=
  match ls with
  | [] => []
  | l :: ls' => l :: List.filter (fun l' => negb (label_eqb l l')) (group_keys ls')
  end.

(** One output row of the grouped SELECT, with the key drawn from the
    sequence. *)
Definition group_row (start_date_str : string) (rows : list post_row)
    (next : Z) (l : option string) : weekly_row :=
  let g := List.filter (fun r => label_eqb l (humanoid r)) rows in
  {| id := next;
     w_humanoid := l;
     n_posts := Z.of_nat (List.length g);
     avg_score := round2_avg (List.map score g);
     avg_comments := round2_avg (List.map Posts.n_comments g);
     w_partition_date := start_date_str |}.

Fixpoint number_groups (start_date_str : string) (rows : list post_row)
    (next : Z) (keys : list (option string)) : list weekly_row :=
  match keys with
  | [] => []
  | l :: keys' =>
      group_row start_date_str rows next l
      :: number_groups start_date_str rows (next + 1) keys'
  end.

(** [delete_query]: a comparison of the VARCHAR column with two strings. *)
Definition delete_weekly (start_date_str end_date_str : string)
    (t : list weekly_row) : list weekly_row :=
  List.filter
    (fun r => negb (String.leb start_date_str (w_partition_date r)
                    && String.ltb (w_partition_date r) end_date_str))
    t.

Fixpoint nodupz (l : list Z) : bool :=
  match l with
  | [] => true
  | x :: l' => negb (existsb (Z.eqb x) l') && nodupz l'
  end.

(** [select_query]: the four columns returned for the metadata. *)
Definition select_weekly (start_date_str : string) (t : list weekly_row)
    : list (option string * Z * Z * Z) :=
  List.map (fun r => (w_humanoid r, n_posts r, avg_score r, avg_comments r))
    (List.filter (fun r => String.eqb (w_partition_date r) start_date_str) t).

(** The rows stored for the week whose Monday prints as [start_date_str]. *)
Definition week_rows (start_date_str : string) (st : store) : list weekly_row :=
  List.filter (fun r => String.eqb (w_partition_date r) start_date_str)
    (default [] (weekly_post_metrics st)).

(** The five statements of the asset, in order, for the week that starts at
    [start_date_str] / [start_timestamp]. *)
Definition run_queries (start_date_str end_date_str : string)
    (start_timestamp end_timestamp : Z) (posts : list post_row) (st : store)
    : store * outcome (list (option string * Z * Z * Z)) :=
  (* CREATE SEQUENCE IF NOT EXISTS seq_weekly_id START 1 *)
  let next := default 1 (seq_weekly_id st) in
  (* CREATE TABLE IF NOT EXISTS weekly_post_metrics *)
  let t := default [] (weekly_post_metrics st) in
  (* DELETE *)
  let t := delete_weekly start_date_str end_date_str t in
  (* INSERT ... SELECT ... GROUP BY humanoid *)
  let rows := rows_in_window start_timestamp end_timestamp posts in
  let new_rows :=
    number_groups start_date_str rows next
      (group_keys (List.map humanoid rows)) in
  let next' := next + Z.of_nat (List.length new_rows) in
  let t' := (t ++ new_rows)%list in
  if nodupz (List.map id t') then
    ({| seq_weekly_id := Some next'; weekly_post_metrics := Some t' |},
     (* SELECT humanoid, n_posts, avg_score, avg_comments *)
     Ok (select_weekly start_date_str t'))
  else
    ({| seq_weekly_id := Some next'; weekly_post_metrics := Some t |},
     Raise ConstraintException).

Section Aggregation.

Variable mktime : datetime -> Z.

(** [aggregate_posts_by_category_and_week]. The store is taken to be
    reachable. *)
Definition aggregate_posts_by_category_and_week (key : string)
    (posts : list post_row) (st : store)
    : store * outcome (list (option string * Z * Z * Z)) :=
  match strptime key with
  | None => (st, Raise ValueError)
  | Some partition_date =>
      match add_days partition_date (- weekday partition_date),
            add_days partition_date 1 with
      | Some start_date, Some end_date =>
          let start_timestamp := mktime start_date in
          let end_timestamp := mktime end_date in
          let end_date_str := strftime_ymd end_date in
          let start_date_str := strftime_ymd start_date in
          run_queries start_date_str end_date_str start_timestamp end_timestamp
            posts st
      | _, _ => (st, Raise OverflowError)
      end
  end.

(** The Monday of the week of [d] and the day after [d]. *)
Definition monday_of (d : datetime) : datetime :=
  ord2ymd (toordinal d - weekday d).
Definition morrow_of (d : datetime) : datetime := ord2ymd (toordinal d + 1).

End Aggregation.

(** The rows the grouped SELECT of a run produces over [rows], numbered from
    [next]. *)
Definition fresh_rows (start_date_str : string) (rows : list post_row) (next : Z)
    : list weekly_row :=
  number_groups start_date_str rows next (group_keys (List.map humanoid rows)).

(** The keys of the table are distinct and lie below the next value of the
    sequence, as in every store the asset itself has built. *)
Definition well_keyed (st : store) : Prop :=
  NoDup (List.map id (default [] (weekly_post_metrics st)))
  /\ Forall (fun r => id r < default 1 (seq_weekly_id st))
       (default [] (weekly_post_metrics st)).

End Metrics.

(** ** Decoded JSON *)

#[local] Unset Elimination Schemes.
Inductive jval :=
  | JNull
  | JBool (b : bool)
  | JInt (n : Z)
  | JStr (s : string)
  | JArr (l : list jval)
  | JObj (l : list (string * jval)).
#[local] Set Elimination Schemes.

(** A Python dictionary with string keys, in insertion order. *)
Definition dict := list (string * jval).

(** [d[k] = v]: replaces the value in place, or appends the key. *)
Fixpoint dict_set (k : string) (v : jval) (d : dict) : dict :=
  match d with
  | [] => [(k, v)]
  | (k', v') :: d' =>
      if String.eqb k' k then (k', v) :: d' else (k', v') :: dict_set k v d'
  end.

(** [{**d, **more}] *)
Definition dict_update (d more : dict) : dict :=
  fold_left (fun d kv => dict_set (fst kv) (snd kv) d) more d.

(** ** The summary directory *)

(** A file of [data/outputs/summaries]: its modification time and its text. *)
Record file (mtime : Type) := mkFile {
  file_mtime : mtime;
  file_body : string }.
Arguments mkFile {mtime} _ _.
Arguments file_mtime {mtime} _.
Arguments file_body {mtime} _.

(** ** Change-detection sensor (sensors/__init__.py) *)

Module Sensor.
Import PyStr.

Section Evaluation.

(** Modification times are floats; the sensor only compares them and prints
    them, so they are kept abstract. *)
Context {mtime : Type} `{EqDecision mtime}.
(** [f"{last_modified}"] *)
Variable repr : mtime -> string.
(** [json.load] on the text of a file; [None] is [JSONDecodeError]. *)
Variable json_load : string -> option jval.

(** What [os.listdir], [os.path.isfile] and [os.path.getmtime] report for one
    name of the directory, with the text [open] would read. *)
Record dir_entry := mkEntry {
  filename : string;
  is_file : bool;
  last_modified : mtime;
  body : string }.

Record RunRequest := mkRun {
  run_key : string;
  config_filename : string;
  config_summaries : jval }.

Record SensorResult := mkResult {
  run_requests : list RunRequest;
  cursor : gmap string mtime }.

Definition make_run_key (name : string) (m : mtime) : string :=
  "generate_pdf_reports_" ++ name ++ "_" ++ repr m.

(** [filename not in previous_state or previous_state[filename] != last_modified] *)
Definition changed (previous_state : gmap string mtime) (e : dir_entry) : bool :=
  match previous_state !! filename e with
  | None => true
  | Some m => negb (bool_decide (m = last_modified e))
  end.

(** [filename.endswith(".json") and os.path.isfile(file_path)] *)
Definition is_summary (e : dir_entry) : bool :=
  endswith (filename e) ".json" && is_file e.

(** The body of the [for filename in os.listdir(...)] loop, on the two
    accumulators [current_state] and [runs_to_request]. *)
Definition sensor_step (previous_state : gmap string mtime)
    (acc : gmap string mtime * list RunRequest) (e : dir_entry)
    : outcome (gmap string mtime * list RunRequest) :=
  let '(current_state, runs_to_request) := acc in
  if is_summary e then
    let current_state := <[filename e := last_modified e]> current_state in
    if changed previous_state e then
      match json_load (body e) with
      | Some summaries_json =>
          Ok (current_state,
              (runs_to_request
               ++ [ {| run_key := make_run_key (filename e) (last_modified e);
                       config_filename := filename e;
                       config_summaries := summaries_json |} ])%list)
      | None => Raise JSONDecodeError
      end
    else Ok (current_state, runs_to_request)
  else Ok (current_state, runs_to_request).

Fixpoint sensor_loop (previous_state : gmap string mtime)
    (acc : gmap string mtime * list RunRequest) (listing : list dir_entry)
    : outcome (gmap string mtime * list RunRequest) :=
  match listing with
  | [] => Ok acc
  | e :: listing' =>
      match sensor_step previous_state acc e with
      | Ok acc' => sensor_loop previous_state acc' listing'
      | Raise x => Raise x
      end
  end.

(** [generate_pdf_reports_sensor]; [context.cursor] is [None] before the first
    evaluation, afterwards the mapping the last result carried. *)
Definition generate_pdf_reports_sensor (context_cursor : option (gmap string mtime))
    (listing : list dir_entry) : outcome SensorResult :=
  let previous_state := default ∅ context_cursor in
  match sensor_loop previous_state (∅, []) listing with
  | Ok (current_state, runs_to_request) =>
      Ok {| run_requests := runs_to_request; cursor := current_state |}
  | Raise x => Raise x
  end.

(** A sequence of evaluations: the scheduler stores the cursor of a result and
    hands it to the next evaluation; a failed evaluation emits nothing and
    leaves the stored cursor as it was. *)
Fixpoint evaluations (context_cursor : option (gmap string mtime))
    (snapshots : list (list dir_entry)) : list (list RunRequest) :=
  match snapshots with
  | [] => []
  | listing :: rest =>
      match generate_pdf_reports_sensor context_cursor listing with
      | Ok res => run_requests res :: evaluations (Some (cursor res)) rest
      | Raise _ => [] :: evaluations context_cursor rest
      end
  end.

(** The keys emitted over a sequence of evaluations, in order. *)
Definition emitted_keys (context_cursor : option (gmap string mtime))
    (snapshots : list (list dir_entry)) : list string :=
  List.map run_key (List.concat (evaluations context_cursor snapshots)).

(** The requests one listed name contributes to [runs_to_request]. *)
Definition requests_of (previous_state : gmap string mtime) (e : dir_entry)
    : list RunRequest :=
  if is_summary e && changed previous_state e then
    match json_load (body e) with
    | Some j => [ {| run_key := make_run_key (filename e) (last_modified e);
                     config_filename := filename e;
                     config_summaries := j |} ]
    | None => []
    end
  else [].

(** The entry one listed name contributes to [current_state]. *)
Definition observe (cur : gmap string mtime) (e : dir_entry) : gmap string mtime :=
  if is_summary e then <[filename e := last_modified e]> cur else cur.

(** The requests that carry the file name [f]. *)
Definition for_file (f : string) (rr : RunRequest) : bool :=
  String.eqb (config_filename rr) f.

(** A listing of a directory whose files are those of [store]. *)
Definition lists_store (store : gmap string (file mtime)) (listing : list dir_entry)
    : Prop :=
  Forall (fun e => is_file e = true ->
            store !! filename e = Some (mkFile (last_modified e) (body e)))
    listing.

End Evaluation.

(** A modification time in whole seconds, printed as Python prints the
    float: [1715000000.0]. *)
Definition repr_seconds (m : Z) : string :=
  NilZero.string_of_int (Z.to_int m) ++ ".0".

End Sensor.

(** ** Summarization stage (assets/summaries.py) *)

Module Summaries.
Import PyStr Calendar Posts.

(** What the stage reads of a comment and of a submission. *)
Record comment := mkComment {
  c_body : string;
  c_score : Z;
  c_author : option string }.

Record post := mkPostObj {
  p_id : string;
  p_num_comments : Z;
  p_permalink : string;
  p_title : string;
  (** [post.comments.replace_more(limit=None)] then [post.comments.list()] *)
  p_comments : outcome (list comment) }.

(** One attempt at [reddit.submission(id=...)]. *)
Inductive fetch_result :=
  | Fetched (p : post)
  | FetchServerError
  | FetchOtherError.

Definition str_int (n : Z) : string :=
  NilZero.string_of_int (Z.to_int n).

(** One line of [flattened_comments]. *)
Definition flatten_comment (c : comment) : string :=
  "- " ++ c_body c ++ " (Score: " ++ str_int (c_score c) ++ ", Author: "
  ++ match c_author c with Some a => a | None => "[deleted]" end ++ ")".

Definition newline : string := String (ascii_of_nat 10) EmptyString.

(** [flattened_comments_str]: the text sent to the language model. *)
Definition prompt_of (comments : list comment) : string :=
  join newline (List.map flatten_comment comments).

Section Stage.

Context {mtime : Type}.

(** [constants.POST_SUMMARIES_TEMPLATE_FILE_PATH.format(key)], as a name in
    the summaries directory *)
Variable summary_file : string -> string.
Variable mktime : datetime -> Z.
(** The forum: attempt [k] at fetching the submission [id]. *)
Variable submission : string -> nat -> fetch_result.
(** The language model: the content of the reply to the [n]-th request of the
    run, given the user text. *)
Variable complete : nat -> string -> outcome string.
(** [json.loads]; [None] is [JSONDecodeError]. *)
Variable json_loads : string -> option jval.
(** [json.dump(..., indent=4)] *)
Variable json_dumps : jval -> string.

(** The world the stage acts on: the summaries directory and the requests
    sent to the language model so far. *)
Record world := mkWorld {
  files : gmap string (file mtime);
  llm_requests : list string }.

(** State and exceptions. *)
Definition M (A : Type) : Type := world -> outcome A * world.

Definition ret {A} (a : A) : M A := fun w => (Ok a, w).
Definition raise {A} (e : exn) : M A := fun w => (Raise e, w).
Definition bind {A B} (m : M A) (k : A -> M B) : M B :=
  fun w => match m w with
           | (Ok a, w') => k a w'
           | (Raise e, w') => (Raise e, w')
           end.
Definition lift {A} (o : outcome A) : M A := fun w => (o, w).

#[local] Instance M_bind : MBind M := fun A B k m => bind m k.
#[local] Instance M_ret : MRet M := fun A a => ret a.

(** [summarize_reddit_post]: one request to the language model. *)
Definition summarize_reddit_post (comments_str : string) : M string :=
  fun w =>
    let n := List.length (llm_requests w) in
    (complete n comments_str,
     {| files := files w; llm_requests := (llm_requests w ++ [comments_str])%list |}).

(** The retry loop around [reddit.submission]. *)
Fixpoint fetch_post (fuel attempt : nat) (post_id : string) : outcome post :=
  match fuel with
  | O => Raise ServerError
  | S fuel' =>
      match submission post_id attempt with
      | Fetched p => Ok p
      | FetchServerError =>
          match fuel' with
          | O => Raise ServerError
          | S _ => fetch_post fuel' (S attempt) post_id
          end
      | FetchOtherError => Raise UpstreamError
      end
  end.

Definition metadata (p : post) (row : post_row) : dict :=
  [ ("post_id", JStr (p_id p));
    ("n_comments", JInt (p_num_comments p));
    ("post_permalink", JStr (p_permalink p));
    ("humanoid", match humanoid row with Some l => JStr l | None => JNull end);
    ("title", JStr (p_title p)) ].

(** The body of [for _, row in partition_df.iterrows()]. A decoded reply that
    is not an object cannot be unpacked with [**]. *)
Definition summarize_row (row : post_row) : M dict :=
  p ← lift (fetch_post 5 0 (post_id row));
  comments ← lift (p_comments p);
  let flattened_comments_str := prompt_of comments in
  summary_json_str ← summarize_reddit_post flattened_comments_str;
  match json_loads summary_json_str with
  | None => raise JSONDecodeError
  | Some (JObj summary_dict) => ret (dict_update (metadata p row) summary_dict)
  | Some _ => raise TypeError
  end.

Fixpoint summarize_rows (rows : list post_row) (all_summaries : list dict)
    : M (list dict) :=
  match rows with
  | [] => ret all_summaries
  | row :: rows' =>
      s ← summarize_row row;
      summarize_rows rows' (all_summaries ++ [s])%list
  end.

(** [open(output_file, "w")] and [json.dump]; [now] is the time of the write. *)
Definition write_summaries (now : mtime) (output_file : string)
    (all_summaries : list dict) : M unit :=
  fun w =>
    (Ok tt,
     {| files := <[output_file := mkFile now (json_dumps (JArr (List.map JObj all_summaries)))]>
                   (files w);
        llm_requests := llm_requests w |}).

(** [summarize_robot_posts]. The store is taken to be reachable. *)
Definition summarize_robot_posts (key : string) (now : mtime)
    (robot_posts : list post_row) : M unit :=
  match strptime key with
  | None => raise ValueError
  | Some start_date =>
      match add_days start_date 1 with
      | None => raise OverflowError
      | Some end_date =>
          let partition_df :=
            summary_select (mktime start_date) (mktime end_date) robot_posts in
          if (0 <? List.length partition_df)%nat then
            all_summaries ← summarize_rows partition_df [];
            write_summaries now (summary_file key) all_summaries
          else ret tt
      end
  end.

(** The rows a run for [key] selects; none when the key does not parse. *)
Definition selected (key : string) (robot_posts : list post_row) : list post_row :=
  match strptime key with
  | Some d =>
      match add_days d 1 with
      | Some e => summary_select (mktime d) (mktime e) robot_posts
      | None => []
      end
  | None => []
  end.

(** A history of runs of the stage, each with its partition key, the time of
    its write and the [robot_posts] table it reads. *)
Definition stage_runs (history : list (string * mtime * list post_row))
    (w : world) : world :=
  fold_left
    (fun w run => snd (summarize_robot_posts run.1.1 run.1.2 run.2 w))
    history w.

End Stage.

End Summaries.

(** ** A small forum, in UTC, for the partition 2024-05-06 *)

Module Scenario.
Import Calendar Posts.

Open Scope Z_scope.

Definition subreddits : list string := ["robotics"].

(** 2024-05-06 00:00:00 and 2024-05-07 00:00:00, UTC. *)
Definition day_start : Z := 1714953600.
Definition day_end : Z := 1715040000.

(** A post created inside the day. *)
Definition post_inside : submission :=
  {| sub_id := "1ckx0a1"; sub_title := "Figure 02 robot folds laundry";
     sub_permalink := "/r/robotics/comments/1ckx0a1/"; sub_url := "https://example.org/a";
     sub_created_utc := day_start + 100; sub_score := 12; sub_num_comments := 3 |}.

(** A post created at midnight sharp, the end instant of the window. *)
Definition post_at_end : submission :=
  {| sub_id := "1cky9b2"; sub_title := "Tesla Optimus and 1x Neo robot compared";
     sub_permalink := "/r/robotics/comments/1cky9b2/"; sub_url := "https://example.org/b";
     sub_created_utc := day_end; sub_score := 7; sub_num_comments := 1 |}.

(** The forum answers every listing request with the same two posts. *)
Definition listing (subreddit_name : string) (attempt : nat)
    : list submission * listing_end :=
  ([post_inside; post_at_end], ListingDone).

Definition ingest (key : string) (posts : list post_row)
    : list post_row * outcome nat :=
  fetch_daily_reddit_posts subreddits (mktime_fixed 0) (local_str_fixed 0)
    listing key posts.

(** The summaries directory with one file, at a given modification time. *)
Definition summaries_dir (m : Z) : list (@Sensor.dir_entry Z) :=
  [ {| Sensor.filename := "post_summaries_2024-05-06.json";
       Sensor.is_file := true;
       Sensor.last_modified := m;
       Sensor.body := "[]" |} ].

(** Every file of the scenario holds an empty batch. *)
Definition load_empty (text : string) : option jval := Some (JArr []).

(** Three evaluations: the file is seen, rewritten, and restored with its
    first modification time. *)
Definition restored_file : list (list (@Sensor.dir_entry Z)) :=
  [ summaries_dir 1715000000; summaries_dir 1715000500; summaries_dir 1715000000 ].

(** The summarization stage on one robot post whose reply does not decode. *)
Definition summary_name (key : string) : string :=
  "post_summaries_" ++ key ++ ".json".

Definition robot_row : post_row :=
  {| post_id := "1ckx0a1"; humanoid := Some "figure"; subreddit := "robotics";
     title := "Figure 02 robot folds laundry";
     created_utc := day_start + 100; created_local := "2024-05-06 00:01:40";
     score := 12; n_comments := 3; partition_date := "2024-05-06" |}.

Definition forum_post : Summaries.post :=
  {| Summaries.p_id := "1ckx0a1"; Summaries.p_num_comments := 1;
     Summaries.p_permalink := "/r/robotics/comments/1ckx0a1/";
     Summaries.p_title := "Figure 02 robot folds laundry";
     Summaries.p_comments :=
       Ok [ {| Summaries.c_body := "Impressive hands"; Summaries.c_score := 4;
               Summaries.c_author := None |} ] |}.

Definition forum_submission (id : string) (attempt : nat) : Summaries.fetch_result :=
  Summaries.Fetched forum_post.

Definition model_garbled (n : nat) (text : string) : outcome string :=
  Ok "Sorry, I cannot help with that.".

(** A decoder that knows the empty object only. *)
Definition loads_object (text : string) : option jval :=
  if String.eqb text "{}" then Some (JObj []) else None.

Definition dumps_any (v : jval) : string := "[]".

Definition empty_world : @Summaries.world Z :=
  {| Summaries.files := ∅; Summaries.llm_requests := [] |}.

Definition summarize (key : string) (now : Z) (robot_posts : list post_row)
    : Summaries.M unit :=
  Summaries.summarize_robot_posts summary_name (mktime_fixed 0) forum_submission
    model_garbled loads_object dumps_any key now robot_posts.

(** Three classified posts of the week of Monday 2024-05-06. *)
Definition classified_posts : list post_row :=
  [ robot_row;
    {| post_id := "1cky9b2"; humanoid := Some "optimus-neo"; subreddit := "robotics";
       title := "Tesla Optimus and 1x Neo robot compared";
       created_utc := day_start + 7200; created_local := "2024-05-06 02:00:00";
       score := 7; n_comments := 1; partition_date := "2024-05-06" |};
    {| post_id := "1ckz3c3"; humanoid := Some "figure"; subreddit := "singularity";
       title := "Figure 01 humanoid at BMW";
       created_utc := day_start + 9000; created_local := "2024-05-06 02:30:00";
       score := 5; n_comments := 4; partition_date := "2024-05-06" |} ].

Definition aggregate (st : Metrics.store)
    : Metrics.store * outcome (list (option string * Z * Z * Z)) :=
  Metrics.aggregate_posts_by_category_and_week (mktime_fixed 0) "2024-05-06"
    classified_posts st.

End Scenario.

(** ** The weekly plot (assets/metrics.py, [plot_weekly_post_counts]) *)

Module Plot.
Import PyStr Calendar Posts Metrics.
Open Scope Z_scope.

(** [categories] *)
Definition categories : list string := ["optimus"; "figure"; "neo"].

(** The brands a label is split into: [humanoid.split("-")] without ['none']
    and ['other']. *)
Definition label_parts (h : string) : list string :=
  List.filter
    (fun part => negb (existsb (String.eqb part) ["none"; "other"]))
    (split_on "-" h).

Definition set_humanoid (row : weekly_row) (h : string) : weekly_row :=
  {| id := id row; w_humanoid := Some h; n_posts := n_posts row;
     avg_score := avg_score row; avg_comments := avg_comments row;
     w_partition_date := w_partition_date row |}.

(** The loop that fills [expanded_rows]; [None] is the [AttributeError] of
    [split] on a NULL label. *)
Fixpoint expand_rows (df : list weekly_row) (expanded_rows : list weekly_row)
    : option (list weekly_row) :=
  match df with
  | [] => Some expanded_rows
  | row :: df' =>
      match w_humanoid row with
      | None => None
      | Some h =>
          expand_rows df'
            (expanded_rows ++ List.map (set_humanoid row) (label_parts h))%list
      end
  end.

(** The entry of [grouped] for the week [date] and the column [category]:
    the sum of [n_posts] over the expanded rows of that week and brand. *)
Definition grouped_cell (expanded : list weekly_row) (date category : string) : Z :=
  fold_right Z.add 0
    (List.map n_posts
       (List.filter
          (fun r => String.eqb (w_partition_date r) date
                    && label_eqb (w_humanoid r) (Some category))
          expanded)).

(** The number of rows of [rows] that carry the label [l]: the count of its
    group. *)
Definition group_size (rows : list post_row) (l : option string) : Z :=
  Z.of_nat (List.length (List.filter (fun r => label_eqb l (humanoid r)) rows)).

(** The rows one row of the table is expanded into. *)
Definition expand_one (row : weekly_row) : list weekly_row :=
  match w_humanoid row with
  | Some h => List.map (set_humanoid row) (label_parts h)
  | None => []
  end.

(** How often the brand [b] occurs among the parts of a label. *)
Definition times (b : string) (l : option string) : Z :=
  match l with
  | Some h => Z.of_nat (List.length (List.filter (String.eqb b) (label_parts h)))
  | None => 0
  end.

(** The two ways the plot fails before it draws: [split] on a NULL label, and
    the column [partition_date] of a frame built from no rows, which has no
    columns. *)
Inductive plot_error := AttributeError | KeyError.

(** [expanded_df], up to the access to its column [partition_date]. *)
Definition expanded_df (df : list weekly_row) : plot_error + list weekly_row :=
  match expand_rows df [] with
  | None => inl AttributeError
  | Some [] => inl KeyError
  | Some (row :: rows) => inr (row :: rows)
  end.

End Plot.

(** ** Helpers for the stages of the daily job *)

Module Stages.
Import PyStr Calendar Posts.
Open Scope Z_scope.

(** The dictionaries one pass over the listing of a subreddit appends to
    [posts_in_date_range]: attempt [j] at [subreddit.new]. *)
Definition appended (local_str : Z -> string)
    (new_listing : string -> nat -> list submission * listing_end)
    (s e : Z) (name : string) (j : nat) : list fetched :=
  List.map (to_fetched local_str name)
    (List.filter (in_range s e) (fst (new_listing name j))).

(** What the UPDATE of the classification stage is meant to do to one row,
    for the window from [s] to [e]: a row of the window gets the label of its
    own title, any other row stays. *)
Definition relabel (s e : Z) (r : post_row) : post_row :=
  if (s <=? created_utc r) && (created_utc r <? e) then with_label r else r.

(** A forum whose first answer to a listing request breaks off with a server
    error after one post, and whose second answer is complete. *)
Definition flaky_listing (subreddit_name : string) (attempt : nat)
    : list submission * listing_end :=
  match attempt with
  | O => ([Scenario.post_inside], ListingServerError)
  | S _ => ([Scenario.post_inside; Scenario.post_at_end], ListingDone)
  end.

End Stages.

(** ** The report (assets/reports.py) *)

Module Reports.
Import PyStr Calendar.
Open Scope Z_scope.

(** [s.rfind(c)] for one character: the last index at which it occurs, [-1]
    when it does not occur. *)
Fixpoint rfind_from (c : ascii) (s : string) (i found : Z) : Z :=
  match s with
  | EmptyString => found
  | String a s' => rfind_from c s' (i + 1) (if Ascii.eqb a c then i else found)
  end.

Definition rfind (c : ascii) (s : string) : Z := rfind_from c s 0 (-1).

(** [p[i:j]] for [0 <= i <= j]. *)
Definition slice (p : string) (i j : Z) : string :=
  String.substring (Z.to_nat i) (Z.to_nat (j - i)) p.

(** The [while] loop of [os.path.splitext] over [p[filenameIndex:dotIndex]]:
    it skips leading dots and stops at the first other character. *)
Fixpoint skip_dots (s : string) : bool :=
  match s with
  | EmptyString => false
  | String a s' => if Ascii.eqb a "." then skip_dots s' else true
  end.

(** [os.path.splitext] of [posixpath]. *)
Definition splitext (p : string) : string * string :=
  let sepIndex := rfind "/" p in
  let dotIndex := rfind "." p in
  if (sepIndex <? dotIndex) && skip_dots (slice p (sepIndex + 1) dotIndex) then
    (slice p 0 dotIndex, slice p dotIndex (Z.of_nat (String.length p)))
  else (p, EmptyString).

(** [filename_no_ext.split("_")[-1]] *)
Definition last_part (filename_no_ext : string) : string :=
  List.last (split_on "_" filename_no_ext) EmptyString.

(** The date the report prints below its title, before it is formatted:
    [datetime.strptime(filename_no_ext.split("_")[-1], "%Y-%m-%d")]; [None] is
    the [ValueError] that ends the run. *)
Definition report_date (filename : string) : option datetime :=
  let filename_no_ext := fst (splitext filename) in
  strptime (last_part filename_no_ext).

(** [summary.get(key)] *)
Fixpoint dict_get (key : string) (summary : dict) : option jval :=
  match summary with
  | [] => None
  | (k, v) :: summary' =>
      if String.eqb k key then Some v else dict_get key summary'
  end.

(** [summary.get(key, default)] *)
Definition get (summary : dict) (key : string) (default : jval) : jval :=
  match dict_get key summary with
  | Some v => v
  | None => default
  end.

(** The keys of a summary record that the stage writes itself. *)
Definition metadata_keys : list string :=
  ["post_id"; "n_comments"; "post_permalink"; "humanoid"; "title"].

(** A field of a key parses to [n]. *)
Definition field_ok (f : string -> option Z) (s : string) (n : Z) : bool :=
  match f s with
  | Some n' => n' =? n
  | None => false
  end.

(** The characters a printed date is free of. *)
Definition plain (s : string) : bool :=
  negb (has_char "-" s) && negb (has_char "_" s) && negb (has_char "." s)
  && negb (has_char "/" s).

(** A summaries directory that also holds a JSON file of another kind. *)
Definition notes_dir : list (@Sensor.dir_entry Z) :=
  [ {| Sensor.filename := "notes.json";
       Sensor.is_file := true;
       Sensor.last_modified := 1715000000;
       Sensor.body := "[]" |} ].

(** A language model that answers with the empty object. *)
Definition model_empty (n : nat) (text : string) : outcome string := Ok "{}".

End Reports.

(** ** Rows stamped in a zone at a fixed offset *)

Module Zone.
Import PyStr Calendar Posts.
Open Scope Z_scope.

(** The row carries the local time of its creation in the zone at [offset]
    seconds from UTC, as the ingestion writes it, and that time falls on a
    day of the calendar. *)
Definition stamped (offset : Z) (r : post_row) : Prop :=
  created_local r = local_str_fixed offset (created_utc r)
  /\ 1 <= (created_utc r + offset) / 86400 + 719163 <= MAXORDINAL.

End Zone.

(** ** The text sent to the language model for a row *)

Module Prompts.
Import PyStr Posts Summaries.

(** The flattened comments of the post fetched for [row]; [None] when the
    fetch or the expansion of the comments raises. *)
Definition row_prompt (submission : string -> nat -> fetch_result)
    (row : post_row) : option string :=
  match fetch_post submission 5 0 (post_id row) with
  | Ok p =>
      match p_comments p with
      | Ok comments => Some (prompt_of comments)
      | Raise _ => None
      end
  | Raise _ => None
  end.

End Prompts.

Section ClassifyFacts.
Import PyStr Classify.

Lemma robot_matches_optimus t :
  robot_matches t "optimus" ["robot"; "bot"; "humanoid"] = brand_optimus t.
Proof. reflexivity. Qed.

Lemma robot_matches_figure t :
  robot_matches t "figure" ["01"; "02"; "03"; "humanoid"; "robot"; "bot"]
  = brand_figure t.
Proof.
  unfold robot_matches, brand_figure; simpl String.eqb.
  destruct (str_in "figure" t && any_in _ t); reflexivity.
Qed.

Lemma robot_matches_neo t :
  robot_matches t "neo" ["1x"; "humanoid"; "robot"; "bot"] = brand_neo t.
Proof. reflexivity. Qed.

(** The loop of [get_post_labels], unrolled over the three dictionary items. *)
Lemma labels_loop t :
  fold_left (label_step t) robots []
  = ((if brand_optimus t then ["optimus"] else [])
      ++ (if brand_figure t then ["figure"] else [])
      ++ (if brand_neo t then ["neo"] else []))%list.
Proof.
  unfold robots; cbn [fold_left label_step].
  rewrite robot_matches_optimus, robot_matches_figure, robot_matches_neo.
  destruct (brand_optimus t), (brand_figure t), (brand_neo t); reflexivity.
Qed.

Lemma brand_filter t :
  List.filter (fun b => brand_rule b t) brand_order
  = ((if brand_optimus t then ["optimus"] else [])
      ++ (if brand_figure t then ["figure"] else [])
      ++ (if brand_neo t then ["neo"] else []))%list.
Proof.
  unfold brand_order; cbn [List.filter].
  change (brand_rule "optimus" t) with (brand_optimus t).
  change (brand_rule "figure" t) with (brand_figure t).
  change (brand_rule "neo" t) with (brand_neo t).
  destruct (brand_optimus t), (brand_figure t), (brand_neo t); reflexivity.
Qed.

(** [get_post_labels] by cases on the three rules. *)
Lemma get_post_labels_cases title :
  let t := lower title in
  get_post_labels title =
  match brand_optimus t, brand_figure t, brand_neo t with
  | false, false, false => if str_in "humanoid" t then "other" else "none"
  | true,  false, false => "optimus"
  | false, true,  false => "figure"
  | false, false, true  => "neo"
  | true,  true,  false => "optimus-figure"
  | true,  false, true  => "optimus-neo"
  | false, true,  true  => "figure-neo"
  | true,  true,  true  => "optimus-figure-neo"
  end.
Proof.
  intros t. unfold get_post_labels. fold t. rewrite labels_loop.
  destruct (brand_optimus t), (brand_figure t), (brand_neo t); cbn;
    try reflexivity.
  destruct (str_in "humanoid" t); reflexivity.
Qed.

End ClassifyFacts.

Section ClassifyTheorems.
Import PyStr Classify.

(** C1. For every title, [get_post_labels] is a function of the title that
    evaluates the three brand rules independently on the lower-cased title:
    with no rule matching the label is [other] when "humanoid" occurs in the
    lower-cased title and [none] otherwise; with one rule matching it is that
    brand; with several it is the matching brands joined by "-" in the order
    optimus, figure, neo. *)
Theorem get_post_labels_classify_spec (title : string) :
  get_post_labels title = classify_spec title
  /\ (let t := lower title in
      get_post_labels title =
      match brand_optimus t, brand_figure t, brand_neo t with
      | false, false, false => if str_in "humanoid" t then "other" else "none"
      | true,  false, false => "optimus"
      | false, true,  false => "figure"
      | false, false, true  => "neo"
      | true,  true,  false => "optimus-figure"
      | true,  false, true  => "optimus-neo"
      | false, true,  true  => "figure-neo"
      | true,  true,  true  => "optimus-figure-neo"
      end).
Proof.
  split; [| apply get_post_labels_cases].
  rewrite get_post_labels_cases. unfold classify_spec.
  rewrite brand_filter.
  destruct (brand_optimus (lower title)), (brand_figure (lower title)),
    (brand_neo (lower title)); reflexivity.
Qed.

(** C2, as the specification states it, fails on its second title: the
    exclusion phrase suppresses [figure], and "humanoid" then gives [other]. *)
Lemma figure_out_title_not_none :
  get_post_labels "How to figure out if a robot is humanoid" <> "none"
  /\ get_post_labels "How to figure out if a robot is humanoid" = "other".
Proof. split; [vm_compute; discriminate | vm_compute; reflexivity]. Qed.

(** C2 (amended). "Tesla Optimus humanoid robot shown walking" is labelled
    [optimus], "How to figure out if a robot is humanoid" is labelled [other],
    and "1x Neo humanoid unveiled" is labelled [neo]. *)
Theorem scenario_titles_labels :
  get_post_labels "Tesla Optimus humanoid robot shown walking" = "optimus"
  /\ get_post_labels "How to figure out if a robot is humanoid" = "other"
  /\ get_post_labels "1x Neo humanoid unveiled" = "neo".
Proof. repeat split; vm_compute; reflexivity. Qed.

End ClassifyTheorems.

(** * Strings *)

Section StringFacts.
Import PyStr Sensor.

Lemma append_nil (b : string) : EmptyString ++ b = b.
Proof. reflexivity. Qed.

Lemma append_cons c (a b : string) : String c a ++ b = String c (a ++ b).
Proof. reflexivity. Qed.

Lemma length_append (a b : string) :
  String.length (a ++ b) = (String.length a + String.length b)%nat.
Proof.
  induction a as [| c a IH]; [reflexivity |].
  rewrite append_cons. cbn [String.length]. rewrite IH. reflexivity.
Qed.

Lemma append_tail_inj (t a b : string) : a ++ t = b ++ t -> a = b.
Proof.
  revert b. induction a as [| c a IH]; intros [| c' b] Heq.
  - reflexivity.
  - apply (f_equal String.length) in Heq.
    rewrite append_nil, append_cons in Heq. cbn [String.length] in Heq.
    rewrite length_append in Heq. lia.
  - apply (f_equal String.length) in Heq.
    rewrite append_nil, append_cons in Heq. cbn [String.length] in Heq.
    rewrite length_append in Heq. lia.
  - rewrite !append_cons in Heq. injection Heq as -> Heq. f_equal. apply IH, Heq.
Qed.

Lemma has_char_append c (a b : string) :
  has_char c (a ++ b) = has_char c a || has_char c b.
Proof.
  induction a as [| x a IH]; [reflexivity |].
  rewrite append_cons. cbn [has_char]. rewrite IH, orb_assoc. reflexivity.
Qed.

(** The separator of a run key is its last underscore when the printed
    modification time has none. *)
Lemma split_last_underscore (f1 f2 r1 r2 : string) :
  has_char "_" r1 = false -> has_char "_" r2 = false ->
  f1 ++ "_" ++ r1 = f2 ++ "_" ++ r2 -> f1 = f2 /\ r1 = r2.
Proof.
  intros H1 H2. revert f2. induction f1 as [| c f1 IH]; intros [| c' f2] Heq;
    repeat (rewrite append_nil in Heq || rewrite append_cons in Heq).
  - injection Heq as ->. auto.
  - injection Heq as <- ->.
    rewrite has_char_append in H1. cbn [has_char] in H1.
    rewrite Ascii.eqb_refl, orb_true_r in H1. discriminate.
  - injection Heq as -> <-.
    rewrite has_char_append in H2. cbn [has_char] in H2.
    rewrite Ascii.eqb_refl, orb_true_r in H2. discriminate.
  - injection Heq as -> Heq.
    destruct (IH f2 Heq) as [-> ->]. auto.
Qed.

Lemma uint_no_underscore d :
  has_char "_" (NilEmpty.string_of_uint d) = false.
Proof. induction d; cbn; auto. Qed.

Lemma repr_seconds_no_underscore m : has_char "_" (repr_seconds m) = false.
Proof.
  unfold repr_seconds. rewrite has_char_append. cbn [has_char].
  rewrite orb_false_r.
  assert (Hu : forall d, has_char "_" (NilZero.string_of_uint d) = false).
  { intros d. destruct d; try apply uint_no_underscore. reflexivity. }
  destruct (Z.to_int m); cbn; apply Hu.
Qed.

Lemma repr_seconds_inj a b : repr_seconds a = repr_seconds b -> a = b.
Proof.
  unfold repr_seconds. intros Heq. apply append_tail_inj in Heq.
  assert (Hp : forall z, NilZero.int_of_string (NilZero.string_of_int (Z.to_int z))
                         = Some (Z.to_int z)).
  { intros z. apply NilZero.isi; destruct z; cbn; try discriminate;
      intros [= E]; exact (DecimalPos.Unsigned.to_uint_nonnil _ E). }
  apply DecimalZ.to_int_inj.
  assert (Some (Z.to_int a) = Some (Z.to_int b)) as [= E];
    [rewrite <- !Hp, Heq; reflexivity | exact E].
Qed.

End StringFacts.

(** * The partition calendar *)

Section CalendarFacts.
Import Calendar.
Open Scope Z_scope.

(** A property checked on every index below a bound holds below it. *)
Lemma forall_below (P : Z -> bool) (bound : nat) :
  forallb (fun k => P (Z.of_nat k)) (seq 0 bound) = true ->
  forall n, 0 <= n < Z.of_nat bound -> P n = true.
Proof.
  intros Hall n Hn.
  rewrite forallb_forall in Hall.
  specialize (Hall (Z.to_nat n)).
  rewrite Z2Nat.id in Hall by lia.
  apply Hall. apply in_seq. lia.
Qed.

Lemma month_day_spec (leapyear : bool) (n : Z) :
  0 <= n < 365 + (if leapyear then 1 else 0) ->
  month_day_ok leapyear n = true.
Proof.
  intros Hn. destruct leapyear.
  - apply (forall_below (month_day_ok true) 366); [vm_compute; reflexivity | lia].
  - apply (forall_below (month_day_ok false) 365); [vm_compute; reflexivity | lia].
Qed.

Lemma days_in_month_table y m :
  days_in_month y m
  = table DAYS_IN_MONTH m + (if (m =? 2) && is_leap y then 1 else 0).
Proof.
  unfold days_in_month.
  destruct ((m =? 2) && is_leap y) eqn:E; [| lia].
  apply andb_true_iff in E as [E _]. apply Z.eqb_eq in E. subst m. reflexivity.
Qed.

Lemma year_parts n400 n100 n4 n1 :
  0 <= n100 <= 3 -> 0 <= n4 <= 24 -> 0 <= n1 <= 3 ->
  let y := n400 * 400 + 1 + n100 * 100 + n4 * 4 + n1 in
  days_before_year y = 146097 * n400 + 36524 * n100 + 1461 * n4 + 365 * n1
  /\ is_leap y = (n1 =? 3) && (negb (n4 =? 24) || (n100 =? 3)).
Proof.
  intros H100 H4 H1 y. subst y. unfold days_before_year, is_leap. split.
  - Z.div_mod_to_equations. lia.
  - destruct (Z.eqb_spec n1 3), (Z.eqb_spec n4 24), (Z.eqb_spec n100 3); cbn;
      repeat match goal with |- context [?a =? ?b] => destruct (Z.eqb_spec a b) end;
      cbn; try reflexivity; exfalso; Z.div_mod_to_equations; lia.
Qed.

Lemma month_day_spec' (leapyear : bool) (n : Z) :
  0 <= n < 365 + (if leapyear then 1 else 0) ->
  let '(m, d) := month_day leapyear n in
  1 <= m <= 12 /\ 1 <= d
  /\ d <= table DAYS_IN_MONTH m + (if (m =? 2) && leapyear then 1 else 0)
  /\ table DAYS_BEFORE_MONTH m + (if (2 <? m) && leapyear then 1 else 0) + d = n + 1.
Proof.
  intros Hn. pose proof (month_day_spec leapyear n Hn) as H.
  unfold month_day_ok in H. destruct (month_day leapyear n) as [m d].
  repeat (apply andb_true_iff in H as [H ?]).
  repeat match goal with
         | E : (_ <=? _) = true |- _ => apply Z.leb_le in E
         | E : (_ =? _) = true |- _ => apply Z.eqb_eq in E
         end.
  lia.
Qed.

Lemma ord2ymd_spec n :
  1 <= n ->
  let d := ord2ymd n in
  toordinal d = n
  /\ 1 <= month d <= 12
  /\ 1 <= day d <= days_in_month (year d) (month d)
  /\ 1 <= year d.
Proof.
  intros Hn. unfold ord2ymd, DI400Y, DI100Y, DI4Y.
  set (n0 := n - 1).
  set (n400 := n0 / 146097). set (r1 := n0 mod 146097).
  set (n100 := r1 / 36524). set (r2 := r1 mod 36524).
  set (n4 := r2 / 1461). set (r3 := r2 mod 1461).
  set (n1 := r3 / 365). set (r4 := r3 mod 365).
  assert (E0 : n0 = 146097 * n400 + r1 /\ 0 <= r1 < 146097)
    by (subst n400 r1; Z.div_mod_to_equations; lia).
  assert (E1 : r1 = 36524 * n100 + r2 /\ 0 <= r2 < 36524)
    by (subst n100 r2; Z.div_mod_to_equations; lia).
  assert (E2 : r2 = 1461 * n4 + r3 /\ 0 <= r3 < 1461)
    by (subst n4 r3; Z.div_mod_to_equations; lia).
  assert (E3 : r3 = 365 * n1 + r4 /\ 0 <= r4 < 365)
    by (subst n1 r4; Z.div_mod_to_equations; lia).
  assert (H400 : 0 <= n400) by (subst n400 n0; Z.div_mod_to_equations; lia).
  assert (En0 : n0 = n - 1) by reflexivity.
  clearbody n400 r1 n100 r2 n4 r3 n1 r4 n0.
  destruct ((n1 =? 4) || (n100 =? 4)) eqn:Esp.
  - (* the last day of a four-year or four-hundred-year cycle *)
    cbn [year month day]. unfold toordinal, ymd2ord, days_before_year. cbn [year month day].
    rewrite days_in_month_table.
    assert (Hl : is_leap (n400 * 400 + 1 + n100 * 100 + n4 * 4 + n1 - 1) = true).
    { unfold is_leap. apply orb_true_iff in Esp.
      repeat match goal with |- context [?a =? ?b] => destruct (Z.eqb_spec a b) end;
        cbn; try reflexivity; exfalso;
        destruct Esp as [E | E]; apply Z.eqb_eq in E; Z.div_mod_to_equations; lia. }
    unfold days_before_month. rewrite Hl.
    change (table DAYS_BEFORE_MONTH 12) with 334.
    change (table DAYS_IN_MONTH 12) with 31.
    change ((2 <? 12) && true) with true. change ((12 =? 2) && true) with false.
    cbv iota.
    apply orb_true_iff in Esp.
    destruct Esp as [E | E]; apply Z.eqb_eq in E; Z.div_mod_to_equations; lia.
  - apply orb_false_iff in Esp as [En1 En100].
    apply Z.eqb_neq in En1, En100.
    assert (B100 : 0 <= n100 <= 3) by lia.
    assert (B4 : 0 <= n4 <= 24) by lia.
    assert (B1 : 0 <= n1 <= 3) by lia.
    destruct (year_parts n400 n100 n4 n1 B100 B4 B1) as [Hdby Hleap].
    set (leapyear := (n1 =? 3) && (negb (n4 =? 24) || (n100 =? 3))) in *.
    assert (Hr4 : 0 <= r4 < 365 + (if leapyear then 1 else 0))
      by (destruct leapyear; lia).
    pose proof (month_day_spec' leapyear r4 Hr4) as Hmd.
    destruct (month_day leapyear r4) as [m d].
    cbn [year month day]. unfold toordinal, ymd2ord. cbn [year month day].
    rewrite days_in_month_table. unfold days_before_month.
    rewrite Hleap, Hdby. lia.
Qed.

Lemma days_before_year_succ y :
  days_before_year (y + 1)
  = days_before_year y + 365 + (if is_leap y then 1 else 0).
Proof.
  unfold days_before_year, is_leap.
  repeat match goal with |- context [?a =? ?b] => destruct (Z.eqb_spec a b) end;
    cbn; Z.div_mod_to_equations; lia.
Qed.

Lemma days_before_year_bounds y :
  1 <= y <= 9999 -> 0 <= days_before_year y /\ days_before_year (y + 1) <= MAXORDINAL.
Proof.
  intros Hy. unfold days_before_year, MAXORDINAL. Z.div_mod_to_equations. lia.
Qed.

Ltac eval_tables :=
  repeat match goal with
         | |- context [table ?t ?k] =>
             let v := eval vm_compute in (table t k) in
             change (table t k) with v
         | H : context [table ?t ?k] |- _ =>
             let v := eval vm_compute in (table t k) in
             change (table t k) with v in H
         | |- context [(?a <? ?b) && ?c] =>
             let v := eval vm_compute in ((a <? b) && c) in
             change ((a <? b) && c) with v
         | H : context [(?a =? ?b) && ?c] |- _ =>
             let v := eval vm_compute in ((a =? b) && c) in
             change ((a =? b) && c) with v in H
         end; cbv iota in *.

Lemma day_of_year_bounds y m d :
  1 <= m <= 12 -> 1 <= d <= days_in_month y m ->
  1 <= days_before_month y m + d <= 365 + (if is_leap y then 1 else 0).
Proof.
  intros Hm Hd. rewrite days_in_month_table in Hd. unfold days_before_month.
  assert (Hcases : m = 1 \/ m = 2 \/ m = 3 \/ m = 4 \/ m = 5 \/ m = 6 \/ m = 7
                   \/ m = 8 \/ m = 9 \/ m = 10 \/ m = 11 \/ m = 12) by lia.
  destruct (is_leap y);
    repeat (destruct Hcases as [-> | Hcases]; [eval_tables; lia |]);
    try subst m; eval_tables; lia.
Qed.

Lemma valid_date_parts y m d :
  valid_date y m d = true ->
  1 <= y <= 9999 /\ 1 <= m <= 12 /\ 1 <= d <= days_in_month y m.
Proof.
  unfold valid_date, MINYEAR, MAXYEAR. intros H.
  repeat (apply andb_true_iff in H as [H ?]).
  repeat match goal with E : (_ <=? _) = true |- _ => apply Z.leb_le in E end.
  lia.
Qed.

Lemma valid_date_ordinal y m d :
  valid_date y m d = true -> 1 <= ymd2ord y m d <= MAXORDINAL.
Proof.
  intros H. apply valid_date_parts in H as (Hy & Hm & Hd).
  pose proof (day_of_year_bounds y m d Hm Hd).
  pose proof (days_before_year_bounds y Hy).
  pose proof (days_before_year_succ y).
  unfold ymd2ord. lia.
Qed.

Lemma strptime_valid key d :
  strptime key = Some d -> valid_date (year d) (month d) (day d) = true.
Proof.
  unfold strptime, make_datetime. intros H.
  repeat match type of H with
         | match ?x with _ => _ end = _ => destruct x eqn:?; try discriminate
         | (if ?x then _ else _) = _ => destruct x eqn:?; try discriminate
         end.
  injection H as <-. assumption.
Qed.

Lemma strptime_ordinal key d :
  strptime key = Some d -> 1 <= toordinal d <= MAXORDINAL.
Proof. intros H. apply valid_date_ordinal, (strptime_valid key), H. Qed.

Lemma add_days_ordinal d n e :
  add_days d n = Some e -> toordinal e = toordinal d + n.
Proof.
  unfold add_days. destruct (_ && _) eqn:E; [| discriminate].
  intros [= <-]. apply andb_true_iff in E as [E _]. apply Z.ltb_lt in E.
  apply ord2ymd_spec. lia.
Qed.

Lemma add_days_in_range d n :
  1 <= toordinal d + n <= MAXORDINAL ->
  add_days d n = Some (ord2ymd (toordinal d + n)).
Proof.
  intros H. unfold add_days.
  destruct (Z.ltb_spec 0 (toordinal d + n)); [| lia].
  destruct (Z.leb_spec (toordinal d + n) MAXORDINAL); [reflexivity | lia].
Qed.

Lemma weekday_range d : 0 <= weekday d <= 6.
Proof. unfold weekday. Z.div_mod_to_equations. lia. Qed.

Lemma monday_ordinal (o : Z) :
  1 <= o -> 1 <= o - (o + 6) mod 7 <= o /\ (o - (o + 6) mod 7 + 6) mod 7 = 0.
Proof. intros H. Z.div_mod_to_equations. lia. Qed.

End CalendarFacts.

Section CalendarTheorems.
Import Calendar.
Open Scope Z_scope.

Lemma daily_dates_some key d :
  strptime key = Some d -> toordinal d < MAXORDINAL ->
  daily_dates key = Some (d, ord2ymd (toordinal d + 1)).
Proof.
  intros Hk Hlt. unfold daily_dates. rewrite Hk.
  pose proof (strptime_ordinal key d Hk).
  rewrite add_days_in_range by lia. reflexivity.
Qed.

Lemma week_dates_some key d :
  strptime key = Some d -> toordinal d < MAXORDINAL ->
  week_dates key
  = Some (ord2ymd (toordinal d - weekday d), ord2ymd (toordinal d + 1)).
Proof.
  intros Hk Hlt. unfold week_dates. rewrite Hk.
  pose proof (strptime_ordinal key d Hk) as Ho.
  pose proof (monday_ordinal (toordinal d) (proj1 Ho)) as [Hm _].
  fold (weekday d) in Hm.
  rewrite (add_days_in_range d (- weekday d)) by lia.
  rewrite (add_days_in_range d 1) by lia.
  replace (toordinal d + - weekday d) with (toordinal d - weekday d) by lia.
  reflexivity.
Qed.

(** C3, as the specification states it, fails: for the Monday 2024-05-06 the
    week window of metrics.py runs from that Monday to the next day, one day
    wide. *)
Lemma monday_week_window_one_day :
  week_dates "2024-05-06" = Some (mkdate 2024 5 6, mkdate 2024 5 7)
  /\ weekday (mkdate 2024 5 6) = 0
  /\ toordinal (mkdate 2024 5 7) - toordinal (mkdate 2024 5 6) <> 7
  /\ week_window (mktime_fixed 0) "2024-05-06"
     = Some (1714953600, 1714953600 + 1 * 86400).
Proof. repeat split; vm_compute; congruence. Qed.

(** C3 (amended). For every key that [strptime] accepts, other than the last
    representable day 9999-12-31, the daily window starts at midnight of the
    partition date and ends at midnight of the next calendar day (86400
    seconds later in a time zone at a fixed offset from UTC), and is used as a
    half-open interval by the window queries; the week window starts on the
    Monday on or before the partition date and ends at midnight after the
    partition date, so it is [weekday + 1] days wide: between 1 and 7 days,
    and 7 days exactly when the partition date is a Sunday. *)
Theorem partition_windows (key : string) (d : datetime) :
  strptime key = Some d ->
  toordinal d < MAXORDINAL ->
  (exists e,
      daily_dates key = Some (d, e)
      /\ toordinal e = toordinal d + 1
      /\ (forall offset,
             daily_window (mktime_fixed offset) key
             = Some (mktime_fixed offset d, mktime_fixed offset d + 86400))
      /\ (forall mktime posts r,
             In r (Posts.rows_in_window (mktime d) (mktime e) posts)
             <-> In r posts
                 /\ mktime d <= Posts.created_utc r < mktime e))
  /\ (exists ws we,
         week_dates key = Some (ws, we)
         /\ weekday ws = 0
         /\ toordinal ws <= toordinal d < toordinal we
         /\ toordinal we = toordinal d + 1
         /\ toordinal we - toordinal ws = weekday d + 1
         /\ 1 <= toordinal we - toordinal ws <= 7
         /\ (toordinal we - toordinal ws = 7 <-> weekday d = 6)
         /\ (forall offset,
                week_window (mktime_fixed offset) key
                = Some (mktime_fixed offset ws,
                        mktime_fixed offset ws + (weekday d + 1) * 86400))).
Proof.
  intros Hk Hlt.
  pose proof (strptime_ordinal key d Hk) as Ho.
  pose proof (weekday_range d) as Hw.
  pose proof (monday_ordinal (toordinal d) (proj1 Ho)) as [Hm Hm0].
  fold (weekday d) in Hm, Hm0.
  assert (He : toordinal (ord2ymd (toordinal d + 1)) = toordinal d + 1)
    by (apply ord2ymd_spec; lia).
  assert (Hs : toordinal (ord2ymd (toordinal d - weekday d))
               = toordinal d - weekday d)
    by (apply ord2ymd_spec; lia).
  split.
  - exists (ord2ymd (toordinal d + 1)).
    split; [apply daily_dates_some; assumption |].
    split; [exact He |].
    split.
    + intros offset. unfold daily_window.
      rewrite (daily_dates_some key d Hk Hlt). unfold mktime_fixed.
      rewrite He. f_equal. f_equal. lia.
    + intros mktime posts r. unfold Posts.rows_in_window.
      rewrite filter_In, andb_true_iff, Z.leb_le, Z.ltb_lt. tauto.
  - exists (ord2ymd (toordinal d - weekday d)), (ord2ymd (toordinal d + 1)).
    split; [apply week_dates_some; assumption |].
    split; [unfold weekday at 1; rewrite Hs; exact Hm0 |].
    rewrite He, Hs.
    repeat split; try lia.
    intros offset. unfold week_window.
    rewrite (week_dates_some key d Hk Hlt). unfold mktime_fixed.
    rewrite He, Hs. f_equal. f_equal. lia.
Qed.

Lemma partition_windows_witness :
  strptime "2024-05-08" = Some (mkdate 2024 5 8)
  /\ toordinal (mkdate 2024 5 8) < MAXORDINAL
  /\ exists ws we,
       week_dates "2024-05-08" = Some (ws, we)
       /\ weekday ws = 0
       /\ toordinal we - toordinal ws = 3.
Proof.
  split; [reflexivity |]. split; [vm_compute; reflexivity |].
  destruct (partition_windows "2024-05-08" (mkdate 2024 5 8) eq_refl
              ltac:(vm_compute; reflexivity))
    as [_ (ws & we & Hw & H0 & _ & _ & Hwidth & _)].
  exists ws, we. split; [exact Hw |]. split; [exact H0 |].
  rewrite Hwidth. vm_compute. reflexivity.
Defined.

End CalendarTheorems.

(** * The order of printed dates *)

Section DateOrder.
Import Calendar.
Open Scope Z_scope.

Lemma compare_cons a b (s t : string) :
  String.compare (String a s) (String b t)
  = lexcmp (Ascii.compare a b) (String.compare s t).
Proof. reflexivity. Qed.

Lemma digit_char_code d : N_of_ascii (digit_char d) = (Z.to_N (d mod 10) + 48)%N.
Proof.
  unfold digit_char. apply N_ascii_embedding.
  assert (0 <= d mod 10 < 10) by (apply Z.mod_pos_bound; lia). lia.
Qed.

Lemma compare_digit x y (s t : string) :
  String.compare (String (digit_char x) s) (String (digit_char y) t)
  = lexcmp (x mod 10 ?= y mod 10) (String.compare s t).
Proof.
  rewrite compare_cons. f_equal. unfold Ascii.compare.
  rewrite !digit_char_code.
  assert (0 <= x mod 10 < 10) by (apply Z.mod_pos_bound; lia).
  assert (0 <= y mod 10 < 10) by (apply Z.mod_pos_bound; lia).
  destruct (N.compare_spec (Z.to_N (x mod 10) + 48) (Z.to_N (y mod 10) + 48));
    destruct (Z.compare_spec (x mod 10) (y mod 10)); try reflexivity; lia.
Qed.

Lemma compare_base10 a b :
  (a ?= b) = lexcmp (a / 10 ?= b / 10) (a mod 10 ?= b mod 10).
Proof.
  unfold lexcmp.
  destruct (Z.compare_spec (a / 10) (b / 10));
    destruct (Z.compare_spec (a mod 10) (b mod 10));
    destruct (Z.compare_spec a b); try reflexivity;
    exfalso; Z.div_mod_to_equations; lia.
Qed.

Lemma lexcmp_assoc a b c : lexcmp (lexcmp a b) c = lexcmp a (lexcmp b c).
Proof. destruct a; reflexivity. Qed.

Lemma append_nil_r (s : string) : s ++ EmptyString = s.
Proof.
  induction s as [| c s IH]; [reflexivity |].
  rewrite append_cons, IH. reflexivity.
Qed.

Lemma compare_pad2 m1 m2 (r1 r2 : string) :
  0 <= m1 < 100 -> 0 <= m2 < 100 ->
  String.compare (pad2 m1 ++ r1) (pad2 m2 ++ r2)
  = lexcmp (m1 ?= m2) (String.compare r1 r2).
Proof.
  intros H1 H2. unfold pad2. rewrite !append_cons, !append_nil.
  rewrite !compare_digit, <- lexcmp_assoc.
  rewrite (Z.mod_small (m1 / 10)), (Z.mod_small (m2 / 10))
    by (Z.div_mod_to_equations; lia).
  rewrite <- compare_base10. reflexivity.
Qed.

Lemma compare_pad4 y1 y2 (r1 r2 : string) :
  0 <= y1 < 10000 -> 0 <= y2 < 10000 ->
  String.compare (pad4 y1 ++ r1) (pad4 y2 ++ r2)
  = lexcmp (y1 ?= y2) (String.compare r1 r2).
Proof.
  intros H1 H2. unfold pad4. rewrite !append_cons, !append_nil.
  rewrite !compare_digit, <- !lexcmp_assoc.
  rewrite (Z.mod_small (y1 / 1000)), (Z.mod_small (y2 / 1000))
    by (Z.div_mod_to_equations; lia).
  replace (y1 / 1000) with (y1 / 100 / 10) by (rewrite Z.div_div by lia; reflexivity).
  replace (y2 / 1000) with (y2 / 100 / 10) by (rewrite Z.div_div by lia; reflexivity).
  rewrite <- (compare_base10 (y1 / 100)).
  replace (y1 / 100) with (y1 / 10 / 10) by (rewrite Z.div_div by lia; reflexivity).
  replace (y2 / 100) with (y2 / 10 / 10) by (rewrite Z.div_div by lia; reflexivity).
  rewrite <- (compare_base10 (y1 / 10)), <- compare_base10. reflexivity.
Qed.

Lemma days_in_month_le_31 y m : 1 <= m <= 12 -> days_in_month y m <= 31.
Proof.
  intros Hm. rewrite days_in_month_table.
  assert (m = 1 \/ m = 2 \/ m = 3 \/ m = 4 \/ m = 5 \/ m = 6 \/ m = 7
          \/ m = 8 \/ m = 9 \/ m = 10 \/ m = 11 \/ m = 12) as Hc by lia.
  destruct (is_leap y);
    repeat (destruct Hc as [-> | Hc]; [vm_compute; discriminate |]);
    subst m; vm_compute; discriminate.
Qed.

(** The order of two printed dates is the order of (year, month, day). *)
Lemma compare_strftime a b :
  valid_date (year a) (month a) (day a) = true ->
  valid_date (year b) (month b) (day b) = true ->
  String.compare (strftime_ymd a) (strftime_ymd b)
  = lexcmp (year a ?= year b) (lexcmp (month a ?= month b) (day a ?= day b)).
Proof.
  intros Ha Hb.
  apply valid_date_parts in Ha as (Hya & Hma & Hda).
  apply valid_date_parts in Hb as (Hyb & Hmb & Hdb).
  pose proof (days_in_month_le_31 (year a) (month a) Hma).
  pose proof (days_in_month_le_31 (year b) (month b) Hmb).
  unfold strftime_ymd.
  rewrite compare_pad4 by lia. f_equal.
  rewrite ?append_cons, ?append_nil, compare_cons.
  change (Ascii.compare "-" "-") with Eq. cbn [lexcmp].
  rewrite compare_pad2 by lia. f_equal.
  rewrite ?append_cons, ?append_nil, compare_cons.
  change (Ascii.compare "-" "-") with Eq. cbn [lexcmp].
  rewrite <- (append_nil_r (pad2 (day a))), <- (append_nil_r (pad2 (day b))).
  rewrite compare_pad2 by lia. cbn [String.compare].
  destruct (day a ?= day b); reflexivity.
Qed.

Lemma days_before_year_mono y1 y2 :
  y1 <= y2 -> days_before_year y1 <= days_before_year y2.
Proof. intros H. unfold days_before_year. Z.div_mod_to_equations. lia. Qed.

Lemma months_ordered_spec (leap : bool) m1 m2 :
  0 <= m1 < 13 -> 0 <= m2 < 13 -> months_ordered leap m1 m2 = true.
Proof.
  intros H1 H2.
  assert (Hall : forallb (fun k1 =>
                   forallb (fun k2 => months_ordered leap (Z.of_nat k1) (Z.of_nat k2))
                     (seq 0 13)) (seq 0 13) = true)
    by (destruct leap; vm_compute; reflexivity).
  pose proof (forall_below
                (fun n => forallb (fun k2 => months_ordered leap n (Z.of_nat k2))
                            (seq 0 13)) 13 Hall m1 H1) as Hrow.
  cbv beta in Hrow.
  exact (forall_below (fun n => months_ordered leap m1 n) 13 Hrow m2 H2).
Qed.

Lemma ymd_lt_ordinal a b :
  valid_date (year a) (month a) (day a) = true ->
  valid_date (year b) (month b) (day b) = true ->
  lexcmp (year a ?= year b) (lexcmp (month a ?= month b) (day a ?= day b)) = Lt ->
  toordinal a < toordinal b.
Proof.
  intros Ha Hb Hlt.
  apply valid_date_parts in Ha as (Hya & Hma & Hda).
  apply valid_date_parts in Hb as (Hyb & Hmb & Hdb).
  unfold toordinal, ymd2ord.
  pose proof (day_of_year_bounds _ _ _ Hma Hda) as Hdoya.
  pose proof (day_of_year_bounds _ _ _ Hmb Hdb) as Hdoyb.
  revert Hlt.
  destruct (Z.compare_spec (year a) (year b)) as [Hy | Hy | Hy];
    cbn [lexcmp]; [| | discriminate].
  - rewrite Hy in *.
    destruct (Z.compare_spec (month a) (month b)) as [Hm | Hm | Hm];
      cbn [lexcmp]; [| | discriminate].
    + rewrite Hm. intros Hlt. change (day a < day b) in Hlt. lia.
    + intros _.
      pose proof (months_ordered_spec (is_leap (year b)) (month a) (month b)
                    ltac:(lia) ltac:(lia)) as Ho.
      unfold months_ordered in Ho.
      destruct (Z.ltb_spec (month a) (month b)); [| lia]. cbn [negb orb] in Ho.
      apply Z.leb_le in Ho. rewrite days_in_month_table in Hda.
      unfold days_before_month. lia.
  - intros _. pose proof (days_before_year_succ (year a)).
    pose proof (days_before_year_mono (year a + 1) (year b) ltac:(lia)). lia.
Qed.

Lemma lexcmp_flip c1 c2 : CompOpp (lexcmp c1 c2) = lexcmp (CompOpp c1) (CompOpp c2).
Proof. destruct c1; reflexivity. Qed.

(** Printing dates preserves their order. *)
Lemma strftime_lt a b :
  valid_date (year a) (month a) (day a) = true ->
  valid_date (year b) (month b) (day b) = true ->
  toordinal a < toordinal b ->
  String.ltb (strftime_ymd a) (strftime_ymd b) = true.
Proof.
  intros Ha Hb Hlt. unfold String.ltb. rewrite compare_strftime by assumption.
  destruct (lexcmp (year a ?= year b)
              (lexcmp (month a ?= month b) (day a ?= day b))) eqn:E.
  - exfalso.
    assert (year a = year b /\ month a = month b /\ day a = day b) as (Ey & Em & Ed).
    { revert E.
      destruct (Z.compare_spec (year a) (year b)); cbn [lexcmp];
        try discriminate.
      destruct (Z.compare_spec (month a) (month b)); cbn [lexcmp];
        try discriminate.
      intros E. apply Z.compare_eq_iff in E. auto. }
    unfold toordinal in Hlt. rewrite Ey, Em, Ed in Hlt. lia.
  - reflexivity.
  - exfalso.
    assert (toordinal b < toordinal a); [| lia].
    apply ymd_lt_ordinal; try assumption.
    rewrite (Z.compare_antisym (year a)), (Z.compare_antisym (month a)),
      (Z.compare_antisym (day a)), <- !lexcmp_flip, E. reflexivity.
Qed.

Lemma compare_refl (s : string) : String.compare s s = Eq.
Proof.
  induction s as [| c s IH]; [reflexivity |].
  rewrite compare_cons, IH. unfold Ascii.compare. rewrite N.compare_refl.
  reflexivity.
Qed.

Lemma leb_refl (s : string) : String.leb s s = true.
Proof. unfold String.leb. rewrite compare_refl. reflexivity. Qed.

Lemma ord2ymd_valid n :
  1 <= n <= MAXORDINAL ->
  valid_date (year (ord2ymd n)) (month (ord2ymd n)) (day (ord2ymd n)) = true.
Proof.
  intros Hn. destruct (ord2ymd_spec n (proj1 Hn)) as (Ho & Hm & Hd & Hy).
  assert (Hmax : year (ord2ymd n) <= 9999).
  { pose proof (day_of_year_bounds _ _ _ Hm Hd) as Hdoy.
    unfold toordinal, ymd2ord in Ho.
    destruct (Z.le_gt_cases (year (ord2ymd n)) 9999) as [| Hbig]; [assumption |].
    pose proof (days_before_year_mono 10000 (year (ord2ymd n)) ltac:(lia)) as Hmono.
    change (days_before_year 10000) with 3652059 in Hmono.
    unfold MAXORDINAL in Hn. lia. }
  unfold valid_date, MINYEAR, MAXYEAR.
  repeat (apply andb_true_iff; split); apply Z.leb_le; lia.
Qed.

End DateOrder.

(** * Ingestion and selection *)

Section IngestionFacts.
Import Calendar Posts.
Open Scope Z_scope.

Variable SUBREDDITS : list string.
Variable mktime : datetime -> Z.
Variable local_str : Z -> string.
Variable new_listing : string -> nat -> list submission * listing_end.

Abbreviation fetch_sub := (fetch_subreddit local_str new_listing).
Abbreviation fetch := (fetch_all local_str new_listing).
Abbreviation ingest := (fetch_daily_reddit_posts SUBREDDITS mktime local_str new_listing).

(** Everything the fetch loop appends passed the inclusive range test. *)
Lemma fetch_subreddit_in_range fuel attempt s e name acc batch :
  Forall (fun f => s <= f_created_utc f <= e) acc ->
  fetch_sub fuel attempt s e name acc = Ok batch ->
  Forall (fun f => s <= f_created_utc f <= e) batch.
Proof.
  revert attempt acc. induction fuel as [| fuel IH]; intros attempt acc Hacc.
  - cbn. intros [= <-]. exact Hacc.
  - cbn. destruct (new_listing name attempt) as [results fin].
    assert (Hacc' : Forall (fun f => s <= f_created_utc f <= e)
                      (acc ++ List.map (to_fetched local_str name)
                                 (List.filter (in_range s e) results))%list).
    { apply Forall_app. split; [exact Hacc |].
      apply List.Forall_forall. intros f Hf.
      apply in_map_iff in Hf as (p & <- & Hp).
      apply filter_In in Hp as [_ Hp]. unfold in_range in Hp.
      apply andb_true_iff in Hp as [H1 H2].
      apply Z.leb_le in H1, H2. cbn. lia. }
    destruct fin.
    + intros [= <-]. exact Hacc'.
    + destruct fuel; [discriminate |]. apply IH. exact Hacc'.
    + discriminate.
Qed.

Lemma fetch_all_in_range subs s e acc batch :
  Forall (fun f => s <= f_created_utc f <= e) acc ->
  fetch subs s e acc = Ok batch ->
  Forall (fun f => s <= f_created_utc f <= e) batch.
Proof.
  revert acc. induction subs as [| name subs IH]; intros acc Hacc.
  - cbn. intros [= <-]. exact Hacc.
  - cbn [fetch_all].
    destruct (fetch_sub 5 0%nat s e name acc) as [acc' |] eqn:E; [| discriminate].
    apply IH. eapply fetch_subreddit_in_range; eassumption.
Qed.

Lemma delete_posts_idem s e posts :
  delete_posts s e (delete_posts s e posts) = delete_posts s e posts.
Proof.
  unfold delete_posts. induction posts as [| r posts IH]; [reflexivity |].
  cbn. destruct (negb _) eqn:E; cbn; rewrite ?E, IH; reflexivity.
Qed.

Lemma delete_posts_app s e a b :
  delete_posts s e (a ++ b) = (delete_posts s e a ++ delete_posts s e b)%list.
Proof. unfold delete_posts. apply List.filter_app. Qed.

Lemma delete_posts_rows s e key batch :
  Forall (fun f => s <= f_created_utc f < e) batch ->
  delete_posts s e (List.map (to_row key) batch) = [].
Proof.
  unfold delete_posts. induction 1 as [| f batch Hf _ IH]; [reflexivity |].
  cbn. destruct (Z.leb_spec s (f_created_utc f)); [| lia].
  destruct (Z.ltb_spec (f_created_utc f) e); [| lia]. cbn. exact IH.
Qed.

(** Away from the end instant, a second run of the ingestion over the table
    the first run left rebuilds that same table. *)
Lemma reingest_off_boundary key d e posts posts1 n :
  strptime key = Some d -> add_days d 1 = Some e ->
  ingest key posts = (posts1, Ok n) ->
  (forall batch, fetch SUBREDDITS (mktime d) (mktime e) [] = Ok batch ->
                 Forall (fun f => f_created_utc f <> mktime e) batch) ->
  ingest key posts1 = (posts1, Ok n).
Proof.
  intros Hk He Hrun Hoff. unfold fetch_daily_reddit_posts in *.
  rewrite Hk, He in *.
  destruct (fetch SUBREDDITS (mktime d) (mktime e) []) as [batch |] eqn:Hf;
    [| discriminate].
  specialize (Hoff batch eq_refl).
  unfold insert_posts in *.
  destruct (nodupb _) eqn:Hnd in Hrun; [| discriminate].
  injection Hrun as <- <-.
  assert (Hin : Forall (fun f => mktime d <= f_created_utc f < mktime e) batch).
  { pose proof (fetch_all_in_range SUBREDDITS (mktime d) (mktime e) [] batch
                  (List.Forall_nil _) Hf) as Hr.
    rewrite List.Forall_forall in *. intros f Hfin.
    specialize (Hr f Hfin). specialize (Hoff f Hfin). cbn in *. lia. }
  rewrite delete_posts_app, delete_posts_idem,
    (delete_posts_rows _ _ key batch Hin), app_nil_r.
  rewrite Hnd. reflexivity.
Qed.

End IngestionFacts.

Section PostsTheorems.
Import PyStr Classify Calendar Posts.
Open Scope Z_scope.

(** C4 fails on the code. The filter of posts.py:58 keeps a post created at
    the end instant ([<=]), the delete of posts.py:109 does not remove it
    ([<]). A second run over the same two posts deletes the row inside the
    window, then aborts on the duplicate key of the row at the end instant:
    the window holds one row after the first run and none after the second. *)
Theorem reingest_boundary_post :
  exists t1 t2,
    Scenario.ingest "2024-05-06" [] = (t1, Ok 2%nat)
    /\ Scenario.ingest "2024-05-06" t1 = (t2, Raise ConstraintException)
    /\ ids t1 = ["1ckx0a1"; "1cky9b2"]
    /\ ids t2 = ["1cky9b2"]
    /\ ids (rows_in_window Scenario.day_start Scenario.day_end t1) = ["1ckx0a1"]
    /\ ids (rows_in_window Scenario.day_start Scenario.day_end t2) = []
    /\ daily_window (mktime_fixed 0) "2024-05-06"
       = Some (Scenario.day_start, Scenario.day_end).
Proof.
  eexists. eexists.
  split; [vm_compute; reflexivity |].
  split; [vm_compute; reflexivity |].
  repeat split; vm_compute; reflexivity.
Qed.

Lemma compound_not_single t :
  (2 <= List.length (List.filter (fun b => brand_rule b t) brand_order))%nat ->
  forall title, lower title = t -> single_brand (get_post_labels title) = false.
Proof.
  intros H title <-. rewrite get_post_labels_cases.
  rewrite brand_filter in H.
  destruct (brand_optimus (lower title)), (brand_figure (lower title)),
    (brand_neo (lower title)); cbn in H; try lia; reflexivity.
Qed.

(** C9. A post whose title matches more than one brand rule, and so carries a
    compound label, is not among the rows [select_robot_posts] inserts and is
    not selected by the query of the summarization stage; every row that is
    inserted or selected carries exactly one of [optimus], [figure], [neo]. *)
Theorem compound_label_excluded (r : post_row) :
  (2 <= List.length
          (List.filter (fun b => brand_rule b (lower (title r))) brand_order))%nat ->
  humanoid r = Some (get_post_labels (title r)) ->
  is_robot r = false
  /\ (forall start_date end_date posts,
         ~ In r (robot_insert start_date end_date posts))
  /\ (forall s e robot_posts, ~ In r (summary_select s e robot_posts))
  /\ (forall start_date end_date posts r',
         In r' (robot_insert start_date end_date posts) ->
         humanoid r' = Some "optimus" \/ humanoid r' = Some "figure"
         \/ humanoid r' = Some "neo")
  /\ (forall s e robot_posts r',
         In r' (summary_select s e robot_posts) ->
         humanoid r' = Some "optimus" \/ humanoid r' = Some "figure"
         \/ humanoid r' = Some "neo").
Proof.
  intros Hmany Hlabel.
  assert (Hnot : is_robot r = false).
  { unfold is_robot. rewrite Hlabel.
    apply (compound_not_single (lower (title r))); [exact Hmany | reflexivity]. }
  assert (Hsingle : forall r', is_robot r' = true ->
            humanoid r' = Some "optimus" \/ humanoid r' = Some "figure"
            \/ humanoid r' = Some "neo").
  { intros r'. unfold is_robot, single_brand.
    destruct (humanoid r') as [l |]; [| discriminate].
    intros H. apply orb_true_iff in H as [H | H];
      [apply orb_true_iff in H as [H | H] |];
      apply String.eqb_eq in H; subst l; auto. }
  split; [exact Hnot |].
  split.
  { intros sd ed posts Hin. unfold robot_insert in Hin.
    apply filter_In in Hin as [_ Hin]. rewrite Hnot in Hin. discriminate. }
  split.
  { intros s e robot Hin. unfold summary_select in Hin.
    apply filter_In in Hin as [_ Hin]. rewrite Hnot, andb_false_r in Hin.
    discriminate. }
  split.
  { intros sd ed posts r' Hin. apply Hsingle. unfold robot_insert in Hin.
    apply filter_In in Hin as [_ Hin]. apply andb_true_iff in Hin. tauto. }
  { intros s e robot r' Hin. apply Hsingle. unfold summary_select in Hin.
    apply filter_In in Hin as [_ Hin]. apply andb_true_iff in Hin. tauto. }
Qed.

Lemma compound_label_excluded_witness :
  let r := {| post_id := "1cky9b2"; humanoid := Some "optimus-neo";
              subreddit := "robotics";
              title := "Tesla Optimus and 1x Neo robot compared";
              created_utc := 1714953700;
              created_local := "2024-05-06 00:01:40";
              score := 7; n_comments := 1; partition_date := "2024-05-06" |} in
  is_robot r = false
  /\ ~ In r (robot_insert (mkdate 2024 5 6) (mkdate 2024 5 7) [r]).
Proof.
  intros r.
  destruct (compound_label_excluded r ltac:(vm_compute; lia)
              ltac:(vm_compute; reflexivity)) as (H1 & H2 & _).
  split; [exact H1 | apply H2].
Defined.

End PostsTheorems.

(** * The change-detection sensor *)

Section SensorFacts.
Import PyStr Sensor.
Context {mtime : Type} `{EqDecision mtime}.
Variable repr : mtime -> string.
Variable json_load : string -> option jval.

Abbreviation entry := (@dir_entry mtime).
Abbreviation step := (sensor_step repr json_load).
Abbreviation loop := (sensor_loop repr json_load).
Abbreviation sensor := (generate_pdf_reports_sensor repr json_load).
Abbreviation requests_of := (Sensor.requests_of repr json_load).

Lemma sensor_step_ok prev cur runs e cur' runs' :
  step prev (cur, runs) e = Ok (cur', runs') ->
  cur' = observe cur e
  /\ runs' = (runs ++ requests_of prev e)%list
  /\ (is_summary e && changed prev e = true -> is_Some (json_load (body e))).
Proof.
  unfold sensor_step, observe, requests_of.
  destruct (is_summary e); cbn [andb].
  - destruct (changed prev e).
    + destruct (json_load (body e)); [| discriminate].
      intros [= <- <-]. eauto.
    + intros [= <- <-]. rewrite app_nil_r. repeat split. discriminate.
  - intros [= <- <-]. rewrite app_nil_r. repeat split. discriminate.
Qed.

Lemma sensor_loop_ok prev listing : forall cur runs cur' runs',
  loop prev (cur, runs) listing = Ok (cur', runs') ->
  cur' = fold_left observe listing cur
  /\ runs' = (runs ++ flat_map (requests_of prev) listing)%list
  /\ Forall (fun e => is_summary e && changed prev e = true ->
                      is_Some (json_load (body e))) listing.
Proof.
  induction listing as [| e listing IH]; intros cur runs cur' runs'.
  - cbn. intros [= <- <-]. rewrite app_nil_r. auto.
  - cbn [sensor_loop].
    destruct (step prev (cur, runs) e) as [[cur1 runs1] |] eqn:Hs; [| discriminate].
    apply sensor_step_ok in Hs as (-> & -> & Hd).
    intros Hl. apply IH in Hl as (-> & -> & Hall).
    cbn [fold_left flat_map]. rewrite <- app_assoc. auto.
Qed.

Lemma sensor_loop_total prev listing : forall cur runs,
  Forall (fun e => is_summary e && changed prev e = true ->
                   is_Some (json_load (body e))) listing ->
  exists acc, loop prev (cur, runs) listing = Ok acc.
Proof.
  induction listing as [| e listing IH]; intros cur runs Hall.
  - eexists. reflexivity.
  - apply Forall_cons in Hall as [He Hall]. cbn [sensor_loop].
    unfold sensor_step.
    destruct (is_summary e); cbn [andb] in He.
    + destruct (changed prev e).
      * destruct (He eq_refl) as [j ->]. apply IH, Hall.
      * apply IH, Hall.
    + apply IH, Hall.
Qed.

Lemma observe_other (listing : list entry) : forall cur f,
  (forall e, In e listing -> is_summary e = true -> filename e <> f) ->
  fold_left observe listing cur !! f = cur !! f.
Proof.
  induction listing as [| e listing IH]; intros cur f Hne; [reflexivity |].
  cbn [fold_left]. rewrite IH by (intros; apply Hne; [right |]; assumption).
  unfold observe. destruct (is_summary e) eqn:Es; [| reflexivity].
  apply lookup_insert_ne, Hne; [left; reflexivity | exact Es].
Qed.

Lemma observe_listed (listing : list entry) : forall cur e,
  NoDup (List.map filename listing) -> In e listing -> is_summary e = true ->
  fold_left observe listing cur !! filename e = Some (last_modified e).
Proof.
  induction listing as [| e0 listing IH]; intros cur e Hnd Hin Hs; [destruct Hin |].
  cbn [List.map] in Hnd. apply NoDup_cons in Hnd as [Hfresh Hnd].
  cbn [fold_left]. destruct Hin as [-> | Hin].
  - rewrite observe_other.
    + unfold observe. rewrite Hs. apply lookup_insert_eq.
    + intros e' He' _ Heq. apply Hfresh. rewrite <- Heq.
      apply list_elem_of_In, in_map, He'.
  - apply IH; assumption.
Qed.

Lemma observe_cursor (listing : list entry) f m :
  NoDup (List.map filename listing) ->
  fold_left observe listing ∅ !! f = Some m
  <-> exists e, In e listing /\ is_summary e = true
                /\ filename e = f /\ last_modified e = m.
Proof.
  intros Hnd. split.
  - intros Hl.
    destruct (existsb (fun e => is_summary e && String.eqb (filename e) f) listing)
      eqn:Ex.
    + apply existsb_exists in Ex as (e & Hin & He).
      apply andb_true_iff in He as [Hs Hf]. apply String.eqb_eq in Hf. subst f.
      rewrite (observe_listed listing ∅ e Hnd Hin Hs) in Hl.
      injection Hl as <-. eauto.
    + rewrite observe_other in Hl; [rewrite lookup_empty in Hl; discriminate |].
      intros e Hin Hs Hf.
      assert (existsb (fun e => is_summary e && String.eqb (filename e) f) listing
              = true); [| congruence].
      apply existsb_exists. exists e. split; [exact Hin |].
      rewrite Hs. apply String.eqb_eq, Hf.
  - intros (e & Hin & Hs & <- & <-). apply observe_listed; assumption.
Qed.

Lemma requests_of_filename prev (e : entry) rr :
  In rr (requests_of prev e) -> config_filename rr = filename e
  /\ run_key rr = make_run_key repr (filename e) (last_modified e)
  /\ is_summary e = true /\ changed prev e = true.
Proof.
  unfold requests_of.
  destruct (is_summary e); [| intros []]. destruct (changed prev e); [| intros []].
  cbn [andb]. destruct (json_load (body e)); [| intros []].
  intros [<- | []]. auto.
Qed.

Lemma requests_in_loop prev (listing : list entry) rr :
  In rr (flat_map (requests_of prev) listing) ->
  exists e, In e listing /\ is_summary e = true /\ changed prev e = true
            /\ config_filename rr = filename e
            /\ run_key rr = make_run_key repr (filename e) (last_modified e).
Proof.
  intros Hin. apply in_flat_map in Hin as (e & He & Hrr).
  apply requests_of_filename in Hrr as (? & ? & ? & ?). eauto 10.
Qed.

Lemma requests_other prev (listing : list entry) f :
  (forall e, In e listing -> filename e <> f) ->
  List.filter (for_file f) (flat_map (requests_of prev) listing) = [].
Proof.
  intros Hne. induction listing as [| e listing IH]; [reflexivity |].
  cbn [flat_map]. rewrite List.filter_app, IH by (intros; apply Hne; right; assumption).
  rewrite app_nil_r.
  assert (Hall : forall rr, In rr (requests_of prev e) -> for_file f rr = false).
  { intros rr Hrr. apply requests_of_filename in Hrr as (Hf & _).
    unfold for_file. apply String.eqb_neq. rewrite Hf. apply Hne. left. reflexivity. }
  induction (requests_of prev e) as [| rr l IHl]; [reflexivity |].
  cbn. rewrite (Hall rr) by (left; reflexivity).
  apply IHl. intros; apply Hall; right; assumption.
Qed.

Lemma requests_same prev (e : entry) :
  List.filter (for_file (filename e)) (requests_of prev e) = requests_of prev e.
Proof.
  unfold requests_of. destruct (_ && _); [| reflexivity].
  destruct (json_load (body e)); [| reflexivity].
  cbn. unfold for_file. cbn. rewrite String.eqb_refl. reflexivity.
Qed.

Lemma requests_count prev (listing : list entry) e :
  NoDup (List.map filename listing) -> In e listing ->
  List.filter (for_file (filename e)) (flat_map (requests_of prev) listing)
  = requests_of prev e.
Proof.
  induction listing as [| e0 listing IH]; intros Hnd Hin; [destruct Hin |].
  cbn [List.map] in Hnd. apply NoDup_cons in Hnd as [Hfresh Hnd].
  cbn [flat_map]. rewrite List.filter_app. destruct Hin as [-> | Hin].
  - rewrite requests_same, requests_other, app_nil_r; [reflexivity |].
    intros e' He' Heq. apply Hfresh. rewrite <- Heq.
    apply list_elem_of_In, in_map, He'.
  - rewrite IH by assumption.
    pose proof (requests_other prev [e0] (filename e)) as Ho.
    cbn [flat_map] in Ho. rewrite app_nil_r in Ho. rewrite Ho; [reflexivity |].
    intros e' [<- | []] Heq. apply Hfresh. rewrite Heq.
    apply list_elem_of_In, in_map, Hin.
Qed.

Lemma sensor_ok (c : option (gmap string mtime)) (listing : list entry) res :
  sensor c listing = Ok res ->
  cursor res = fold_left observe listing ∅
  /\ run_requests res = flat_map (requests_of (default ∅ c)) listing
  /\ Forall (fun e => is_summary e && changed (default ∅ c) e = true ->
                      is_Some (json_load (body e))) listing.
Proof.
  unfold generate_pdf_reports_sensor.
  destruct (loop (default ∅ c) (∅, []) listing) as [[cur runs] |] eqn:Hl;
    [| discriminate].
  intros [= <-]. apply sensor_loop_ok in Hl as (-> & -> & Hall). auto.
Qed.

Lemma changed_spec (prev : gmap string mtime) (e : entry) :
  changed prev e = true
  <-> prev !! filename e = None
      \/ exists m, prev !! filename e = Some m /\ m <> last_modified e.
Proof.
  unfold changed. destruct (prev !! filename e) as [m |].
  - rewrite negb_true_iff, bool_decide_eq_false. split.
    + intros Hne. right. eauto.
    + intros [Hn | (m' & [= <-] & Hne)]; [discriminate | exact Hne].
  - split; auto.
Qed.

Section Keys.
Hypothesis repr_inj : forall a b, repr a = repr b -> a = b.
Hypothesis repr_plain : forall a, has_char "_" (repr a) = false.

Lemma make_run_key_inj f1 m1 f2 m2 :
  make_run_key repr f1 m1 = make_run_key repr f2 m2 -> f1 = f2 /\ m1 = m2.
Proof.
  unfold make_run_key. intros Heq.
  apply (inj (String.append "generate_pdf_reports_")) in Heq.
  apply split_last_underscore in Heq as [-> Hr]; [| apply repr_plain ..].
  split; [reflexivity | apply repr_inj, Hr].
Qed.

Lemma request_keys_nodup prev (listing : list entry) :
  NoDup (List.map filename listing) ->
  NoDup (List.map run_key (flat_map (requests_of prev) listing)).
Proof.
  induction listing as [| e listing IH]; intros Hnd; [constructor |].
  cbn [List.map] in Hnd. apply NoDup_cons in Hnd as [Hfresh Hnd].
  cbn [flat_map]. rewrite List.map_app. apply NoDup_app. split; [| split].
  - unfold requests_of. destruct (_ && _); [| constructor].
    destruct (json_load (body e)); [| constructor].
    cbn. apply NoDup_singleton.
  - intros k Hk1 Hk2. apply list_elem_of_In in Hk1, Hk2.
    apply in_map_iff in Hk1 as (rr1 & <- & Hrr1).
    apply in_map_iff in Hk2 as (rr2 & Hk & Hrr2).
    apply requests_of_filename in Hrr1 as (_ & Hk1 & _).
    apply requests_in_loop in Hrr2 as (e' & He' & _ & _ & _ & Hk2).
    rewrite Hk1, Hk2 in Hk. apply make_run_key_inj in Hk as [Hf _].
    apply Hfresh. rewrite <- Hf. apply list_elem_of_In, in_map, He'.
  - apply IH, Hnd.
Qed.

End Keys.

(** C7. An evaluation over a listing lists each name once. If it succeeds, a
    listed summary file gives rise to exactly one run request when its name is
    absent from the previous cursor or recorded there with another
    modification time, and to none otherwise; every request comes from such a
    file; and the new cursor is exactly the mapping of the listed summary
    files to their modification times, so a name no longer listed is dropped.
    The evaluation succeeds whenever the changed files decode. *)
Theorem sensor_emits_changed_files (c : option (gmap string mtime))
    (listing : list entry) :
  NoDup (List.map filename listing) ->
  let prev := default ∅ c in
  (Forall (fun e => is_summary e && changed prev e = true ->
                    is_Some (json_load (body e))) listing ->
   exists res, sensor c listing = Ok res)
  /\ forall res, sensor c listing = Ok res ->
       (forall e, In e listing -> is_summary e = true ->
          List.length (List.filter (for_file (filename e)) (run_requests res))
          = (if changed prev e then 1 else 0)%nat
          /\ (changed prev e = true
              <-> prev !! filename e = None
                  \/ exists m, prev !! filename e = Some m
                               /\ m <> last_modified e))
       /\ (forall rr, In rr (run_requests res) ->
             exists e, In e listing /\ is_summary e = true
                       /\ changed prev e = true
                       /\ config_filename rr = filename e
                       /\ run_key rr
                          = make_run_key repr (filename e) (last_modified e))
       /\ (forall f m, cursor res !! f = Some m
                       <-> exists e, In e listing /\ is_summary e = true
                                     /\ filename e = f /\ last_modified e = m)
       /\ (forall f, (forall e, In e listing -> filename e <> f) ->
                     cursor res !! f = None).
Proof.
  intros Hnd prev. split.
  - intros Hall. unfold generate_pdf_reports_sensor. fold prev.
    destruct (sensor_loop_total prev listing ∅ [] Hall) as [[cur runs] ->].
    eauto.
  - intros res Hres. apply sensor_ok in Hres as (Hcur & Hruns & Hall).
    fold prev in Hruns, Hall. rewrite Hcur, Hruns.
    split; [| split; [| split]].
    + intros e Hin Hs. split; [| apply changed_spec].
      rewrite requests_count by assumption.
      rewrite List.Forall_forall in Hall. specialize (Hall e Hin).
      unfold requests_of. rewrite Hs in *. cbn [andb] in *.
      destruct (changed prev e); [| reflexivity].
      destruct (Hall eq_refl) as [j ->]. reflexivity.
    + intros rr Hrr. apply requests_in_loop in Hrr as (e & ? & ? & ? & ? & ?).
      eauto 10.
    + intros f m. apply observe_cursor, Hnd.
    + intros f Hne. rewrite observe_other; [apply lookup_empty |].
      intros e Hin _. apply Hne, Hin.
Qed.

(** C6 (amended). With modification times printed injectively and without an
    underscore, the run requests of one evaluation carry pairwise distinct
    keys, and no key emitted by an evaluation is emitted again by the
    evaluation that follows it. *)
Theorem sensor_keys_distinct (c : option (gmap string mtime))
    (l1 l2 : list entry) r1 r2 :
  (forall a b, repr a = repr b -> a = b) ->
  (forall a, has_char "_" (repr a) = false) ->
  NoDup (List.map filename l1) ->
  NoDup (List.map filename l2) ->
  sensor c l1 = Ok r1 ->
  sensor (Some (cursor r1)) l2 = Ok r2 ->
  NoDup (List.map run_key (run_requests r1))
  /\ NoDup (List.map run_key (run_requests r2))
  /\ forall k, In k (List.map run_key (run_requests r1)) ->
               ~ In k (List.map run_key (run_requests r2)).
Proof.
  intros Hinj Hplain Hnd1 Hnd2 H1 H2.
  apply sensor_ok in H1 as (Hcur1 & Hruns1 & _).
  apply sensor_ok in H2 as (_ & Hruns2 & _).
  change (default ∅ (Some (cursor r1))) with (cursor r1) in Hruns2.
  rewrite Hruns1, Hruns2.
  split; [apply request_keys_nodup; assumption |].
  split; [apply request_keys_nodup; assumption |].
  intros k Hk1 Hk2.
  apply in_map_iff in Hk1 as (rr1 & <- & Hrr1).
  apply in_map_iff in Hk2 as (rr2 & Hk & Hrr2).
  apply requests_in_loop in Hrr1 as (e1 & He1 & Hs1 & _ & _ & Hk1).
  apply requests_in_loop in Hrr2 as (e2 & He2 & _ & Hch & _ & Hk2).
  rewrite Hk1, Hk2 in Hk.
  apply make_run_key_inj in Hk as [Hf Hm]; [| assumption ..].
  assert (Hl : cursor r1 !! filename e2 = Some (last_modified e2)).
  { rewrite Hcur1, Hf, Hm. apply observe_listed; assumption. }
  unfold changed in Hch. rewrite Hl in Hch.
  rewrite bool_decide_eq_true_2 in Hch by reflexivity. discriminate.
Qed.

End SensorFacts.

Section SensorScenarios.
Import PyStr Sensor.
Open Scope Z_scope.

(** C6, as the specification states it, fails: the cursor only remembers the
    last listing, so a file seen at one modification time, rewritten, and
    then restored with its first modification time is emitted a third time,
    under the key of its first emission. *)
Lemma restored_file_repeats_key :
  emitted_keys repr_seconds Scenario.load_empty None Scenario.restored_file
  = [ "generate_pdf_reports_post_summaries_2024-05-06.json_1715000000.0";
      "generate_pdf_reports_post_summaries_2024-05-06.json_1715000500.0";
      "generate_pdf_reports_post_summaries_2024-05-06.json_1715000000.0" ]
  /\ ~ NoDup (emitted_keys repr_seconds Scenario.load_empty None
                Scenario.restored_file).
Proof.
  assert (E : emitted_keys repr_seconds Scenario.load_empty None
                Scenario.restored_file
              = [ "generate_pdf_reports_post_summaries_2024-05-06.json_1715000000.0";
                  "generate_pdf_reports_post_summaries_2024-05-06.json_1715000500.0";
                  "generate_pdf_reports_post_summaries_2024-05-06.json_1715000000.0" ])
    by (vm_compute; reflexivity).
  split; [exact E |]. rewrite E. intros Hnd.
  apply NoDup_cons in Hnd as [Hfresh _]. apply Hfresh.
  right. left.
Qed.

Lemma summaries_dir_nodup m :
  NoDup (List.map filename (Scenario.summaries_dir m)).
Proof. cbn. apply NoDup_singleton. Qed.

Lemma sensor_keys_distinct_witness :
  exists r1 r2,
    generate_pdf_reports_sensor repr_seconds Scenario.load_empty None
      (Scenario.summaries_dir 1715000000) = Ok r1
    /\ generate_pdf_reports_sensor repr_seconds Scenario.load_empty
         (Some (cursor r1)) (Scenario.summaries_dir 1715000500) = Ok r2
    /\ forall k, In k (List.map run_key (run_requests r1)) ->
                 ~ In k (List.map run_key (run_requests r2)).
Proof.
  eexists. eexists.
  split; [vm_compute; reflexivity |].
  split; [vm_compute; reflexivity |].
  eapply (sensor_keys_distinct repr_seconds Scenario.load_empty None
            (Scenario.summaries_dir 1715000000)
            (Scenario.summaries_dir 1715000500)).
  - exact repr_seconds_inj.
  - exact repr_seconds_no_underscore.
  - apply summaries_dir_nodup.
  - apply summaries_dir_nodup.
  - vm_compute; reflexivity.
  - vm_compute; reflexivity.
Defined.

Lemma sensor_emits_changed_files_witness :
  NoDup (List.map filename (Scenario.summaries_dir 1715000500))
  /\ forall res,
       generate_pdf_reports_sensor repr_seconds Scenario.load_empty
         (Some {[ "post_summaries_2024-05-06.json" := 1715000000 ]})
         (Scenario.summaries_dir 1715000500) = Ok res ->
       forall f m,
         cursor res !! f = Some m
         <-> exists e, In e (Scenario.summaries_dir 1715000500)
                       /\ is_summary e = true
                       /\ filename e = f /\ last_modified e = m.
Proof.
  split; [apply summaries_dir_nodup |].
  intros res Hres.
  destruct (sensor_emits_changed_files repr_seconds Scenario.load_empty
              (Some {[ "post_summaries_2024-05-06.json" := 1715000000 ]})
              (Scenario.summaries_dir 1715000500)
              (summaries_dir_nodup 1715000500)) as [_ Hspec].
  destruct (Hspec res Hres) as (_ & _ & Hcur & _). exact Hcur.
Defined.

End SensorScenarios.

(** * The summarization stage *)

Section SummariesFacts.
Import PyStr Calendar Posts Summaries.

Context {mtime : Type}.
Variable summary_file : string -> string.
Variable mktime : datetime -> Z.
Variable submission : string -> nat -> fetch_result.
Variable complete : nat -> string -> outcome string.
Variable json_loads : string -> option jval.
Variable json_dumps : jval -> string.

Abbreviation world := (@Summaries.world mtime).
Abbreviation row_run := (@summarize_row mtime submission complete json_loads).
Abbreviation rows_run := (@summarize_rows mtime submission complete json_loads).
Abbreviation stage :=
  (@summarize_robot_posts mtime summary_file mktime submission complete
     json_loads json_dumps).
Abbreviation selected := (Summaries.selected mktime).
Abbreviation stage_runs :=
  (@Summaries.stage_runs mtime summary_file mktime submission complete
     json_loads json_dumps).

(** One row, by cases on what the forum and the model answer. *)
Lemma summarize_row_cases (row : post_row) (w : world) :
  match fetch_post submission 5 0 (post_id row) with
  | Raise x => row_run row w = (Raise x, w)
  | Ok p =>
      match p_comments p with
      | Raise x => row_run row w = (Raise x, w)
      | Ok comments =>
          let w' := {| files := files w;
                       llm_requests :=
                         (llm_requests w ++ [prompt_of comments])%list |} in
          match complete (List.length (llm_requests w)) (prompt_of comments) with
          | Raise x => row_run row w = (Raise x, w')
          | Ok reply =>
              match json_loads reply with
              | None => row_run row w = (Raise JSONDecodeError, w')
              | Some (JObj d) =>
                  row_run row w = (Ok (dict_update (metadata p row) d), w')
              | Some _ => row_run row w = (Raise TypeError, w')
              end
          end
      end
  end.
Proof.
  unfold summarize_row, mbind, M_bind, bind, lift, summarize_reddit_post,
    raise, ret, prompt_of.
  destruct (fetch_post submission 5 0 (post_id row)) as [p |]; [| reflexivity].
  destruct (p_comments p) as [comments |]; [| reflexivity].
  destruct (complete _ _) as [reply |]; [| reflexivity].
  destruct (json_loads reply) as [[] |]; reflexivity.
Qed.

(** A row never touches the directory and sends at most one request. *)
Lemma summarize_row_world (row : post_row) (w : world) :
  let '(res, w') := row_run row w in
  files w' = files w
  /\ (llm_requests w' = llm_requests w
      \/ exists text, llm_requests w' = (llm_requests w ++ [text])%list)
  /\ (forall s, res = Ok s ->
        exists text, llm_requests w' = (llm_requests w ++ [text])%list).
Proof.
  pose proof (summarize_row_cases row w) as H.
  destruct (fetch_post submission 5 0 (post_id row)) as [p |];
    [| rewrite H; cbn; intuition discriminate].
  destruct (p_comments p) as [comments |];
    [| rewrite H; cbn; intuition discriminate].
  cbv zeta in H.
  destruct (complete _ _) as [reply |];
    [| rewrite H; cbn; split; [reflexivity | split; [eauto | discriminate]]].
  destruct (json_loads reply) as [[] |]; rewrite H; cbn;
    (split; [reflexivity | split; [eauto | intros; eauto; discriminate]]).
Qed.

Lemma summarize_rows_world (rows : list post_row) : forall acc (w : world),
  let '(res, w') := rows_run rows acc w in
  files w' = files w
  /\ (List.length (llm_requests w')
      <= List.length (llm_requests w) + List.length rows)%nat
  /\ (forall all, res = Ok all ->
        List.length all = (List.length acc + List.length rows)%nat
        /\ List.length (llm_requests w')
           = (List.length (llm_requests w) + List.length rows)%nat).
Proof.
  induction rows as [| row rows IH]; intros acc w.
  - cbn. split; [reflexivity |]. split; [lia |]. intros all [= <-]. lia.
  - cbn [summarize_rows]. unfold mbind, M_bind, bind.
    pose proof (summarize_row_world row w) as Hrow.
    destruct (row_run row w) as [[s |] w1].
    + destruct Hrow as (Hf & _ & Hone). destruct (Hone s eq_refl) as [text Hl].
      specialize (IH (acc ++ [s])%list w1).
      destruct (rows_run rows (acc ++ [s])%list w1) as [res w2].
      destruct IH as (Hf2 & Hle & Hok).
      rewrite Hl, length_app in *. cbn [List.length] in *.
      split; [congruence |]. split; [lia |].
      intros all ->. specialize (Hok all eq_refl).
      rewrite length_app in Hok. cbn [List.length] in Hok. lia.
    + destruct Hrow as (Hf & Hl & _). split; [exact Hf |].
      split; [| discriminate].
      destruct Hl as [-> | [text ->]]; rewrite ?length_app; cbn; lia.
Qed.

Lemma summarize_rows_app (pre : list post_row) : forall rest acc all (w w1 : world),
  rows_run pre acc w = (Ok all, w1) ->
  rows_run (pre ++ rest) acc w = rows_run rest all w1.
Proof.
  induction pre as [| row pre IH]; intros rest acc all w w1.
  - cbn. intros [= <- <-]. reflexivity.
  - cbn [summarize_rows app]. unfold mbind, M_bind, bind.
    destruct (row_run row w) as [[s |] w0]; [| discriminate].
    apply IH.
Qed.

(** The stage, once the partition key is parsed. *)
Lemma stage_unfold key now robot_posts d e :
  strptime key = Some d -> add_days d 1 = Some e ->
  stage key now robot_posts
  = let partition_df := summary_select (mktime d) (mktime e) robot_posts in
    if (0 <? List.length partition_df)%nat then
      fun w => match rows_run partition_df [] w with
               | (Ok all, w') =>
                   write_summaries json_dumps now (summary_file key) all w'
               | (Raise x, w') => (Raise x, w')
               end
    else ret tt.
Proof. intros Hd He. unfold summarize_robot_posts. rewrite Hd, He. reflexivity. Qed.

(** What a run of the stage can do to the world. *)
Lemma stage_world key now robot_posts (w : world) res w' :
  stage key now robot_posts w = (res, w') ->
  match res with
  | Raise _ => files w' = files w
  | Ok _ =>
      w' = w
      \/ exists d e all,
           strptime key = Some d /\ add_days d 1 = Some e
           /\ summary_select (mktime d) (mktime e) robot_posts <> []
           /\ files w'
              = <[summary_file key
                  := mkFile now (json_dumps (JArr (List.map JObj all)))]> (files w)
           /\ List.length all
              = List.length (summary_select (mktime d) (mktime e) robot_posts)
           /\ List.length (llm_requests w')
              = (List.length (llm_requests w)
                 + List.length (summary_select (mktime d) (mktime e) robot_posts))%nat
  end.
Proof.
  destruct (strptime key) as [d |] eqn:Hd;
    [| unfold summarize_robot_posts; rewrite Hd; intros [= <- <-]; reflexivity].
  destruct (add_days d 1) as [e |] eqn:He;
    [| unfold summarize_robot_posts; rewrite Hd, He; intros [= <- <-]; reflexivity].
  rewrite (stage_unfold key now robot_posts d e Hd He). cbv zeta.
  set (df := summary_select (mktime d) (mktime e) robot_posts).
  destruct (0 <? List.length df)%nat eqn:Hnz.
  - pose proof (summarize_rows_world df [] w) as Hrows.
    destruct (rows_run df [] w) as [[all |] w1].
    + destruct Hrows as (Hf & _ & Hok). destruct (Hok all eq_refl) as [Hlen Hreq].
      unfold write_summaries. intros [= <- <-]. right.
      exists d, e, all. cbn [files llm_requests].
      repeat split; try assumption.
      * intros Hnil. fold df in Hnil. rewrite Hnil in Hnz. discriminate.
      * rewrite Hf. reflexivity.
    + destruct Hrows as (Hf & _). intros [= <- <-]. exact Hf.
  - intros [= <- <-]. left. reflexivity.
Qed.

(** C8. A run of the summarization stage that raises leaves the summaries
    directory as it was; a run that returns has either found no post, or
    written one file holding one record per selected post after one request
    per post. In particular, when the reply for a post does not decode, the
    run raises at once: the directory is unchanged, and the requests sent are
    those of the posts before it and a single one for that post. *)
Theorem summaries_all_or_nothing key now robot_posts (w : world) :
  (forall res w',
      stage key now robot_posts w = (res, w') ->
      match res with
      | Raise _ => files w' = files w
      | Ok _ =>
          w' = w
          \/ exists d e all,
               strptime key = Some d /\ add_days d 1 = Some e
               /\ summary_select (mktime d) (mktime e) robot_posts <> []
               /\ files w'
                  = <[summary_file key
                      := mkFile now (json_dumps (JArr (List.map JObj all)))]>
                      (files w)
               /\ List.length all
                  = List.length (summary_select (mktime d) (mktime e) robot_posts)
               /\ List.length (llm_requests w')
                  = (List.length (llm_requests w)
                     + List.length
                         (summary_select (mktime d) (mktime e) robot_posts))%nat
      end)
  /\ (forall d e pre row post all w1 p comments reply,
         strptime key = Some d -> add_days d 1 = Some e ->
         summary_select (mktime d) (mktime e) robot_posts = (pre ++ row :: post)%list ->
         rows_run pre [] w = (Ok all, w1) ->
         fetch_post submission 5 0 (post_id row) = Ok p ->
         p_comments p = Ok comments ->
         complete (List.length (llm_requests w1)) (prompt_of comments) = Ok reply ->
         json_loads reply = None ->
         exists w',
           stage key now robot_posts w = (Raise JSONDecodeError, w')
           /\ files w' = files w
           /\ llm_requests w' = (llm_requests w1 ++ [prompt_of comments])%list).
Proof.
  split; [intros res w'; apply stage_world |].
  intros d e pre row post all w1 p comments reply Hd He Hdf Hpre Hp Hc Hr Hj.
  rewrite (stage_unfold key now robot_posts d e Hd He). cbv zeta.
  rewrite Hdf.
  replace (0 <? List.length (pre ++ row :: post))%nat with true
    by (symmetry; apply Nat.ltb_lt; rewrite length_app; cbn [List.length]; lia).
  rewrite (summarize_rows_app pre (row :: post) [] all w w1 Hpre).
  cbn [summarize_rows]. unfold mbind, M_bind, bind.
  pose proof (summarize_row_cases row w1) as Hrow.
  rewrite Hp, Hc in Hrow. cbv zeta in Hrow. rewrite Hr, Hj in Hrow.
  rewrite Hrow. eexists. split; [reflexivity |].
  cbn [files llm_requests]. split; [| reflexivity].
  pose proof (summarize_rows_world pre [] w) as Hw. rewrite Hpre in Hw.
  apply Hw.
Qed.

Lemma stage_other_file key now robot_posts (w : world) f :
  (summary_file key = f -> selected key robot_posts = []) ->
  files (snd (stage key now robot_posts w)) !! f = files w !! f.
Proof.
  intros Hsel.
  destruct (stage key now robot_posts w) as [res w'] eqn:Hrun.
  apply stage_world in Hrun. cbn [snd]. destruct res as [[] | x].
  - destruct Hrun as [-> | (d & e & all & Hd & He & Hne & Hf & _)];
      [reflexivity |].
    rewrite Hf. apply lookup_insert_ne. intros Heq.
    specialize (Hsel Heq). unfold selected in Hsel. rewrite Hd, He in Hsel.
    contradiction.
  - rewrite Hrun. reflexivity.
Qed.

Lemma stage_runs_other_file history : forall (w : world) f,
  Forall (fun run => summary_file run.1.1 = f -> selected run.1.1 run.2 = [])
    history ->
  files (stage_runs history w) !! f = files w !! f.
Proof.
  induction history as [| run history IH]; intros w f Hall; [reflexivity |].
  apply Forall_cons in Hall as [Hrun Hall].
  change (files (stage_runs history (snd (stage run.1.1 run.1.2 run.2 w))) !! f
          = files w !! f).
  rewrite IH by exact Hall. apply stage_other_file, Hrun.
Qed.

(** C10. A run of the stage over a partition whose query returns no row
    returns without sending a request to the language model and without
    writing: the world is unchanged. So after any history of runs in which
    every run for this key found no row, a directory that held no file of
    this key still holds none, and a successful sensor evaluation over a
    listing of it emits no run request for that file. *)
Theorem no_robot_posts_no_output key now robot_posts (w : world) d e :
  strptime key = Some d -> add_days d 1 = Some e ->
  summary_select (mktime d) (mktime e) robot_posts = [] ->
  stage key now robot_posts w = (Ok tt, w)
  /\ forall history (w0 : world),
       (forall k, summary_file k = summary_file key -> k = key) ->
       files w0 !! summary_file key = None ->
       Forall (fun run => run.1.1 = key -> selected run.1.1 run.2 = []) history ->
       files (stage_runs history w0) !! summary_file key = None
       /\ forall (dec : EqDecision mtime) repr json_load cursor listing res,
            Sensor.lists_store (files (stage_runs history w0)) listing ->
            Sensor.generate_pdf_reports_sensor repr json_load cursor listing
            = Ok res ->
            forall rr, In rr (Sensor.run_requests res) ->
                       Sensor.config_filename rr <> summary_file key.
Proof.
  intros Hd He Hsel. split.
  - rewrite (stage_unfold key now robot_posts d e Hd He). cbv zeta.
    rewrite Hsel. reflexivity.
  - intros history w0 Hinj Hnone Hall.
    assert (Hfile : files (stage_runs history w0) !! summary_file key = None).
    { rewrite stage_runs_other_file; [exact Hnone |].
      eapply Forall_impl; [exact Hall |]. intros run Hrun Hname.
      apply Hrun, Hinj, Hname. }
    split; [exact Hfile |].
    intros dec repr json_load cursor listing res Hlist Hres rr Hrr Hname.
    apply sensor_ok in Hres as (_ & Hruns & _). rewrite Hruns in Hrr.
    apply requests_in_loop in Hrr as (e0 & Hin & Hs & _ & Hf & _).
    unfold Sensor.lists_store in Hlist. rewrite List.Forall_forall in Hlist.
    unfold Sensor.is_summary in Hs. apply andb_true_iff in Hs as [_ Hisf].
    specialize (Hlist e0 Hin Hisf).
    rewrite <- Hf, Hname, Hfile in Hlist. discriminate.
Qed.

End SummariesFacts.

Section SummariesScenarios.
Import Calendar Posts Summaries.
Open Scope Z_scope.

Lemma summaries_all_or_nothing_witness :
  exists w',
    Scenario.summarize "2024-05-06" 1715000000 [Scenario.robot_row]
      Scenario.empty_world
    = (Raise JSONDecodeError, w')
    /\ files w' = files Scenario.empty_world
    /\ llm_requests w'
       = ["- Impressive hands (Score: 4, Author: [deleted])"].
Proof.
  destruct (summaries_all_or_nothing Scenario.summary_name (mktime_fixed 0)
              Scenario.forum_submission Scenario.model_garbled
              Scenario.loads_object Scenario.dumps_any
              "2024-05-06" 1715000000 [Scenario.robot_row] Scenario.empty_world)
    as [_ Hbad].
  apply (Hbad (mkdate 2024 5 6) (mkdate 2024 5 7) [] Scenario.robot_row []
           [] Scenario.empty_world Scenario.forum_post
           [ {| c_body := "Impressive hands"; c_score := 4; c_author := None |} ]
           "Sorry, I cannot help with that.");
    vm_compute; reflexivity.
Defined.

Lemma no_robot_posts_no_output_witness :
  Scenario.summarize "2024-05-06" 1715000000 [] Scenario.empty_world
  = (Ok tt, Scenario.empty_world).
Proof.
  apply (no_robot_posts_no_output Scenario.summary_name (mktime_fixed 0)
           Scenario.forum_submission Scenario.model_garbled
           Scenario.loads_object Scenario.dumps_any
           "2024-05-06" 1715000000 [] Scenario.empty_world
           (mkdate 2024 5 6) (mkdate 2024 5 7));
    vm_compute; reflexivity.
Defined.

End SummariesScenarios.

(** * The weekly aggregator *)

Section MetricsFacts.
Import Calendar Posts Metrics.
Open Scope Z_scope.

Lemma nodupz_NoDup (l : list Z) : nodupz l = true <-> NoDup l.
Proof.
  induction l as [| x l IH]; cbn [nodupz].
  - split; [constructor | reflexivity].
  - rewrite andb_true_iff, negb_true_iff, NoDup_cons, IH.
    assert (existsb (Z.eqb x) l = false <-> x ∉ l) as ->; [| reflexivity].
    rewrite <- not_true_iff_false, existsb_exists, list_elem_of_In.
    split; intros Hn Hin; apply Hn.
    + exists x. split; [exact Hin | apply Z.eqb_refl].
    + destruct Hin as (y & Hy & Heq). apply Z.eqb_eq in Heq. subst y. exact Hy.
Qed.

(** The rows the grouped SELECT produces, apart from their keys. *)
Lemma number_groups_payload s rows keys : forall n m,
  List.map payload (number_groups s rows n keys)
  = List.map payload (number_groups s rows m keys).
Proof.
  induction keys as [| l keys IH]; intros n m; [reflexivity |].
  cbn [number_groups List.map]. f_equal. apply IH.
Qed.

Lemma number_groups_length s rows keys : forall n,
  List.length (number_groups s rows n keys) = List.length keys.
Proof.
  induction keys as [| l keys IH]; intros n; [reflexivity |].
  cbn [number_groups List.length]. rewrite IH. reflexivity.
Qed.

Lemma number_groups_ids s rows keys : forall n,
  List.map id (number_groups s rows n keys)
  = List.map (fun k => n + Z.of_nat k) (seq 0 (List.length keys)).
Proof.
  induction keys as [| l keys IH]; intros n; [reflexivity |].
  cbn [number_groups List.map List.length seq]. f_equal; [cbn; lia |].
  rewrite IH, <- seq_shift, List.map_map. apply List.map_ext. intros k. lia.
Qed.

Lemma number_groups_range s rows keys n r :
  In r (number_groups s rows n keys) ->
  n <= id r < n + Z.of_nat (List.length keys) /\ w_partition_date r = s.
Proof.
  revert n. induction keys as [| l keys IH]; intros n; [intros [] |].
  cbn [number_groups List.length]. intros [<- | Hin].
  - cbn [group_row id w_partition_date]. split; [lia | reflexivity].
  - apply IH in Hin as [Hid Hs]. split; [lia | exact Hs].
Qed.

Lemma number_groups_nodup s rows keys n :
  NoDup (List.map id (number_groups s rows n keys)).
Proof.
  revert n. induction keys as [| l keys IH]; intros n; [constructor |].
  cbn [number_groups List.map]. apply NoDup_cons. split; [| apply IH].
  intros Hin. apply list_elem_of_In, in_map_iff in Hin as (r & Hid & Hr).
  apply number_groups_range in Hr. cbn in Hid. lia.
Qed.

Lemma delete_weekly_week s e t :
  String.ltb s e = true ->
  List.filter (fun r => String.eqb (w_partition_date r) s) (delete_weekly s e t) = [].
Proof.
  intros Hlt. unfold delete_weekly. induction t as [| r t IH]; [reflexivity |].
  cbn [List.filter].
  destruct (negb _) eqn:Ekeep; [| exact IH].
  cbn [List.filter]. rewrite IH.
  destruct (String.eqb_spec (w_partition_date r) s) as [Heq |]; [| reflexivity].
  rewrite Heq, leb_refl, Hlt in Ekeep. discriminate.
Qed.

Lemma week_filter_new s rows n keys :
  List.filter (fun r => String.eqb (w_partition_date r) s)
    (number_groups s rows n keys)
  = number_groups s rows n keys.
Proof.
  apply forallb_filter_id. apply forallb_forall. intros r Hr.
  apply number_groups_range in Hr as [_ ->]. apply String.eqb_refl.
Qed.

Lemma delete_weekly_incl s e t r : In r (delete_weekly s e t) -> In r t.
Proof. unfold delete_weekly. intros Hr. apply filter_In in Hr. tauto. Qed.

Lemma delete_weekly_nodup s e t :
  NoDup (List.map id t) -> NoDup (List.map id (delete_weekly s e t)).
Proof.
  unfold delete_weekly. induction t as [| r t IH]; intros Hnd; [constructor |].
  cbn [List.map] in Hnd. apply NoDup_cons in Hnd as [Hfresh Hnd].
  cbn [List.filter]. destruct (negb _); [| apply IH, Hnd].
  cbn [List.map]. apply NoDup_cons. split; [| apply IH, Hnd].
  intros Hin. apply Hfresh.
  apply list_elem_of_In, in_map_iff in Hin as (r' & Hid & Hr').
  apply filter_In in Hr' as [Hr' _].
  apply list_elem_of_In, in_map_iff. eauto.
Qed.

Lemma fresh_rows_range s rows next r :
  In r (fresh_rows s rows next) ->
  next <= id r < next + Z.of_nat (List.length (fresh_rows s rows next))
  /\ w_partition_date r = s.
Proof.
  unfold fresh_rows. rewrite number_groups_length. apply number_groups_range.
Qed.

(** One run of the statements on a well-keyed store, for a week whose two
    bounds print in order. *)
Lemma run_queries_ok s e ts te posts next t :
  String.ltb s e = true ->
  NoDup (List.map id t) -> Forall (fun r => id r < next) t ->
  let new_rows := fresh_rows s (rows_in_window ts te posts) next in
  let t' := (delete_weekly s e t ++ new_rows)%list in
  let next' := next + Z.of_nat (List.length new_rows) in
  run_queries s e ts te posts
    {| seq_weekly_id := Some next; weekly_post_metrics := Some t |}
  = ({| seq_weekly_id := Some next'; weekly_post_metrics := Some t' |},
     Ok (List.map (fun r => (w_humanoid r, n_posts r, avg_score r, avg_comments r))
           new_rows))
  /\ NoDup (List.map id t')
  /\ Forall (fun r => id r < next') t'
  /\ List.filter (fun r => String.eqb (w_partition_date r) s) t' = new_rows.
Proof.
  intros Hord Hnd Hbelow new_rows t' next'.
  assert (Hweek : List.filter (fun r => String.eqb (w_partition_date r) s) t'
                  = new_rows).
  { unfold t'. rewrite List.filter_app, (delete_weekly_week s e t Hord).
    apply week_filter_new. }
  assert (Hnd' : NoDup (List.map id t')).
  { unfold t'. rewrite List.map_app. apply NoDup_app. split; [| split].
    - apply delete_weekly_nodup, Hnd.
    - intros k Hk1 Hk2.
      apply list_elem_of_In, in_map_iff in Hk1 as (r1 & <- & Hr1).
      apply list_elem_of_In, in_map_iff in Hk2 as (r2 & Hid & Hr2).
      apply delete_weekly_incl in Hr1. rewrite List.Forall_forall in Hbelow.
      specialize (Hbelow r1 Hr1). apply fresh_rows_range in Hr2. lia.
    - apply number_groups_nodup. }
  split; [| split; [exact Hnd' | split; [| exact Hweek]]].
  - unfold run_queries.
    change (default 1 (seq_weekly_id {| seq_weekly_id := Some next;
                                        weekly_post_metrics := Some t |}))
      with next.
    change (default [] (weekly_post_metrics {| seq_weekly_id := Some next;
                                               weekly_post_metrics := Some t |}))
      with t.
    cbv zeta. fold (fresh_rows s (rows_in_window ts te posts) next).
    fold new_rows. fold t'. fold next'.
    rewrite (proj2 (nodupz_NoDup _) Hnd').
    unfold select_weekly. rewrite Hweek. reflexivity.
  - unfold t'. apply Forall_app. split; apply List.Forall_forall; intros r Hr.
    + apply delete_weekly_incl in Hr. rewrite List.Forall_forall in Hbelow.
      specialize (Hbelow r Hr). unfold next'. lia.
    + apply fresh_rows_range in Hr. unfold next'. fold new_rows in Hr. lia.
Qed.

Lemma run_queries_default s e ts te posts st :
  run_queries s e ts te posts st
  = run_queries s e ts te posts
      {| seq_weekly_id := Some (default 1 (seq_weekly_id st));
         weekly_post_metrics := Some (default [] (weekly_post_metrics st)) |}.
Proof. destruct st as [[n |] [t |]]; reflexivity. Qed.

Section Runs.
Variable mktime : datetime -> Z.

Abbreviation aggregate := (aggregate_posts_by_category_and_week mktime).

Lemma week_strings_ordered key d :
  strptime key = Some d -> toordinal d < MAXORDINAL ->
  String.ltb (strftime_ymd (monday_of d)) (strftime_ymd (morrow_of d)) = true.
Proof.
  intros Hk Hlt. unfold monday_of, morrow_of.
  pose proof (strptime_ordinal key d Hk) as Ho.
  pose proof (weekday_range d) as Hw.
  pose proof (monday_ordinal (toordinal d) (proj1 Ho)) as [Hm _].
  fold (weekday d) in Hm.
  assert (H1 : 1 <= toordinal d - weekday d <= MAXORDINAL) by lia.
  assert (H2 : 1 <= toordinal d + 1 <= MAXORDINAL) by lia.
  apply strftime_lt.
  - apply ord2ymd_valid, H1.
  - apply ord2ymd_valid, H2.
  - destruct (ord2ymd_spec (toordinal d - weekday d) (proj1 H1)) as [-> _].
    destruct (ord2ymd_spec (toordinal d + 1) (proj1 H2)) as [-> _]. lia.
Qed.

Lemma aggregate_unfold key posts st d :
  strptime key = Some d -> toordinal d < MAXORDINAL ->
  aggregate key posts st
  = run_queries (strftime_ymd (monday_of d)) (strftime_ymd (morrow_of d))
      (mktime (monday_of d)) (mktime (morrow_of d)) posts st.
Proof.
  intros Hk Hlt. unfold aggregate_posts_by_category_and_week. rewrite Hk.
  pose proof (strptime_ordinal key d Hk) as Ho.
  pose proof (weekday_range d) as Hw.
  pose proof (monday_ordinal (toordinal d) (proj1 Ho)) as [Hm _].
  fold (weekday d) in Hm.
  assert (H1 : 1 <= toordinal d + - weekday d <= MAXORDINAL) by lia.
  assert (H2 : 1 <= toordinal d + 1 <= MAXORDINAL) by lia.
  rewrite (add_days_in_range d (- weekday d) H1), (add_days_in_range d 1 H2).
  unfold monday_of, morrow_of.
  replace (toordinal d + - weekday d) with (toordinal d - weekday d) by lia.
  reflexivity.
Qed.

(** C5 (amended). Run twice in succession for one partition key over the
    same posts, from a store whose keys are distinct and below the next value
    of the sequence, the aggregator succeeds both times and returns the same
    selected columns; the rows stored for the week agree in every column
    except the surrogate key [id], which the second run draws afresh from the
    sequence, above every key of the first run. *)
Theorem weekly_recompute_same_payload key posts st d :
  strptime key = Some d ->
  toordinal d < MAXORDINAL ->
  well_keyed st ->
  exists st1 st2 sel,
    aggregate key posts st = (st1, Ok sel)
    /\ aggregate key posts st1 = (st2, Ok sel)
    /\ List.map payload (week_rows (strftime_ymd (monday_of d)) st2)
       = List.map payload (week_rows (strftime_ymd (monday_of d)) st1)
    /\ (forall r1 r2,
           In r1 (week_rows (strftime_ymd (monday_of d)) st1) ->
           In r2 (week_rows (strftime_ymd (monday_of d)) st2) ->
           id r1 < id r2)
    /\ well_keyed st2.
Proof.
  intros Hk Hlt [Hnd Hbelow].
  pose proof (week_strings_ordered key d Hk Hlt) as Hord.
  set (s := strftime_ymd (monday_of d)) in *.
  set (e := strftime_ymd (morrow_of d)) in *.
  set (rows := rows_in_window (mktime (monday_of d)) (mktime (morrow_of d)) posts).
  set (next := default 1 (seq_weekly_id st)) in *.
  set (t := default [] (weekly_post_metrics st)) in *.
  destruct (run_queries_ok s e (mktime (monday_of d)) (mktime (morrow_of d))
              posts next t Hord Hnd Hbelow) as (Hrun1 & Hnd1 & Hbelow1 & Hweek1).
  fold rows in Hrun1, Hnd1, Hbelow1, Hweek1.
  set (new1 := fresh_rows s rows next) in *.
  set (t1 := (delete_weekly s e t ++ new1)%list) in *.
  set (next1 := next + Z.of_nat (List.length new1)) in *.
  destruct (run_queries_ok s e (mktime (monday_of d)) (mktime (morrow_of d))
              posts next1 t1 Hord Hnd1 Hbelow1) as (Hrun2 & Hnd2 & Hbelow2 & Hweek2).
  fold rows in Hrun2, Hnd2, Hbelow2, Hweek2.
  set (new2 := fresh_rows s rows next1) in *.
  assert (Hpay : List.map payload new2 = List.map payload new1)
    by apply number_groups_payload.
  exists {| seq_weekly_id := Some next1; weekly_post_metrics := Some t1 |}.
  eexists. eexists.
  split.
  { rewrite (aggregate_unfold key posts st d Hk Hlt), run_queries_default.
    fold s e next t. exact Hrun1. }
  split.
  { rewrite (aggregate_unfold key posts _ d Hk Hlt). fold s e. rewrite Hrun2.
    f_equal. f_equal.
    change (fun r : weekly_row => (w_humanoid r, n_posts r, avg_score r, avg_comments r))
      with (fun r : weekly_row => (payload r).1).
    rewrite <- !(List.map_map payload fst). f_equal. exact Hpay. }
  unfold week_rows.
  change (default [] (weekly_post_metrics
            {| seq_weekly_id := Some next1; weekly_post_metrics := Some t1 |}))
    with t1.
  match goal with
  | |- context [default [] (weekly_post_metrics
                 {| seq_weekly_id := ?n; weekly_post_metrics := Some ?x |})] =>
      change (default [] (weekly_post_metrics
                {| seq_weekly_id := n; weekly_post_metrics := Some x |}))
        with x
  end.
  fold s. rewrite Hweek1, Hweek2.
  split; [exact Hpay |]. split; [| split; [exact Hnd2 | exact Hbelow2]].
  intros r1 r2 Hr1 Hr2.
  apply fresh_rows_range in Hr1 as [Hr1 _]. apply fresh_rows_range in Hr2 as [Hr2 _].
  fold new1 in Hr1. unfold next1 in Hr2. lia.
Qed.

End Runs.

End MetricsFacts.

Section MetricsScenarios.
Import Calendar Posts Metrics.
Open Scope Z_scope.

(** C5, as the specification states it, fails: the rows of the second run
    carry new surrogate keys, so they are not identical to those of the
    first. *)
Lemma weekly_rows_get_new_ids :
  let st1 := (Scenario.aggregate empty_store).1 in
  let st2 := (Scenario.aggregate st1).1 in
  week_rows "2024-05-06" st1
  = [ mkWeekly 1 (Some "figure") 2 850 350 "2024-05-06";
      mkWeekly 2 (Some "optimus-neo") 1 700 100 "2024-05-06" ]
  /\ week_rows "2024-05-06" st2
     = [ mkWeekly 3 (Some "figure") 2 850 350 "2024-05-06";
         mkWeekly 4 (Some "optimus-neo") 1 700 100 "2024-05-06" ]
  /\ week_rows "2024-05-06" st1 <> week_rows "2024-05-06" st2.
Proof.
  cbv zeta.
  assert (E1 : week_rows "2024-05-06" (Scenario.aggregate empty_store).1
               = [ mkWeekly 1 (Some "figure") 2 850 350 "2024-05-06";
                   mkWeekly 2 (Some "optimus-neo") 1 700 100 "2024-05-06" ])
    by (vm_compute; reflexivity).
  assert (E2 : week_rows "2024-05-06"
                 (Scenario.aggregate (Scenario.aggregate empty_store).1).1
               = [ mkWeekly 3 (Some "figure") 2 850 350 "2024-05-06";
                   mkWeekly 4 (Some "optimus-neo") 1 700 100 "2024-05-06" ])
    by (vm_compute; reflexivity).
  rewrite E1, E2. repeat split. discriminate.
Qed.

Lemma weekly_recompute_same_payload_witness :
  exists st1 st2 sel,
    Scenario.aggregate empty_store = (st1, Ok sel)
    /\ Scenario.aggregate st1 = (st2, Ok sel)
    /\ List.map payload (week_rows (strftime_ymd (monday_of (mkdate 2024 5 6))) st2)
       = List.map payload (week_rows (strftime_ymd (monday_of (mkdate 2024 5 6))) st1).
Proof.
  destruct (weekly_recompute_same_payload (mktime_fixed 0) "2024-05-06"
              Scenario.classified_posts empty_store (mkdate 2024 5 6)
              eq_refl ltac:(vm_compute; reflexivity)
              ltac:(split; constructor))
    as (st1 & st2 & sel & H1 & H2 & H3 & _).
  exists st1, st2, sel. auto.
Defined.

End MetricsScenarios.

(** * Further properties of the classification *)

Section SubstringFacts.
Import PyStr Classify.

Lemma append_assoc (a b c : string) : (a ++ b) ++ c = a ++ b ++ c.
Proof.
  induction a as [| x a IH]; [reflexivity |].
  rewrite !append_cons, IH. reflexivity.
Qed.

Lemma prefix_spec (a s : string) :
  String.prefix a s = true <-> exists rest, s = a ++ rest.
Proof.
  revert s. induction a as [| x a IH]; intros s.
  - split; [intros _; exists s; reflexivity | intros _; destruct s; reflexivity].
  - destruct s as [| y s].
    + split; [discriminate | intros [rest H]; rewrite append_cons in H; discriminate].
    + cbn [String.prefix]. destruct (ascii_dec x y) as [-> | Hne].
      * rewrite IH. split; intros [rest H]; exists rest.
        -- rewrite append_cons, H. reflexivity.
        -- rewrite append_cons in H. injection H as ->. reflexivity.
      * split; [discriminate |].
        intros [rest H]. rewrite append_cons in H. congruence.
Qed.

(** [str_in] is Python's [in]: an occurrence at some offset. *)
Lemma str_in_spec (sub s : string) :
  str_in sub s = true <-> exists pre post, s = pre ++ sub ++ post.
Proof.
  induction s as [| c s IH].
  - cbn [str_in]. rewrite orb_false_r, prefix_spec. split.
    + intros [rest H]. exists EmptyString, rest. exact H.
    + intros (pre & post & H). destruct pre; [exists post; exact H |].
      rewrite append_cons in H. discriminate.
  - cbn [str_in]. rewrite orb_true_iff, prefix_spec, IH. split.
    + intros [[rest H] | (pre & post & H)].
      * exists EmptyString, rest. exact H.
      * exists (String c pre), post. rewrite append_cons, H. reflexivity.
    + intros (pre & post & H). destruct pre as [| x pre].
      * left. exists post. exact H.
      * right. rewrite append_cons in H. injection H as -> ->. eauto.
Qed.

Lemma str_in_trans (a b c : string) :
  str_in a b = true -> str_in b c = true -> str_in a c = true.
Proof.
  rewrite !str_in_spec. intros (p1 & q1 & ->) (p2 & q2 & ->).
  exists (p2 ++ p1), (q1 ++ q2). rewrite !append_assoc. reflexivity.
Qed.


(** X1. The label of a title is one of nine values: [none], [other], a brand,
    or brands joined in the order optimus, figure, neo. It is [none] exactly
    when no rule matches and "humanoid" does not occur in the lower-cased
    title, and [other] exactly when no rule matches and it does. *)
Theorem get_post_labels_range (title : string) :
  In (get_post_labels title)
    ["none"; "other"; "optimus"; "figure"; "neo"; "optimus-figure";
     "optimus-neo"; "figure-neo"; "optimus-figure-neo"]
  /\ (get_post_labels title = "none"
      <-> brand_optimus (lower title) = false
          /\ brand_figure (lower title) = false
          /\ brand_neo (lower title) = false
          /\ str_in "humanoid" (lower title) = false)
  /\ (get_post_labels title = "other"
      <-> brand_optimus (lower title) = false
          /\ brand_figure (lower title) = false
          /\ brand_neo (lower title) = false
          /\ str_in "humanoid" (lower title) = true).
Proof.
  rewrite get_post_labels_cases.
  destruct (brand_optimus (lower title)), (brand_figure (lower title)),
    (brand_neo (lower title)), (str_in "humanoid" (lower title));
    (split; [cbn; tauto |]); split; split;
    first [ discriminate | intros (? & ? & ? & ?); discriminate | intros _; auto ].
Qed.

(** X2. A title that contains one of the exclusion phrases ("to figure",
    "figure out", "figure it out") is never attributed to [figure], alone or
    in a compound label. *)
Theorem exclusion_phrase_blocks_figure (title : string) :
  any_in exclusion_patterns (lower title) = true ->
  brand_figure (lower title) = false
  /\ In (get_post_labels title) ["none"; "other"; "optimus"; "neo"; "optimus-neo"].
Proof.
  intros Hex.
  assert (Hf : brand_figure (lower title) = false).
  { unfold brand_figure. rewrite Hex. apply andb_false_r. }
  split; [exact Hf |]. rewrite get_post_labels_cases, Hf.
  destruct (brand_optimus (lower title)), (brand_neo (lower title)),
    (str_in "humanoid" (lower title)); cbn; tauto.
Qed.

Lemma exclusion_phrase_blocks_figure_witness :
  brand_figure (lower "Try to figure out the Figure 02 robot") = false
  /\ In (get_post_labels "Try to figure out the Figure 02 robot")
       ["none"; "other"; "optimus"; "neo"; "optimus-neo"].
Proof.
  apply exclusion_phrase_blocks_figure. vm_compute. reflexivity.
Defined.

(** X3. Keywords match as substrings, and "bot" occurs in "robot": the
    keyword "robot" never decides a rule. Each brand rule gives the same
    answer with "robot" struck from its keyword list. *)
Theorem robot_keyword_redundant (t : string) :
  robot_matches t "optimus" ["bot"; "humanoid"]
  = robot_matches t "optimus" ["robot"; "bot"; "humanoid"]
  /\ robot_matches t "figure" ["01"; "02"; "03"; "humanoid"; "bot"]
     = robot_matches t "figure" ["01"; "02"; "03"; "humanoid"; "robot"; "bot"]
  /\ robot_matches t "neo" ["1x"; "humanoid"; "bot"]
     = robot_matches t "neo" ["1x"; "humanoid"; "robot"; "bot"].
Proof.
  assert (Hbot : str_in "robot" t = true -> str_in "bot" t = true).
  { apply str_in_trans. vm_compute. reflexivity. }
  unfold robot_matches, any_in. cbn [String.eqb Ascii.eqb Bool.eqb existsb].
  destruct (str_in "robot" t);
    [rewrite (Hbot eq_refl) |];
    repeat split; rewrite ?orb_true_r, ?orb_false_r, ?orb_false_l; reflexivity.
Qed.

End SubstringFacts.

(** * Groups of the weekly aggregation *)

Section GroupFacts.
Import PyStr Classify Calendar Posts Metrics Plot.
Open Scope Z_scope.

Lemma label_eqb_eq a b : label_eqb a b = true <-> a = b.
Proof.
  destruct a as [x |], b as [y |]; cbn; try (split; congruence).
  rewrite String.eqb_eq. split; congruence.
Qed.

Lemma label_eqb_refl a : label_eqb a a = true.
Proof. apply label_eqb_eq. reflexivity. Qed.

Lemma group_keys_In l ls : In l (group_keys ls) <-> In l ls.
Proof.
  induction ls as [| x ls IH]; [reflexivity |].
  cbn [group_keys]. cbn [In]. rewrite filter_In, IH, negb_true_iff.
  destruct (label_eqb x l) eqn:E.
  - apply label_eqb_eq in E. subst. intuition discriminate.
  - assert (x <> l) by (intros ->; rewrite label_eqb_refl in E; discriminate).
    tauto.
Qed.

Lemma group_keys_NoDup ls : NoDup (group_keys ls).
Proof.
  induction ls as [| x ls IH]; [constructor |].
  cbn [group_keys]. apply NoDup_cons. split.
  - rewrite list_elem_of_In, filter_In, negb_true_iff, label_eqb_refl.
    intros [_ H]. discriminate.
  - apply NoDup_ListNoDup, List.NoDup_filter, NoDup_ListNoDup, IH.
Qed.

(** Summing over distinct keys the terms selected by one key picks its term. *)
Lemma sum_select (f : option string -> Z) x keys :
  NoDup keys -> In x keys ->
  fold_right Z.add 0 (List.map (fun l => if label_eqb l x then f l else 0) keys)
  = f x.
Proof.
  induction keys as [| k keys IH]; intros Hnd Hin; [destruct Hin |].
  apply NoDup_cons in Hnd as [Hfresh Hnd]. cbn [List.map fold_right].
  destruct Hin as [-> | Hin].
  - rewrite label_eqb_refl.
    assert (Hz : fold_right Z.add 0
                   (List.map (fun l => if label_eqb l x then f l else 0) keys) = 0).
    { clear IH Hnd. induction keys as [| k keys IHk]; [reflexivity |].
      cbn [List.map fold_right].
      destruct (label_eqb k x) eqn:E.
      - apply label_eqb_eq in E. subst k. exfalso. apply Hfresh. left.
      - rewrite IHk; [reflexivity |]. intros Hin. apply Hfresh. right. exact Hin. }
    lia.
  - destruct (label_eqb k x) eqn:E.
    + apply label_eqb_eq in E. subst k. exfalso. apply Hfresh, list_elem_of_In, Hin.
    + rewrite IH by assumption. lia.
Qed.

Lemma sum_add (f g : option string -> Z) keys :
  fold_right Z.add 0 (List.map (fun l => f l + g l) keys)
  = fold_right Z.add 0 (List.map f keys) + fold_right Z.add 0 (List.map g keys).
Proof.
  induction keys as [| k keys IH]; [reflexivity |].
  cbn [List.map fold_right]. rewrite IH. lia.
Qed.

(** Over distinct keys that cover the labels of [rows], the groups selected by
    [P] hold together the rows whose label satisfies [P]. *)
Lemma groups_partition (P : option string -> bool) rows keys :
  NoDup keys -> (forall r, In r rows -> In (humanoid r) keys) ->
  fold_right Z.add 0
    (List.map (fun l => if P l then group_size rows l else 0) keys)
  = Z.of_nat (List.length (List.filter (fun r => P (humanoid r)) rows)).
Proof.
  intros Hnd. induction rows as [| r rows IH]; intros Hcov.
  - cbn. clear. induction keys as [| k keys IH]; [reflexivity |].
    cbn [List.map fold_right]. rewrite IH. unfold group_size. cbn.
    destruct (P k); reflexivity.
  - assert (Hstep : forall l,
              (if P l then group_size (r :: rows) l else 0)
              = (if label_eqb l (humanoid r) then (if P l then 1 else 0) else 0)
                + (if P l then group_size rows l else 0)).
    { intros l. unfold group_size. cbn [List.filter].
      destruct (label_eqb l (humanoid r)), (P l); cbn [List.length]; lia. }
    rewrite (List.map_ext _ _ Hstep), sum_add.
    rewrite (sum_select (fun l => if P l then 1 else 0) (humanoid r) keys Hnd)
      by (apply Hcov; left; reflexivity).
    rewrite IH by (intros; apply Hcov; right; assumption).
    cbn [List.filter]. destruct (P (humanoid r)); cbn [List.length]; lia.
Qed.

End GroupFacts.

(** * Further properties of the weekly table and of the plot *)

Section WeeklyRows.
Import PyStr Classify Calendar Posts Metrics Plot.
Open Scope Z_scope.

Lemma number_groups_labels s rows keys : forall n,
  List.map w_humanoid (number_groups s rows n keys) = keys.
Proof.
  induction keys as [| l keys IH]; intros n; [reflexivity |].
  cbn [number_groups List.map]. rewrite IH. reflexivity.
Qed.

Lemma number_groups_row s rows keys : forall n w,
  In w (number_groups s rows n keys) ->
  n_posts w = group_size rows (w_humanoid w)
  /\ avg_score w
     = round2_avg (List.map score
                     (List.filter (fun r => label_eqb (w_humanoid w) (humanoid r)) rows))
  /\ avg_comments w
     = round2_avg (List.map Posts.n_comments
                     (List.filter (fun r => label_eqb (w_humanoid w) (humanoid r)) rows)).
Proof.
  induction keys as [| l keys IH]; intros n w; [intros [] |].
  cbn [number_groups]. intros [<- | Hin]; [| eapply IH, Hin].
  cbn. auto.
Qed.

Lemma number_groups_total s rows keys n :
  fold_right Z.add 0 (List.map n_posts (number_groups s rows n keys))
  = fold_right Z.add 0 (List.map (group_size rows) keys).
Proof.
  revert n. induction keys as [| l keys IH]; intros n; [reflexivity |].
  cbn [number_groups List.map fold_right]. rewrite IH. reflexivity.
Qed.

Lemma group_size_pos rows l :
  (exists r, In r rows /\ humanoid r = l) -> 0 < group_size rows l.
Proof.
  intros (r & Hin & <-). unfold group_size.
  assert (In r (List.filter (fun r0 => label_eqb (humanoid r) (humanoid r0)) rows))
    as Hf by (apply filter_In; split; [exact Hin | apply label_eqb_refl]).
  destruct (List.filter _ rows); [destruct Hf | cbn [List.length]; lia].
Qed.

Lemma sum_bounds lo hi (xs : list Z) :
  Forall (fun x => lo <= x <= hi) xs ->
  Z.of_nat (List.length xs) * lo <= fold_right Z.add 0 xs
  <= Z.of_nat (List.length xs) * hi.
Proof.
  induction 1 as [| x xs Hx _ IH]; [cbn; lia |].
  cbn [List.length fold_right]. rewrite Nat2Z.inj_succ. lia.
Qed.

(** The rounded average of a non-empty list lies between its bounds. *)
Lemma round2_avg_bounds lo hi (xs : list Z) :
  xs <> [] -> Forall (fun x => lo <= x <= hi) xs ->
  100 * lo <= round2_avg xs <= 100 * hi.
Proof.
  intros Hne Hall. pose proof (sum_bounds lo hi xs Hall) as Hs.
  unfold round2_avg.
  set (n := Z.of_nat (List.length xs)) in *.
  set (sm := fold_right Z.add 0 xs) in *.
  assert (Hn : 0 < n) by (subst n; destruct xs; [congruence | cbn [List.length]; lia]).
  destruct (Z.leb_spec 0 (100 * sm)).
  - split.
    + apply Z.div_le_lower_bound; nia.
    + apply Z.lt_succ_r. apply Z.div_lt_upper_bound; nia.
  - assert (- (100 * hi) <= (2 * - (100 * sm) + n) / (2 * n) <= - (100 * lo)); [| lia].
    split.
    + apply Z.div_le_lower_bound; nia.
    + apply Z.lt_succ_r. apply Z.div_lt_upper_bound; nia.
Qed.

Lemma expand_rows_spec df : forall acc ex,
  expand_rows df acc = Some ex -> ex = (acc ++ flat_map expand_one df)%list.
Proof.
  induction df as [| row df IH]; intros acc ex.
  - cbn. intros [= <-]. rewrite app_nil_r. reflexivity.
  - cbn [expand_rows flat_map]. unfold expand_one at 1.
    destruct (w_humanoid row) as [h |]; [| discriminate].
    intros H. apply IH in H. rewrite H, <- app_assoc. reflexivity.
Qed.

Lemma grouped_cell_app a b date c :
  grouped_cell (a ++ b) date c = grouped_cell a date c + grouped_cell b date c.
Proof.
  unfold grouped_cell. rewrite List.filter_app, List.map_app.
  induction (List.map n_posts (List.filter _ a)) as [| x l IH]; cbn; lia.
Qed.

Lemma grouped_cell_one row date c :
  grouped_cell (expand_one row) date c
  = if String.eqb (w_partition_date row) date
    then n_posts row * times c (w_humanoid row) else 0.
Proof.
  unfold expand_one, times. destruct (w_humanoid row) as [h |].
  - induction (label_parts h) as [| part parts IH].
    + cbn. destruct (String.eqb _ _); lia.
    + cbn [List.map]. change (set_humanoid row part :: List.map (set_humanoid row) parts)
        with ([set_humanoid row part] ++ List.map (set_humanoid row) parts)%list.
      rewrite grouped_cell_app, IH. unfold grouped_cell at 1.
      cbn [List.filter set_humanoid w_partition_date w_humanoid label_eqb n_posts].
      rewrite (String.eqb_sym part c).
      cbn [List.filter].
      destruct (String.eqb (w_partition_date row) date), (String.eqb c part);
        cbn [andb List.map fold_right List.length];
        change (n_posts (set_humanoid row part)) with (n_posts row); lia.
  - cbn. destruct (String.eqb _ _); lia.
Qed.

Lemma grouped_cell_flat df date c :
  grouped_cell (flat_map expand_one df) date c
  = fold_right Z.add 0
      (List.map (fun w => n_posts w * times c (w_humanoid w))
         (List.filter (fun w => String.eqb (w_partition_date w) date) df)).
Proof.
  induction df as [| row df IH]; [reflexivity |].
  cbn [flat_map List.filter]. rewrite grouped_cell_app, grouped_cell_one, IH.
  destruct (String.eqb (w_partition_date row) date); cbn [List.map fold_right]; lia.
Qed.

(** A classified post counts once for each brand whose rule its title
    matches, and for no other brand. *)
Lemma times_classified title b :
  In b categories ->
  times b (Some (get_post_labels title))
  = if brand_rule b (lower title) then 1 else 0.
Proof.
  intros Hb. unfold times. rewrite get_post_labels_cases.
  destruct Hb as [<- | [<- | [<- | []]]];
    [ change (brand_rule "optimus" (lower title)) with (brand_optimus (lower title))
    | change (brand_rule "figure" (lower title)) with (brand_figure (lower title))
    | change (brand_rule "neo" (lower title)) with (brand_neo (lower title)) ];
    destruct (brand_optimus (lower title)), (brand_figure (lower title)),
      (brand_neo (lower title)), (str_in "humanoid" (lower title));
    vm_compute; reflexivity.
Qed.

Lemma expand_rows_none df : forall acc,
  expand_rows df acc = None <-> exists w, In w df /\ w_humanoid w = None.
Proof.
  induction df as [| row df IH]; intros acc.
  - cbn. split; [discriminate | intros (w & [] & _)].
  - cbn [expand_rows]. destruct (w_humanoid row) as [h |] eqn:E.
    + rewrite IH. split; intros (w & Hw & Hn).
      * exists w. split; [right; exact Hw | exact Hn].
      * destruct Hw as [<- | Hw]; [congruence | eauto].
    + split; [intros _; exists row; split; [left; reflexivity | exact E] | reflexivity].
Qed.

Lemma expanded_df_inr df ex :
  expanded_df df = inr ex -> expand_rows df [] = Some ex.
Proof.
  unfold expanded_df. destruct (expand_rows df []) as [[| row rows] |];
    [discriminate | intros [= <-]; reflexivity | discriminate].
Qed.

(** The label of a classified post has no brand part exactly when it is
    [none] or [other]. *)
Lemma label_parts_classified title :
  label_parts (get_post_labels title) = []
  <-> get_post_labels title = "none" \/ get_post_labels title = "other".
Proof.
  rewrite get_post_labels_cases. cbv zeta.
  destruct (brand_optimus (lower title)), (brand_figure (lower title)),
    (brand_neo (lower title)), (str_in "humanoid" (lower title));
    (split; [vm_compute; intros H; solve [discriminate | auto]
            | intros [H | H]; solve [discriminate | reflexivity]]).
Qed.

Lemma flat_map_nil {A B} (f : A -> list B) l :
  flat_map f l = [] <-> forall x, In x l -> f x = [].
Proof.
  induction l as [| a l IH]; cbn.
  - split; [intros _ x [] | reflexivity].
  - split.
    + intros H. apply app_eq_nil in H as [Ha Hl]. intros x [<- | Hx];
        [exact Ha | apply IH; assumption].
    + intros H. rewrite (H a (or_introl eq_refl)).
      apply IH. intros x Hx. apply H. right. exact Hx.
Qed.

Section WeekRuns.
Variable mktime : datetime -> Z.

Abbreviation aggregate := (aggregate_posts_by_category_and_week mktime).

(** The posts a run for the date [d] aggregates. *)
Abbreviation week_posts d posts :=
  (rows_in_window (mktime (monday_of d)) (mktime (morrow_of d)) posts).

(** A run on a well-keyed store succeeds, and leaves for the week the rows of
    its own grouped SELECT. *)
Lemma aggregate_week_rows key posts st d :
  strptime key = Some d -> toordinal d < MAXORDINAL -> well_keyed st ->
  exists st' sel,
    aggregate key posts st = (st', Ok sel)
    /\ well_keyed st'
    /\ week_rows (strftime_ymd (monday_of d)) st'
       = fresh_rows (strftime_ymd (monday_of d)) (week_posts d posts)
           (default 1 (seq_weekly_id st))
    /\ default [] (weekly_post_metrics st')
       = (delete_weekly (strftime_ymd (monday_of d)) (strftime_ymd (morrow_of d))
            (default [] (weekly_post_metrics st))
          ++ fresh_rows (strftime_ymd (monday_of d)) (week_posts d posts)
               (default 1 (seq_weekly_id st)))%list.
Proof.
  intros Hk Hlt [Hnd Hbelow].
  pose proof (week_strings_ordered key d Hk Hlt) as Hord.
  destruct (run_queries_ok (strftime_ymd (monday_of d)) (strftime_ymd (morrow_of d))
              (mktime (monday_of d)) (mktime (morrow_of d)) posts
              (default 1 (seq_weekly_id st))
              (default [] (weekly_post_metrics st)) Hord Hnd Hbelow)
    as (Hrun & Hnd' & Hbelow' & Hweek).
  eexists. eexists.
  split; [rewrite (aggregate_unfold mktime key posts st d Hk Hlt), run_queries_default;
          exact Hrun |].
  split; [split; [exact Hnd' | exact Hbelow'] |].
  split; [exact Hweek | reflexivity].
Qed.


(** X4. After a run of the weekly aggregator the week holds one row per label
    that occurs among the week's posts, each with the number of posts of that
    label, and these counts add up to the number of posts of the week. *)
Theorem weekly_rows_count_posts key posts st d :
  strptime key = Some d -> toordinal d < MAXORDINAL -> well_keyed st ->
  exists st' sel,
    aggregate key posts st = (st', Ok sel)
    /\ let week := week_rows (strftime_ymd (monday_of d)) st' in
       NoDup (List.map w_humanoid week)
       /\ (forall l, In l (List.map w_humanoid week)
                     <-> exists r, In r (week_posts d posts) /\ humanoid r = l)
       /\ (forall w, In w week ->
             n_posts w = group_size (week_posts d posts) (w_humanoid w)
             /\ 0 < n_posts w)
       /\ fold_right Z.add 0 (List.map n_posts week)
          = Z.of_nat (List.length (week_posts d posts)).
Proof.
  intros Hk Hlt Hwk.
  destruct (aggregate_week_rows key posts st d Hk Hlt Hwk)
    as (st' & sel & Hrun & _ & Hweek & _).
  exists st', sel. split; [exact Hrun |]. cbv zeta. rewrite Hweek.
  unfold fresh_rows. set (rows := week_posts d posts).
  assert (Hl : forall l, In l (group_keys (List.map humanoid rows))
                         <-> exists r, In r rows /\ humanoid r = l).
  { intros l. rewrite group_keys_In, in_map_iff. split; intros (r & H1 & H2); eauto. }
  rewrite number_groups_labels.
  split; [apply group_keys_NoDup |]. split; [exact Hl |]. split.
  - intros w Hw. destruct (number_groups_row _ _ _ _ _ Hw) as (Hn & _).
    split; [exact Hn |]. rewrite Hn. apply group_size_pos, Hl.
    rewrite <- (number_groups_labels (strftime_ymd (monday_of d)) rows
                  (group_keys (List.map humanoid rows))
                  (default 1 (seq_weekly_id st))).
    apply in_map, Hw.
  - rewrite number_groups_total.
    assert (Hall : List.filter (fun _ : post_row => true) rows = rows)
      by (clear; induction rows as [| r rows IH]; [| cbn; rewrite IH]; reflexivity).
    pose proof (groups_partition (fun _ => true) rows
                  (group_keys (List.map humanoid rows)) (group_keys_NoDup _)) as Hp.
    cbv beta iota in Hp. rewrite Hall in Hp. apply Hp.
    intros r Hr. apply group_keys_In, in_map, Hr.
Qed.


(** X5. The aggregator, run on a well-keyed store, succeeds and keeps the
    store well-keyed. Rows whose week start prints outside the deleted range
    are kept, rows inside it are replaced by the rows of this run. *)
Theorem aggregate_replaces_week key posts st d :
  strptime key = Some d -> toordinal d < MAXORDINAL -> well_keyed st ->
  exists st' sel,
    aggregate key posts st = (st', Ok sel)
    /\ well_keyed st'
    /\ let s := strftime_ymd (monday_of d) in
       let e := strftime_ymd (morrow_of d) in
       let in_range w :=
         String.leb s (w_partition_date w) && String.ltb (w_partition_date w) e in
       (forall w, In w (default [] (weekly_post_metrics st)) ->
                  in_range w = false ->
                  In w (default [] (weekly_post_metrics st')))
       /\ (forall w, In w (default [] (weekly_post_metrics st')) ->
                     (In w (default [] (weekly_post_metrics st))
                      /\ in_range w = false)
                     \/ (In w (week_rows s st')
                         /\ default 1 (seq_weekly_id st) <= id w))
       /\ (forall w, In w (default [] (weekly_post_metrics st)) ->
                     in_range w = true ->
                     ~ In w (default [] (weekly_post_metrics st'))).
Proof.
  intros Hk Hlt Hwk.
  destruct (aggregate_week_rows key posts st d Hk Hlt Hwk)
    as (st' & sel & Hrun & Hwk' & Hweek & Htab).
  exists st', sel. split; [exact Hrun |]. split; [exact Hwk' |].
  cbv zeta. rewrite Hweek, Htab.
  set (s := strftime_ymd (monday_of d)). set (e := strftime_ymd (morrow_of d)).
  assert (Hkept : forall w, In w (delete_weekly s e (default [] (weekly_post_metrics st)))
            <-> In w (default [] (weekly_post_metrics st))
                /\ String.leb s (w_partition_date w)
                   && String.ltb (w_partition_date w) e = false).
  { intros w. unfold delete_weekly. rewrite filter_In, negb_true_iff. tauto. }
  split; [| split].
  - intros w Hw Hout. apply in_or_app. left. apply Hkept. auto.
  - intros w Hw. apply in_app_or in Hw as [Hw | Hw].
    + left. apply Hkept, Hw.
    + right. split; [exact Hw |]. apply fresh_rows_range in Hw. lia.
  - intros w Hw Hin Hw'. apply in_app_or in Hw' as [Hw' | Hw'].
    + apply Hkept in Hw' as [_ Hout]. congruence.
    + apply fresh_rows_range in Hw' as [Hid _].
      destruct Hwk as [_ Hbelow]. rewrite List.Forall_forall in Hbelow.
      specialize (Hbelow w Hw). lia.
Qed.



(** X7. When the posts of the week carry the labels of the classification,
    the plot's count for a brand in that week is the number of the week's
    posts whose title matches the rule of that brand: a post with a compound
    label counts once for each of its brands, a post labelled [none] or
    [other] for none. *)
Theorem plot_counts_matching_posts key posts st d b :
  strptime key = Some d -> toordinal d < MAXORDINAL -> well_keyed st ->
  (forall r, In r (week_posts d posts) ->
             humanoid r = Some (get_post_labels (title r))) ->
  In b categories ->
  exists st' sel,
    aggregate key posts st = (st', Ok sel)
    /\ forall expanded,
         expanded_df (default [] (weekly_post_metrics st')) = inr expanded ->
         grouped_cell expanded (strftime_ymd (monday_of d)) b
         = Z.of_nat (List.length
                       (List.filter (fun r => brand_rule b (lower (title r)))
                          (week_posts d posts))).
Proof.
  intros Hk Hlt Hwk Hcl Hb.
  destruct (aggregate_week_rows key posts st d Hk Hlt Hwk)
    as (st' & sel & Hrun & _ & Hweek & _).
  exists st', sel. split; [exact Hrun |]. intros expanded Hex.
  apply expanded_df_inr, expand_rows_spec in Hex. cbn [app] in Hex. subst expanded.
  rewrite grouped_cell_flat. fold (week_rows (strftime_ymd (monday_of d)) st').
  rewrite Hweek. unfold fresh_rows.
  set (rows := week_posts d posts) in *.
  set (keys := group_keys (List.map humanoid rows)).
  set (P := fun l : option string => Z.eqb (times b l) 1).
  assert (Hkey : forall l, In l keys -> exists r, In r rows /\ humanoid r = l).
  { intros l Hl. apply group_keys_In, in_map_iff in Hl as (r & H1 & H2). eauto. }
  set (F := fun l : option string => if P l then group_size rows l else 0).
  assert (Hrow : forall w,
            In w (number_groups (strftime_ymd (monday_of d)) rows
                    (default 1 (seq_weekly_id st)) keys) ->
            n_posts w * times b (w_humanoid w) = F (w_humanoid w)).
  { intros w Hw. destruct (number_groups_row _ _ _ _ _ Hw) as (Hn & _).
    assert (In (w_humanoid w) keys) as Hl.
    { rewrite <- (number_groups_labels (strftime_ymd (monday_of d)) rows keys
                    (default 1 (seq_weekly_id st))). apply in_map, Hw. }
    destruct (Hkey _ Hl) as (r & Hr & Hlr). unfold F, P.
    rewrite <- Hlr, (Hcl r Hr), times_classified by exact Hb.
    rewrite <- (Hcl r Hr), Hlr, Hn.
    destruct (brand_rule b (lower (title r))); cbn; lia. }
  rewrite (List.map_ext_in _ (fun w => F (w_humanoid w)) _ Hrow).
  rewrite <- (List.map_map w_humanoid F), number_groups_labels. unfold F.
  rewrite (groups_partition P rows keys (group_keys_NoDup _))
    by (intros r Hr; apply group_keys_In, in_map, Hr).
  f_equal. f_equal. apply List.filter_ext_in. intros r Hr. unfold P.
  rewrite (Hcl r Hr), times_classified by exact Hb.
  destruct (brand_rule b (lower (title r))); reflexivity.
Qed.


(** X8. A post of the week that is still unclassified when the aggregator
    runs gets a row with a NULL label, and the plot then fails on the table:
    the split of the label raises. *)
Theorem unclassified_post_breaks_plot key posts st d r :
  strptime key = Some d -> toordinal d < MAXORDINAL -> well_keyed st ->
  In r (week_posts d posts) -> humanoid r = None ->
  exists st' sel,
    aggregate key posts st = (st', Ok sel)
    /\ (exists w, In w (week_rows (strftime_ymd (monday_of d)) st')
                  /\ w_humanoid w = None)
    /\ expanded_df (default [] (weekly_post_metrics st')) = inl AttributeError.
Proof.
  intros Hk Hlt Hwk Hr Hnull.
  destruct (aggregate_week_rows key posts st d Hk Hlt Hwk)
    as (st' & sel & Hrun & _ & Hweek & Htab).
  exists st', sel. split; [exact Hrun |].
  assert (Hw : exists w, In w (week_rows (strftime_ymd (monday_of d)) st')
                         /\ w_humanoid w = None).
  { rewrite Hweek. unfold fresh_rows.
    assert (In None (List.map w_humanoid
                       (number_groups (strftime_ymd (monday_of d))
                          (week_posts d posts) (default 1 (seq_weekly_id st))
                          (group_keys (List.map humanoid (week_posts d posts))))))
      as Hin.
    { rewrite number_groups_labels. apply group_keys_In. rewrite <- Hnull.
      apply in_map, Hr. }
    apply in_map_iff in Hin as (w & Hl & Hin). eauto. }
  split; [exact Hw |].
  destruct Hw as (w & Hin & Hl). unfold expanded_df.
  replace (expand_rows (default [] (weekly_post_metrics st')) []) with (@None (list weekly_row));
    [reflexivity |].
  symmetry. apply expand_rows_none. exists w.
  split; [| exact Hl]. unfold week_rows in Hin. apply filter_In in Hin. tauto.
Qed.

End WeekRuns.

(** X9. On a table whose labels all come from the classification the plot
    never fails on the split, and it fails on the missing column exactly when
    every row is labelled [none] or [other], an empty table included. *)
Theorem plot_needs_brand_row df :
  (forall w, In w df -> exists title, w_humanoid w = Some (get_post_labels title)) ->
  expanded_df df <> inl AttributeError
  /\ (expanded_df df = inl KeyError
      <-> forall w, In w df ->
            w_humanoid w = Some "none" \/ w_humanoid w = Some "other").
Proof.
  intros Hcl. unfold expanded_df.
  destruct (expand_rows df []) as [ex |] eqn:E.
  - apply expand_rows_spec in E. cbn [app] in E. split.
    + destruct ex; discriminate.
    + assert (Hnil : ex = [] <-> forall w, In w df ->
                w_humanoid w = Some "none" \/ w_humanoid w = Some "other").
      { rewrite E, flat_map_nil. split; intros H w Hw;
          destruct (Hcl w Hw) as (title & Hl); specialize (H w Hw).
        - unfold expand_one in H. rewrite Hl in H.
          apply map_eq_nil, label_parts_classified in H. rewrite Hl.
          destruct H as [-> | ->]; auto.
        - unfold expand_one. rewrite Hl.
          replace (label_parts (get_post_labels title)) with (@nil string);
            [reflexivity |].
          symmetry. apply label_parts_classified.
          rewrite Hl in H. destruct H as [[= H] | [= H]]; auto. }
      rewrite <- Hnil. destruct ex; split; intros H;
        solve [reflexivity | discriminate].
  - apply expand_rows_none in E as (w & Hw & Hn).
    destruct (Hcl w Hw) as (title & Hl). congruence.
Qed.

End WeeklyRows.

Section WeeklyScenarios.
Import PyStr Classify Calendar Posts Metrics Plot.
Open Scope Z_scope.

Lemma weekly_rows_count_posts_witness :
  exists st' sel,
    Scenario.aggregate empty_store = (st', Ok sel)
    /\ fold_right Z.add 0
         (List.map n_posts (week_rows (strftime_ymd (monday_of (mkdate 2024 5 6))) st'))
       = 3.
Proof.
  destruct (weekly_rows_count_posts (mktime_fixed 0) "2024-05-06"
              Scenario.classified_posts empty_store (mkdate 2024 5 6)
              eq_refl ltac:(vm_compute; reflexivity) ltac:(split; constructor))
    as (st' & sel & Hrun & _ & _ & _ & Hsum).
  exists st', sel. split; [exact Hrun | exact Hsum].
Defined.

Lemma aggregate_replaces_week_witness :
  exists st' sel,
    Scenario.aggregate empty_store = (st', Ok sel) /\ well_keyed st'.
Proof.
  destruct (aggregate_replaces_week (mktime_fixed 0) "2024-05-06"
              Scenario.classified_posts empty_store (mkdate 2024 5 6)
              eq_refl ltac:(vm_compute; reflexivity) ltac:(split; constructor))
    as (st' & sel & Hrun & Hwk & _).
  exists st', sel. split; [exact Hrun | exact Hwk].
Defined.

Lemma scenario_week_posts :
  rows_in_window (mktime_fixed 0 (monday_of (mkdate 2024 5 6)))
    (mktime_fixed 0 (morrow_of (mkdate 2024 5 6))) Scenario.classified_posts
  = Scenario.classified_posts.
Proof. vm_compute. reflexivity. Qed.


Lemma plot_counts_matching_posts_witness :
  exists st' sel,
    Scenario.aggregate empty_store = (st', Ok sel)
    /\ forall expanded,
         expanded_df (default [] (weekly_post_metrics st')) = inr expanded ->
         grouped_cell expanded "2024-05-06" "figure" = 2.
Proof.
  destruct (plot_counts_matching_posts (mktime_fixed 0) "2024-05-06"
              Scenario.classified_posts empty_store (mkdate 2024 5 6) "figure"
              eq_refl ltac:(vm_compute; reflexivity) ltac:(split; constructor))
    as (st' & sel & Hrun & Hcell).
  - rewrite scenario_week_posts.
    intros r [<- | [<- | [<- | []]]]; vm_compute; reflexivity.
  - right; left; reflexivity.
  - exists st', sel. split; [exact Hrun |]. intros expanded Hex.
    change "2024-05-06" with (strftime_ymd (monday_of (mkdate 2024 5 6))).
    rewrite (Hcell expanded Hex). vm_compute. reflexivity.
Defined.

Lemma unclassified_post_breaks_plot_witness :
  let posts := (Scenario.ingest "2024-05-06" []).1 in
  exists st' sel,
    aggregate_posts_by_category_and_week (mktime_fixed 0) "2024-05-06" posts
      empty_store = (st', Ok sel)
    /\ expanded_df (default [] (weekly_post_metrics st')) = inl AttributeError.
Proof.
  cbv zeta.
  destruct (unclassified_post_breaks_plot (mktime_fixed 0) "2024-05-06"
              (Scenario.ingest "2024-05-06" []).1 empty_store (mkdate 2024 5 6)
              (to_row "2024-05-06"
                 (to_fetched (local_str_fixed 0) "robotics" Scenario.post_inside))
              eq_refl ltac:(vm_compute; reflexivity) ltac:(split; constructor))
    as (st' & sel & Hrun & _ & Hplot).
  - vm_compute. left. reflexivity.
  - reflexivity.
  - exists st', sel. split; [exact Hrun | exact Hplot].
Defined.

Lemma plot_needs_brand_row_witness :
  expanded_df [ mkWeekly 1 (Some "none") 4 250 100 "2024-05-06";
                mkWeekly 2 (Some "other") 1 300 0 "2024-05-06" ]
  = inl KeyError.
Proof.
  apply (plot_needs_brand_row
           [ mkWeekly 1 (Some "none") 4 250 100 "2024-05-06";
             mkWeekly 2 (Some "other") 1 300 0 "2024-05-06" ]).
  - intros w [<- | [<- | []]].
    + exists "Boston Dynamics Atlas". vm_compute. reflexivity.
    + exists "A humanoid hand". vm_compute. reflexivity.
  - intros w [<- | [<- | []]]; cbn; auto.
Defined.

End WeeklyScenarios.

(** * Further properties of ingestion, classification and selection *)

Section StageFacts.
Import PyStr Calendar Posts Stages.
Open Scope Z_scope.

Variable SUBREDDITS : list string.
Variable mktime : datetime -> Z.
Variable local_str : Z -> string.
Variable new_listing : string -> nat -> list submission * listing_end.

Abbreviation fetch_sub := (fetch_subreddit local_str new_listing).
Abbreviation fetch := (fetch_all local_str new_listing).
Abbreviation ingest := (fetch_daily_reddit_posts SUBREDDITS mktime local_str new_listing).

Abbreviation appended := (Stages.appended local_str new_listing).

(** One turn of the retry loop. *)
Lemma fetch_subreddit_step fuel attempt s e name acc :
  fetch_sub (S fuel) attempt s e name acc
  = match snd (new_listing name attempt) with
    | ListingDone => Ok (acc ++ appended s e name attempt)%list
    | ListingServerError =>
        match fuel with
        | O => Raise ServerError
        | S _ => fetch_sub fuel (S attempt) s e name
                   (acc ++ appended s e name attempt)%list
        end
    | ListingOtherError => Raise UpstreamError
    end.
Proof.
  cbn [fetch_subreddit]. unfold Stages.appended.
  destruct (new_listing name attempt) as [results fin]. reflexivity.
Qed.

Lemma fetch_subreddit_from fuel : forall attempt k s e name acc,
  (k <= fuel)%nat ->
  (forall j, (j < k)%nat -> snd (new_listing name (attempt + j)) = ListingServerError) ->
  fetch_sub (S fuel) attempt s e name acc
  = match snd (new_listing name (attempt + k)) with
    | ListingDone =>
        Ok (acc ++ flat_map (appended s e name) (seq attempt (S k)))%list
    | ListingOtherError => Raise UpstreamError
    | ListingServerError =>
        match (fuel - k)%nat with
        | O => Raise ServerError
        | S _ =>
            fetch_sub (fuel - k) (S (attempt + k)) s e name
              (acc ++ flat_map (appended s e name) (seq attempt (S k)))%list
        end
    end.
Proof.
  induction fuel as [| fuel IH]; intros attempt k s e name acc Hk Hse.
  - assert (k = 0%nat) as -> by lia. rewrite Nat.add_0_r, fetch_subreddit_step.
    cbn [seq flat_map Nat.sub]. rewrite app_nil_r. reflexivity.
  - rewrite fetch_subreddit_step. destruct k as [| k].
    + rewrite Nat.add_0_r, Nat.sub_0_r. cbn [seq flat_map]. rewrite app_nil_r.
      reflexivity.
    + pose proof (Hse 0%nat ltac:(lia)) as H0. rewrite Nat.add_0_r in H0.
      rewrite H0, (IH (S attempt) k s e name _ ltac:(lia)).
      * replace (S attempt + k)%nat with (attempt + S k)%nat by lia.
        replace (S fuel - S k)%nat with (fuel - k)%nat by lia.
        cbn [seq flat_map]. rewrite <- !app_assoc. reflexivity.
      * intros j Hj. replace (S attempt + j)%nat with (attempt + S j)%nat by lia.
        apply Hse. lia.
Qed.

(** X10. The retry loop around the listing of one subreddit. The first
    attempt that does not end in a server error decides: if it completes, the
    loop yields what all attempts up to it appended, posts read before a
    server error included and kept a second time when the retry reads them
    again; if it ends in another error, that error is raised at once. Five
    server errors in a row raise the server error. *)
Theorem fetch_subreddit_retries s e name acc :
  (forall k, (k < 5)%nat ->
     (forall j, (j < k)%nat -> snd (new_listing name j) = ListingServerError) ->
     (snd (new_listing name k) = ListingDone ->
      fetch_sub 5 0 s e name acc
      = Ok (acc ++ flat_map (appended s e name) (seq 0 (S k)))%list)
     /\ (snd (new_listing name k) = ListingOtherError ->
         fetch_sub 5 0 s e name acc = Raise UpstreamError))
  /\ ((forall j, (j < 5)%nat -> snd (new_listing name j) = ListingServerError) ->
      fetch_sub 5 0 s e name acc = Raise ServerError).
Proof.
  split.
  - intros k Hk Hse.
    rewrite (fetch_subreddit_from 4 0 k s e name acc ltac:(lia) Hse).
    cbn [Nat.add]. split; intros ->; reflexivity.
  - intros Hall.
    rewrite (fetch_subreddit_from 4 0 4 s e name acc ltac:(lia)
               ltac:(intros j Hj; apply Hall; lia)).
    cbn [Nat.add Nat.sub]. rewrite (Hall 4%nat ltac:(lia)). reflexivity.
Qed.

Lemma nodupb_NoDup (l : list string) : nodupb l = true <-> NoDup l.
Proof.
  induction l as [| x l IH]; cbn [nodupb].
  - split; [constructor | reflexivity].
  - rewrite andb_true_iff, negb_true_iff, NoDup_cons, IH.
    assert (existsb (String.eqb x) l = false <-> x ∉ l) as ->; [| reflexivity].
    rewrite <- not_true_iff_false, existsb_exists, list_elem_of_In.
    split; intros Hn Hin; apply Hn.
    + exists x. split; [exact Hin | apply String.eqb_refl].
    + destruct Hin as (y & Hy & Heq). apply String.eqb_eq in Heq. subst y. exact Hy.
Qed.

Lemma fetch_subreddit_raises fuel : forall attempt s e name acc x,
  fetch_sub fuel attempt s e name acc = Raise x ->
  x = ServerError \/ x = UpstreamError.
Proof.
  induction fuel as [| fuel IH]; intros attempt s e name acc x; [discriminate |].
  rewrite fetch_subreddit_step.
  destruct (snd (new_listing name attempt)); [discriminate | | intros [= <-]; auto].
  destruct fuel; [intros [= <-]; auto | apply IH].
Qed.

Lemma fetch_all_raises subs : forall s e acc x,
  fetch subs s e acc = Raise x -> x = ServerError \/ x = UpstreamError.
Proof.
  induction subs as [| name subs IH]; intros s e acc x; [discriminate |].
  cbn [fetch_all].
  destruct (fetch_sub 5 0%nat s e name acc) as [acc' | y] eqn:E.
  - apply IH.
  - intros [= <-]. eapply fetch_subreddit_raises, E.
Qed.

Lemma fetch_all_app l1 l2 s e acc :
  fetch (l1 ++ l2) s e acc
  = match fetch l1 s e acc with
    | Ok acc' => fetch l2 s e acc'
    | Raise x => Raise x
    end.
Proof.
  revert acc. induction l1 as [| name l1 IH]; intros acc; [reflexivity |].
  cbn [fetch_all app].
  destruct (fetch_sub 5 0%nat s e name acc) as [acc' | y]; [apply IH | reflexivity].
Qed.

Lemma fetch_subreddit_extends fuel : forall attempt s e name acc batch,
  fetch_sub fuel attempt s e name acc = Ok batch ->
  exists ext, batch = (acc ++ ext)%list.
Proof.
  induction fuel as [| fuel IH]; intros attempt s e name acc batch.
  - cbn. intros [= <-]. exists []. rewrite app_nil_r. reflexivity.
  - rewrite fetch_subreddit_step.
    destruct (snd (new_listing name attempt)); [| | discriminate].
    + intros [= <-]. eauto.
    + destruct fuel; [discriminate |]. intros H. apply IH in H as (ext & ->).
      rewrite <- app_assoc. eauto.
Qed.

Lemma fetch_all_extends subs : forall s e acc batch,
  fetch subs s e acc = Ok batch -> exists ext, batch = (acc ++ ext)%list.
Proof.
  induction subs as [| name subs IH]; intros s e acc batch.
  - cbn. intros [= <-]. exists []. rewrite app_nil_r. reflexivity.
  - cbn [fetch_all].
    destruct (fetch_sub 5 0%nat s e name acc) as [acc' | y] eqn:E; [| discriminate].
    apply fetch_subreddit_extends in E as (ext1 & ->).
    intros H. apply IH in H as (ext2 & ->). rewrite <- app_assoc. eauto.
Qed.

Lemma in_window_iff s e r :
  (s <=? created_utc r) && (created_utc r <? e) = true
  <-> s <= created_utc r < e.
Proof. rewrite andb_true_iff, Z.leb_le, Z.ltb_lt. reflexivity. Qed.

Lemma delete_posts_In s e posts r :
  In r (delete_posts s e posts)
  <-> In r posts /\ ~ (s <= created_utc r < e).
Proof.
  unfold delete_posts. rewrite filter_In, negb_true_iff, <- not_true_iff_false,
    in_window_iff. reflexivity.
Qed.

Lemma rows_in_window_In s e posts r :
  In r (rows_in_window s e posts) <-> In r posts /\ s <= created_utc r < e.
Proof. unfold rows_in_window. rewrite filter_In, in_window_iff. reflexivity. Qed.

Lemma rows_in_window_deleted s e posts :
  rows_in_window s e (delete_posts s e posts) = [].
Proof.
  unfold rows_in_window, delete_posts.
  induction posts as [| r posts IH]; [reflexivity |].
  cbn [List.filter].
  destruct ((s <=? created_utc r) && (created_utc r <? e)) eqn:E;
    cbn [negb List.filter]; [exact IH | rewrite E; exact IH].
Qed.

(** The run of the ingestion, once the partition key is parsed. *)
Lemma ingest_unfold key posts d e :
  strptime key = Some d -> add_days d 1 = Some e ->
  ingest key posts
  = match fetch SUBREDDITS (mktime d) (mktime e) [] with
    | Raise x => (posts, Raise x)
    | Ok batch =>
        match insert_posts key batch (delete_posts (mktime d) (mktime e) posts) with
        | Ok posts' => (posts', Ok (List.length batch))
        | Raise x => (delete_posts (mktime d) (mktime e) posts, Raise x)
        end
    end.
Proof. intros Hd He. unfold fetch_daily_reddit_posts. rewrite Hd, He. reflexivity. Qed.

(** A run of the ingestion that returns. *)
Lemma ingest_ok_shape key posts posts' n :
  ingest key posts = (posts', Ok n) ->
  exists d e batch,
    strptime key = Some d /\ add_days d 1 = Some e
    /\ fetch SUBREDDITS (mktime d) (mktime e) [] = Ok batch
    /\ n = List.length batch
    /\ posts' = (delete_posts (mktime d) (mktime e) posts
                 ++ List.map (to_row key) batch)%list
    /\ NoDup (ids posts').
Proof.
  intros Hrun.
  destruct (strptime key) as [d |] eqn:Hd;
    [| unfold fetch_daily_reddit_posts in Hrun; rewrite Hd in Hrun; discriminate].
  destruct (add_days d 1) as [e |] eqn:He;
    [| unfold fetch_daily_reddit_posts in Hrun; rewrite Hd, He in Hrun; discriminate].
  rewrite (ingest_unfold key posts d e Hd He) in Hrun.
  destruct (fetch SUBREDDITS (mktime d) (mktime e) []) as [batch |] eqn:Hf;
    [| discriminate].
  unfold insert_posts in Hrun.
  destruct (nodupb _) eqn:Hnd in Hrun; [| discriminate].
  injection Hrun as <- <-.
  exists d, e, batch. split; [try reflexivity; exact Hd |]. split; [exact He |].
  split; [try reflexivity; exact Hf |]. split; [reflexivity |].
  split; [reflexivity | apply nodupb_NoDup, Hnd].
Qed.

(** The rows a run of the ingestion inserts. *)
Lemma ingest_new_rows s e key batch r :
  Forall (fun f => s <= f_created_utc f <= e) batch ->
  In r (List.map (to_row key) batch) ->
  humanoid r = None /\ partition_date r = key /\ s <= created_utc r <= e.
Proof.
  intros Hr Hin. rewrite List.Forall_forall in Hr.
  apply in_map_iff in Hin as (f & <- & Hin).
  split; [reflexivity |]. split; [reflexivity |]. apply (Hr f Hin).
Qed.

(** X11. A run of the ingestion that returns leaves a table whose post ids
    are pairwise distinct. Every row of the day's window in it is a row of
    this run: unclassified, and stamped with the partition key, so labels the
    window carried before are gone. The rows the table held outside the window
    are all kept, and every other row is a fetched post created between the
    start and the end instant, both included; the count returned is the number
    of these. *)
Theorem ingest_success key posts posts' n :
  ingest key posts = (posts', Ok n) ->
  exists d e,
    strptime key = Some d /\ add_days d 1 = Some e
    /\ NoDup (ids posts')
    /\ (forall r, In r posts' -> mktime d <= created_utc r < mktime e ->
          humanoid r = None /\ partition_date r = key)
    /\ (forall r, In r posts -> ~ (mktime d <= created_utc r < mktime e) ->
          In r posts')
    /\ (forall r, In r posts' ->
          (In r posts /\ ~ (mktime d <= created_utc r < mktime e))
          \/ (humanoid r = None /\ partition_date r = key
              /\ mktime d <= created_utc r <= mktime e))
    /\ List.length posts'
       = (List.length (delete_posts (mktime d) (mktime e) posts) + n)%nat.
Proof.
  intros Hrun.
  apply ingest_ok_shape in Hrun as (d & e & batch & Hd & He & Hf & -> & -> & Hnd).
  pose proof (fetch_all_in_range local_str new_listing SUBREDDITS (mktime d) (mktime e)
                [] batch (List.Forall_nil _) Hf) as Hr.
  exists d, e. split; [exact Hd |]. split; [exact He |]. split; [exact Hnd |].
  split; [| split; [| split]].
  - intros r Hin Hw. apply in_app_or in Hin as [Hin | Hin].
    + apply delete_posts_In in Hin as [_ Hout]. contradiction.
    + destruct (ingest_new_rows _ _ _ _ r Hr Hin) as (H1 & H2 & _). auto.
  - intros r Hin Hout. apply in_or_app. left. apply delete_posts_In. auto.
  - intros r Hin. apply in_app_or in Hin as [Hin | Hin].
    + left. apply delete_posts_In, Hin.
    + right. apply (ingest_new_rows _ _ _ _ r Hr Hin).
  - rewrite length_app, length_map. reflexivity.
Qed.


(** X13. Posts read before a server error stay in the batch, and the retry
    appends them again. So when the first attempt at a subreddit yields a post
    of the range and then fails, and the second attempt completes and yields a
    post with the same id, no run of the ingestion returns: it raises, and if
    the forum raises nothing else, what it raises is the key violation of the
    insert, after the delete. *)
Theorem retry_repeats_posts key posts name p p' d e :
  strptime key = Some d -> add_days d 1 = Some e ->
  In name SUBREDDITS ->
  snd (new_listing name 0) = ListingServerError ->
  snd (new_listing name 1) = ListingDone ->
  In p (fst (new_listing name 0)) -> In p' (fst (new_listing name 1)) ->
  sub_id p = sub_id p' ->
  in_range (mktime d) (mktime e) p = true ->
  in_range (mktime d) (mktime e) p' = true ->
  (exists posts' x, ingest key posts = (posts', Raise x))
  /\ forall batch,
       fetch SUBREDDITS (mktime d) (mktime e) [] = Ok batch ->
       ingest key posts
       = (delete_posts (mktime d) (mktime e) posts, Raise ConstraintException).
Proof.
  intros Hd He Hname H0 H1 Hp Hp' Hid Hr Hr'.
  assert (Hdup : forall batch,
            fetch SUBREDDITS (mktime d) (mktime e) [] = Ok batch ->
            ~ NoDup (List.map f_post_id batch)).
  { intros batch Hf.
    apply in_split in Hname as (l1 & l2 & Hsplit).
    rewrite Hsplit, fetch_all_app in Hf.
    destruct (fetch l1 (mktime d) (mktime e) []) as [acc1 |]; [| discriminate].
    cbn [fetch_all] in Hf.
    destruct (proj1 (fetch_subreddit_retries (mktime d) (mktime e) name acc1)
                1%nat ltac:(lia)) as [Hdone _].
    { intros j Hj. assert (j = 0%nat) as -> by lia. exact H0. }
    rewrite (Hdone H1) in Hf. cbn [seq flat_map] in Hf. rewrite app_nil_r in Hf.
    apply fetch_all_extends in Hf as (ext & ->).
    rewrite !List.map_app. intros Hnd.
    apply NoDup_app in Hnd as (Hnd & _ & _).
    apply NoDup_app in Hnd as (_ & _ & Hnd).
    apply NoDup_app in Hnd as (_ & Hdisj & _).
    apply (Hdisj (sub_id p)); apply list_elem_of_In, in_map_iff.
    - exists (to_fetched local_str name p). split; [reflexivity |].
      apply in_map, filter_In. auto.
    - exists (to_fetched local_str name p'). split; [symmetry; exact Hid |].
      apply in_map, filter_In. auto. }
  assert (Hcase : forall batch,
            fetch SUBREDDITS (mktime d) (mktime e) [] = Ok batch ->
            ingest key posts
            = (delete_posts (mktime d) (mktime e) posts, Raise ConstraintException)).
  { intros batch Hf. rewrite (ingest_unfold key posts d e Hd He), Hf.
    unfold insert_posts. destruct (nodupb _) eqn:Hnd; [| reflexivity].
    exfalso. apply (Hdup batch Hf). apply nodupb_NoDup in Hnd.
    unfold ids in Hnd. rewrite List.map_app in Hnd.
    apply NoDup_app in Hnd as (_ & _ & Hnd).
    rewrite List.map_map in Hnd. exact Hnd. }
  split; [| exact Hcase].
  destruct (fetch SUBREDDITS (mktime d) (mktime e) []) as [batch | y] eqn:Hf.
  - eexists. eexists. apply (Hcase batch eq_refl).
  - eexists. exists y. rewrite (ingest_unfold key posts d e Hd He), Hf. reflexivity.
Qed.

Abbreviation classify := (classify_daily_reddit_posts mktime).

Lemma NoDup_ids_inj (posts : list post_row) r r' :
  NoDup (ids posts) -> In r posts -> In r' posts -> post_id r = post_id r' -> r = r'.
Proof.
  unfold ids. induction posts as [| a posts IH]; intros Hnd Hr Hr' Hid; [destruct Hr |].
  cbn [List.map] in Hnd. apply NoDup_cons in Hnd as [Hnot Hnd].
  destruct Hr as [<- | Hr], Hr' as [<- | Hr'].
  - reflexivity.
  - exfalso. apply Hnot, list_elem_of_In. rewrite Hid. apply in_map, Hr'.
  - exfalso. apply Hnot, list_elem_of_In. rewrite <- Hid. apply in_map, Hr.
  - apply IH; assumption.
Qed.

Lemma relabel_fields s e r :
  post_id (relabel s e r) = post_id r
  /\ created_utc (relabel s e r) = created_utc r
  /\ title (relabel s e r) = title r
  /\ partition_date (relabel s e r) = partition_date r.
Proof. unfold relabel. destruct (_ && _); repeat split. Qed.

Lemma relabel_idem s e r : relabel s e (relabel s e r) = relabel s e r.
Proof.
  unfold relabel.
  destruct ((s <=? created_utc r) && (created_utc r <? e)) eqn:E;
    cbn [with_label created_utc]; rewrite ?E; reflexivity.
Qed.

(** With distinct ids, the UPDATE through the frame of the window gives each
    row the label computed for that very row. *)
Lemma set_label_relabel s e posts r :
  NoDup (ids posts) -> In r posts ->
  set_label (List.map with_label (rows_in_window s e posts)) r = relabel s e r.
Proof.
  intros Hnd Hr. unfold set_label, relabel.
  destruct (List.find _ _) as [u |] eqn:Hfind.
  - apply find_some in Hfind as [Hu Hid]. apply String.eqb_eq in Hid.
    apply in_map_iff in Hu as (r' & <- & Hr').
    apply rows_in_window_In in Hr' as [Hr' Hw].
    assert (r' = r) as -> by (apply (NoDup_ids_inj posts); assumption).
    rewrite (proj2 (in_window_iff s e r) Hw). reflexivity.
  - destruct ((s <=? created_utc r) && (created_utc r <? e)) eqn:E; [| reflexivity].
    exfalso. apply in_window_iff in E.
    pose proof (find_none _ _ Hfind (with_label r)) as Hn.
    cbn [with_label post_id] in Hn. rewrite String.eqb_refl in Hn.
    discriminate Hn. apply in_map, rows_in_window_In. auto.
Qed.

Lemma relabel_ids s e posts : ids (List.map (relabel s e) posts) = ids posts.
Proof.
  unfold ids. rewrite List.map_map. apply List.map_ext. intros r.
  apply relabel_fields.
Qed.

Lemma relabel_window_length s e posts :
  List.length (rows_in_window s e (List.map (relabel s e) posts))
  = List.length (rows_in_window s e posts).
Proof.
  unfold rows_in_window. induction posts as [| r posts IH]; [reflexivity |].
  cbn [List.map List.filter].
  destruct (relabel_fields s e r) as (_ & -> & _).
  destruct (_ && _); cbn [List.length]; rewrite IH; reflexivity.
Qed.

Lemma classify_unfold key posts d e :
  strptime key = Some d -> add_days d 1 = Some e -> NoDup (ids posts) ->
  classify key posts
  = (List.map (relabel (mktime d) (mktime e)) posts,
     Ok (List.length (rows_in_window (mktime d) (mktime e) posts))).
Proof.
  intros Hd He Hnd. unfold classify_daily_reddit_posts. rewrite Hd, He.
  rewrite length_map. f_equal.
  apply List.map_ext_in. intros r Hr. apply set_label_relabel; assumption.
Qed.

(** X14. On a table with distinct post ids, a run of the classification
    stage for a well-formed key gives every row of the day's window the label
    [get_post_labels] computes from that row's own title, leaves every other
    row as it is, and returns the number of rows of the window. A second run
    over its result changes nothing and returns the same number. *)
Theorem classify_relabels_window key posts d e :
  strptime key = Some d -> add_days d 1 = Some e -> NoDup (ids posts) ->
  let posts' := List.map (relabel (mktime d) (mktime e)) posts in
  let n := List.length (rows_in_window (mktime d) (mktime e) posts) in
  classify key posts = (posts', Ok n)
  /\ classify key posts' = (posts', Ok n)
  /\ (forall r, In r posts' -> mktime d <= created_utc r < mktime e ->
        humanoid r = Some (Classify.get_post_labels (title r)))
  /\ (forall r, In r posts -> ~ (mktime d <= created_utc r < mktime e) ->
        In r posts')
  /\ ids posts' = ids posts.
Proof.
  intros Hd He Hnd posts' n.
  split; [apply classify_unfold; assumption |].
  split.
  { rewrite (classify_unfold key posts' d e Hd He)
      by (unfold posts'; rewrite relabel_ids; exact Hnd).
    unfold posts' at 1 2. rewrite List.map_map, relabel_window_length.
    f_equal. apply List.map_ext. intros r. apply relabel_idem. }
  split; [| split; [| apply relabel_ids]].
  - intros r Hin Hw. apply in_map_iff in Hin as (r0 & <- & _).
    destruct (relabel_fields (mktime d) (mktime e) r0) as (_ & Hc & _).
    rewrite Hc in Hw. unfold relabel.
    rewrite (proj2 (in_window_iff _ _ r0) Hw). reflexivity.
  - intros r Hin Hout. apply in_map_iff. exists r. split; [| exact Hin].
    unfold relabel.
    destruct ((mktime d <=? created_utc r) && (created_utc r <? mktime e)) eqn:E;
      [| reflexivity].
    apply in_window_iff in E. contradiction.
Qed.

(** X15. Ingestion then classification for one key: when the ingestion
    returns, the classification returns too; afterwards the post ids are still
    pairwise distinct, and every row of the day's window carries the label of
    its own title and the partition key. The classification counts at most the
    fetched posts: a post created at the end instant is fetched and inserted,
    but lies outside the window of the classification and stays unclassified. *)
Theorem ingest_then_classify key posts posts1 n :
  ingest key posts = (posts1, Ok n) ->
  exists d e posts2 m,
    strptime key = Some d /\ add_days d 1 = Some e
    /\ classify key posts1 = (posts2, Ok m)
    /\ NoDup (ids posts2)
    /\ (forall r, In r posts2 -> mktime d <= created_utc r < mktime e ->
          humanoid r = Some (Classify.get_post_labels (title r))
          /\ partition_date r = key)
    /\ (forall r, In r posts2 -> created_utc r = mktime e ->
          In r posts \/ humanoid r = None)
    /\ m = List.length (rows_in_window (mktime d) (mktime e) posts1)
    /\ (m <= n)%nat.
Proof.
  intros Hrun.
  apply ingest_ok_shape in Hrun as (d & e & batch & Hd & He & Hf & -> & -> & Hnd).
  pose proof (fetch_all_in_range local_str new_listing SUBREDDITS (mktime d) (mktime e)
                [] batch (List.Forall_nil _) Hf) as Hr.
  set (posts1 := (delete_posts (mktime d) (mktime e) posts
                  ++ List.map (to_row key) batch)%list) in *.
  exists d, e, (List.map (relabel (mktime d) (mktime e)) posts1),
    (List.length (rows_in_window (mktime d) (mktime e) posts1)).
  split; [exact Hd |]. split; [exact He |].
  split; [apply classify_unfold; assumption |].
  split; [rewrite relabel_ids; exact Hnd |].
  split; [| split; [| split; [reflexivity |]]].
  - intros r Hin Hw. apply in_map_iff in Hin as (r0 & <- & Hin).
    destruct (relabel_fields (mktime d) (mktime e) r0) as (_ & Hc & _ & Hp).
    rewrite Hc in Hw. rewrite Hp. unfold relabel.
    rewrite (proj2 (in_window_iff _ _ r0) Hw). split; [reflexivity |].
    apply in_app_or in Hin as [Hin | Hin].
    + apply delete_posts_In in Hin as [_ Hout]. contradiction.
    + apply (ingest_new_rows _ _ _ _ r0 Hr Hin).
  - intros r Hin He'. apply in_map_iff in Hin as (r0 & <- & Hin).
    destruct (relabel_fields (mktime d) (mktime e) r0) as (_ & Hc & _).
    rewrite Hc in He'. unfold relabel.
    destruct ((mktime d <=? created_utc r0) && (created_utc r0 <? mktime e)) eqn:E;
      [apply in_window_iff in E; lia |].
    apply in_app_or in Hin as [Hin | Hin].
    + left. apply delete_posts_In in Hin. tauto.
    + right. apply (ingest_new_rows _ _ _ _ r0 Hr Hin).
  - unfold posts1, rows_in_window. rewrite List.filter_app, length_app.
    fold (rows_in_window (mktime d) (mktime e)
            (delete_posts (mktime d) (mktime e) posts)).
    rewrite rows_in_window_deleted. cbn [List.length Nat.add].
    etransitivity; [apply List.filter_length_le |]. rewrite length_map. lia.
Qed.

Abbreviation select := select_robot_posts.

Lemma filter_all {A} (f : A -> bool) l :
  (forall x, In x l -> f x = true) -> List.filter f l = l.
Proof.
  induction l as [| a l IH]; intros H; [reflexivity |].
  cbn. rewrite (H a (or_introl eq_refl)), IH; [reflexivity |].
  intros x Hx. apply H. right. exact Hx.
Qed.

Lemma filter_none {A} (f : A -> bool) l :
  (forall x, In x l -> f x = false) -> List.filter f l = [].
Proof.
  induction l as [| a l IH]; intros H; [reflexivity |].
  cbn. rewrite (H a (or_introl eq_refl)). apply IH.
  intros x Hx. apply H. right. exact Hx.
Qed.


End StageFacts.

Section StageScenarios.
Import PyStr Calendar Posts Stages.
Open Scope Z_scope.

Lemma fetch_subreddit_retries_witness :
  fetch_subreddit (local_str_fixed 0) flaky_listing 5 0 Scenario.day_start
    Scenario.day_end "robotics" []
  = Ok (Stages.appended (local_str_fixed 0) flaky_listing Scenario.day_start
          Scenario.day_end "robotics" 0
        ++ Stages.appended (local_str_fixed 0) flaky_listing Scenario.day_start
             Scenario.day_end "robotics" 1)%list.
Proof.
  destruct (fetch_subreddit_retries (local_str_fixed 0) flaky_listing
              Scenario.day_start Scenario.day_end "robotics" []) as [H _].
  destruct (H 1%nat ltac:(lia)) as [Hdone _].
  - intros j Hj. assert (j = 0%nat) as -> by lia. reflexivity.
  - rewrite (Hdone eq_refl). cbn [seq flat_map app]. rewrite app_nil_r. reflexivity.
Defined.

Lemma ingest_success_witness :
  NoDup (ids (Scenario.ingest "2024-05-06" []).1).
Proof.
  destruct (ingest_success Scenario.subreddits (mktime_fixed 0) (local_str_fixed 0)
              Scenario.listing "2024-05-06" [] (Scenario.ingest "2024-05-06" []).1
              2%nat ltac:(vm_compute; reflexivity))
    as (d & e & _ & _ & Hnd & _).
  exact Hnd.
Defined.


Lemma retry_repeats_posts_witness :
  fetch_daily_reddit_posts ["robotics"] (mktime_fixed 0) (local_str_fixed 0)
    flaky_listing "2024-05-06" []
  = ([], Raise ConstraintException).
Proof.
  destruct (retry_repeats_posts ["robotics"] (mktime_fixed 0) (local_str_fixed 0)
              flaky_listing "2024-05-06" [] "robotics" Scenario.post_inside
              Scenario.post_inside (mkdate 2024 5 6) (mkdate 2024 5 7)
              eq_refl ltac:(vm_compute; reflexivity)
              ltac:(left; reflexivity) eq_refl eq_refl
              ltac:(left; reflexivity) ltac:(left; reflexivity) eq_refl
              ltac:(vm_compute; reflexivity) ltac:(vm_compute; reflexivity))
    as [_ H].
  eapply H. vm_compute. reflexivity.
Defined.

Lemma classify_relabels_window_witness :
  List.map humanoid
    (classify_daily_reddit_posts (mktime_fixed 0) "2024-05-06"
       (Scenario.ingest "2024-05-06" []).1).1
  = [Some "figure"; None].
Proof.
  destruct (classify_relabels_window (mktime_fixed 0) "2024-05-06"
              (Scenario.ingest "2024-05-06" []).1 (mkdate 2024 5 6) (mkdate 2024 5 7)
              eq_refl ltac:(vm_compute; reflexivity)
              ltac:(apply nodupb_NoDup; vm_compute; reflexivity))
    as (Hrun & _).
  rewrite Hrun. vm_compute. reflexivity.
Defined.

Lemma ingest_then_classify_witness :
  exists posts2 m,
    classify_daily_reddit_posts (mktime_fixed 0) "2024-05-06"
      (Scenario.ingest "2024-05-06" []).1 = (posts2, Ok m)
    /\ NoDup (ids posts2) /\ (m <= 2)%nat.
Proof.
  destruct (ingest_then_classify Scenario.subreddits (mktime_fixed 0)
              (local_str_fixed 0) Scenario.listing "2024-05-06" []
              (Scenario.ingest "2024-05-06" []).1 2%nat
              ltac:(vm_compute; reflexivity))
    as (d & e & posts2 & m & _ & _ & Hrun & Hnd & _ & _ & _ & Hle).
  exists posts2, m. auto.
Defined.


End StageScenarios.

(** * Further properties of the sensor *)

Section SensorRuns.
Import PyStr Sensor.
Context {mtime : Type} `{EqDecision mtime}.
Variable repr : mtime -> string.
Variable json_load : string -> option jval.

Abbreviation entry := (@dir_entry mtime).
Abbreviation loop := (sensor_loop repr json_load).
Abbreviation sensor := (generate_pdf_reports_sensor repr json_load).
Abbreviation evaluations := (Sensor.evaluations repr json_load).

(** Over files that did not change the loop only records. *)
Lemma sensor_loop_unchanged prev (listing : list entry) : forall cur runs,
  (forall e, In e listing -> is_summary e = true -> changed prev e = false) ->
  loop prev (cur, runs) listing = Ok (fold_left observe listing cur, runs).
Proof.
  induction listing as [| e listing IH]; intros cur runs Hun; [reflexivity |].
  cbn [sensor_loop fold_left]. unfold sensor_step, observe at 2.
  destruct (is_summary e) eqn:Es.
  - rewrite (Hun e (or_introl eq_refl) Es).
    apply IH. intros e' He'. apply Hun. right. exact He'.
  - apply IH. intros e' He'. apply Hun. right. exact He'.
Qed.

(** The loop raises nothing but the decoding error, and raises it when a
    changed summary file does not decode. *)
Lemma sensor_loop_raises prev (listing : list entry) : forall acc x,
  loop prev acc listing = Raise x -> x = JSONDecodeError.
Proof.
  induction listing as [| e listing IH]; intros acc x; [discriminate |].
  cbn [sensor_loop].
  destruct (sensor_step repr json_load prev acc e) as [acc' | y] eqn:Hs.
  - apply IH.
  - intros [= <-]. unfold sensor_step in Hs. destruct acc as [cur runs].
    destruct (is_summary e); [| discriminate].
    destruct (changed prev e); [| discriminate].
    destruct (json_load (body e)); [discriminate |]. congruence.
Qed.

Lemma sensor_blocked (c : option (gmap string mtime)) (listing : list entry) e :
  In e listing -> is_summary e = true -> changed (default ∅ c) e = true ->
  json_load (body e) = None ->
  sensor c listing = Raise JSONDecodeError.
Proof.
  intros Hin Hs Hc Hj.
  destruct (sensor c listing) as [res | x] eqn:Hrun.
  - apply sensor_ok in Hrun as (_ & _ & Hall).
    rewrite List.Forall_forall in Hall. specialize (Hall e Hin).
    rewrite Hs, Hc in Hall. destruct (Hall eq_refl) as [j Hj']. congruence.
  - f_equal. unfold generate_pdf_reports_sensor in Hrun.
    destruct (loop (default ∅ c) (∅, []) listing) as [[cur runs] | y] eqn:Hl;
      [discriminate |].
    injection Hrun as <-. eapply sensor_loop_raises, Hl.
Qed.

(** X17. After an evaluation that returned, evaluating the same listing again
    with the cursor it returned emits no run request and returns the
    same cursor, whether or not the files still decode; so does every further
    evaluation of that listing. *)
Theorem sensor_quiet_on_same_listing (c : option (gmap string mtime))
    (listing : list entry) res :
  NoDup (List.map filename listing) ->
  sensor c listing = Ok res ->
  sensor (Some (cursor res)) listing
  = Ok {| run_requests := []; cursor := cursor res |}
  /\ forall k, evaluations (Some (cursor res)) (List.repeat listing k)
               = List.repeat [] k.
Proof.
  intros Hnd Hrun. apply sensor_ok in Hrun as (Hcur & _ & _).
  assert (Hq : sensor (Some (cursor res)) listing
               = Ok {| run_requests := []; cursor := cursor res |}).
  { unfold generate_pdf_reports_sensor.
    change (default ∅ (Some (cursor res))) with (cursor res).
    rewrite sensor_loop_unchanged.
    - rewrite <- Hcur. reflexivity.
    - intros e He Hs. unfold changed. rewrite Hcur.
      rewrite (observe_listed listing ∅ e Hnd He Hs).
      rewrite bool_decide_eq_true_2; reflexivity. }
  split; [exact Hq |].
  induction k as [| k IH]; [reflexivity |].
  cbn [List.repeat Sensor.evaluations]. rewrite Hq. cbn [run_requests cursor].
  rewrite IH. reflexivity.
Qed.

(** X18. A summary file that is new or modified and does not decode makes the
    evaluation raise the decoding error. The cursor is then not advanced, so
    as long as each listing holds such a file, no evaluation emits a run
    request, for that file or for any other. *)
Theorem undecodable_file_blocks_sensor (c : option (gmap string mtime))
    (snapshots : list (list entry)) :
  Forall (fun listing =>
            exists e, In e listing /\ is_summary e = true
                      /\ changed (default ∅ c) e = true
                      /\ json_load (body e) = None) snapshots ->
  Forall (fun listing => sensor c listing = Raise JSONDecodeError) snapshots
  /\ evaluations c snapshots = List.map (fun _ => []) snapshots.
Proof.
  intros Hbad.
  assert (Hr : Forall (fun listing => sensor c listing = Raise JSONDecodeError)
                 snapshots).
  { eapply Forall_impl; [exact Hbad |].
    intros listing (e & Hin & Hs & Hc & Hj). eapply sensor_blocked; eassumption. }
  split; [exact Hr |].
  induction Hr as [| listing snapshots Hl _ IH]; [reflexivity |].
  cbn [Sensor.evaluations List.map]. rewrite Hl.
  apply Forall_cons in Hbad as [_ Hbad]. rewrite (IH Hbad). reflexivity.
Qed.

End SensorRuns.

Section SensorRunScenarios.
Import PyStr Sensor.
Open Scope Z_scope.

Lemma sensor_quiet_on_same_listing_witness :
  exists res,
    generate_pdf_reports_sensor repr_seconds Scenario.load_empty None
      (Scenario.summaries_dir 1715000000) = Ok res
    /\ generate_pdf_reports_sensor repr_seconds Scenario.load_empty
         (Some (cursor res)) (Scenario.summaries_dir 1715000000)
       = Ok {| run_requests := []; cursor := cursor res |}.
Proof.
  eexists. split; [vm_compute; reflexivity |].
  apply (sensor_quiet_on_same_listing repr_seconds Scenario.load_empty None
           (Scenario.summaries_dir 1715000000)).
  - apply summaries_dir_nodup.
  - vm_compute. reflexivity.
Defined.

Lemma undecodable_file_blocks_sensor_witness :
  Sensor.evaluations repr_seconds Scenario.loads_object None
    [Scenario.summaries_dir 1715000000; Scenario.summaries_dir 1715000500]
  = [[]; []].
Proof.
  apply (undecodable_file_blocks_sensor repr_seconds Scenario.loads_object None
           [Scenario.summaries_dir 1715000000; Scenario.summaries_dir 1715000500]).
  repeat constructor.
  - eexists. split; [left; reflexivity |]. repeat split.
  - eexists. split; [left; reflexivity |]. repeat split.
Defined.

End SensorRunScenarios.

(** * Partition keys, the report and the summary records *)

Section KeyFacts.
Import PyStr Calendar Reports.
Open Scope Z_scope.

Lemma split_on_plain sep (a : string) :
  has_char sep a = false -> split_on sep a = [a].
Proof.
  induction a as [| c a IH]; [reflexivity |].
  cbn [has_char split_on]. intros H. apply orb_false_iff in H as [Hc Ha].
  rewrite Hc, (IH Ha). reflexivity.
Qed.

Lemma split_on_sep sep (a rest : string) :
  has_char sep a = false ->
  split_on sep (a ++ String sep rest) = a :: split_on sep rest.
Proof.
  induction a as [| c a IH]; intros H.
  - rewrite append_nil. cbn [split_on]. rewrite Ascii.eqb_refl. reflexivity.
  - cbn [has_char] in H. apply orb_false_iff in H as [Hc Ha].
    rewrite append_cons. cbn [split_on]. rewrite Hc, (IH Ha). reflexivity.
Qed.

Lemma field_ok_spec f s n : field_ok f s n = true -> f s = Some n.
Proof.
  unfold field_ok. destruct (f s) as [n' |]; [| discriminate].
  intros H. apply Z.eqb_eq in H. congruence.
Qed.

Lemma plain_spec s :
  plain s = true ->
  has_char "-" s = false /\ has_char "_" s = false /\ has_char "." s = false
  /\ has_char "/" s = false.
Proof.
  unfold plain. rewrite !andb_true_iff, !negb_true_iff. tauto.
Qed.

Lemma pad4_fields y :
  0 <= y < 10000 -> field_Y (pad4 y) = Some y /\ plain (pad4 y) = true.
Proof.
  intros Hy.
  pose proof (forall_below (fun y => field_ok field_Y (pad4 y) y && plain (pad4 y))
                (Z.to_nat 10000) ltac:(vm_compute; reflexivity) y
                ltac:(rewrite Z2Nat.id; lia)) as H.
  cbv beta in H. apply andb_true_iff in H as [H1 H2].
  split; [apply field_ok_spec, H1 | exact H2].
Qed.

Lemma pad2_fields n :
  0 <= n < 100 ->
  plain (pad2 n) = true
  /\ (1 <= n <= 12 -> field_m (pad2 n) = Some n)
  /\ (1 <= n <= 31 -> field_d (pad2 n) = Some n).
Proof.
  intros Hn.
  pose proof (forall_below
                (fun n => plain (pad2 n)
                          && (negb ((1 <=? n) && (n <=? 12))
                              || field_ok field_m (pad2 n) n)
                          && (negb ((1 <=? n) && (n <=? 31))
                              || field_ok field_d (pad2 n) n))
                100 ltac:(vm_compute; reflexivity) n ltac:(lia)) as H.
  cbv beta in H. apply andb_true_iff in H as [H H3].
  apply andb_true_iff in H as [H1 H2].
  split; [exact H1 |]. split; intros Hr.
  - apply field_ok_spec.
    replace ((1 <=? n) && (n <=? 12)) with true in H2
      by (symmetry; apply andb_true_iff; split; apply Z.leb_le; lia).
    exact H2.
  - apply field_ok_spec.
    replace ((1 <=? n) && (n <=? 31)) with true in H3
      by (symmetry; apply andb_true_iff; split; apply Z.leb_le; lia).
    exact H3.
Qed.

Lemma has_char_date c y m d :
  has_char c (pad4 y) = false -> has_char c (pad2 m) = false ->
  has_char c (pad2 d) = false -> Ascii.eqb "-" c = false ->
  has_char c (strftime_ymd (mkdate y m d)) = false.
Proof.
  intros Hy Hm Hd Hc. unfold strftime_ymd. cbn [year month day].
  rewrite !has_char_append, Hy, Hm, Hd. cbn [has_char]. rewrite Hc. reflexivity.
Qed.

Lemma strptime_strftime y m d :
  valid_date y m d = true ->
  strptime (strftime_ymd (mkdate y m d)) = Some (mkdate y m d).
Proof.
  intros Hv. pose proof (valid_date_parts y m d Hv) as (Hy & Hm & Hd).
  pose proof (days_in_month_le_31 y m) as H31.
  destruct (pad4_fields y ltac:(lia)) as [HY Hpy].
  destruct (pad2_fields m ltac:(lia)) as (Hpm & HM & _). specialize (HM Hm).
  destruct (pad2_fields d ltac:(lia)) as (Hpd & _ & HD). specialize (HD ltac:(lia)).
  apply plain_spec in Hpy as (Hy1 & _), Hpm as (Hm1 & _), Hpd as (Hd1 & _).
  unfold strptime, strftime_ymd. cbn [year month day].
  rewrite !append_cons, !append_nil.
  rewrite (split_on_sep "-" (pad4 y)) by exact Hy1.
  rewrite (split_on_sep "-" (pad2 m)) by exact Hm1.
  rewrite (split_on_plain "-" (pad2 d)) by exact Hd1.
  rewrite HY, HM, HD. unfold make_datetime. rewrite Hv. reflexivity.
Qed.

(** X19. A partition key is the print of a date with the format
    [%Y-%m-%d], and each asset parses it with the same format: for every date
    with a four-digit year the print parses, and it parses to that date, so no
    asset raises [ValueError] on such a key and all of them work on the day the
    key names. The window of the day then starts at that date. *)
Theorem partition_key_round_trip mktime (d : datetime) :
  valid_date (year d) (month d) (day d) = true -> 1000 <= year d ->
  strptime (strftime_ymd d) = Some d
  /\ (toordinal d < MAXORDINAL ->
      exists e, daily_dates (strftime_ymd d) = Some (d, e)
                /\ toordinal e = toordinal d + 1
                /\ daily_window mktime (strftime_ymd d) = Some (mktime d, mktime e)).
Proof.
  intros Hv _. destruct d as [y m dd]. cbn [year month day] in Hv.
  pose proof (strptime_strftime y m dd Hv) as Hk.
  split; [exact Hk |]. intros Hlt.
  pose proof (daily_dates_some _ _ Hk Hlt) as Hdd.
  exists (ord2ymd (toordinal (mkdate y m dd) + 1)).
  split; [exact Hdd |]. split.
  - apply ord2ymd_spec. pose proof (strptime_ordinal _ _ Hk). lia.
  - unfold daily_window. rewrite Hdd. reflexivity.
Qed.

Lemma rfind_from_absent c s : forall i found,
  has_char c s = false -> rfind_from c s i found = found.
Proof.
  induction s as [| a s IH]; intros i found H; [reflexivity |].
  cbn [has_char] in H. apply orb_false_iff in H as [Ha Hs].
  cbn [rfind_from]. rewrite Ha. apply IH, Hs.
Qed.

Lemma rfind_from_app c (a b : string) : forall i found,
  rfind_from c (a ++ b) i found
  = rfind_from c b (i + Z.of_nat (String.length a)) (rfind_from c a i found).
Proof.
  induction a as [| x a IH]; intros i found.
  - rewrite append_nil. cbn [String.length rfind_from]. f_equal. lia.
  - rewrite append_cons. cbn [rfind_from String.length]. rewrite IH. f_equal. lia.
Qed.

Lemma substring_prefix (a b : string) :
  String.substring 0 (String.length a) (a ++ b) = a.
Proof.
  induction a as [| x a IH].
  - rewrite append_nil. cbn [String.length]. destruct b; reflexivity.
  - rewrite append_cons. cbn [String.length String.substring]. rewrite IH.
    reflexivity.
Qed.

Lemma substring_all (s : string) : String.substring 0 (String.length s) s = s.
Proof.
  induction s as [| y s IH]; [reflexivity |].
  cbn [String.length String.substring]. rewrite IH. reflexivity.
Qed.

Lemma substring_suffix (a b : string) :
  String.substring (String.length a) (String.length b) (a ++ b) = b.
Proof.
  induction a as [| x a IH].
  - rewrite append_nil. apply substring_all.
  - rewrite append_cons. cbn [String.length String.substring]. exact IH.
Qed.

Lemma skip_dots_found (a : string) c (b : string) :
  Ascii.eqb c "." = false -> skip_dots (a ++ String c b) = true.
Proof.
  intros Hc. induction a as [| x a IH].
  - rewrite append_nil. cbn [skip_dots]. rewrite Hc. reflexivity.
  - rewrite append_cons. cbn [skip_dots]. destruct (Ascii.eqb x "."); auto.
Qed.

Lemma split_on_two sep (a b : string) :
  (2 <= List.length (split_on sep (a ++ String sep b)))%nat.
Proof.
  induction a as [| c a IH].
  - rewrite append_nil. cbn [split_on]. rewrite Ascii.eqb_refl.
    destruct b; cbn [split_on List.length].
    + lia.
    + destruct (Ascii.eqb _ _); [cbn; lia |].
      destruct (split_on sep b); cbn; lia.
  - rewrite append_cons. cbn [split_on].
    destruct (Ascii.eqb c sep); [cbn [List.length]; lia |].
    destruct (split_on sep (a ++ String sep b)) as [| w ws]; cbn in *; lia.
Qed.

Lemma last_cons {A} (x : A) l d : l <> [] -> List.last (x :: l) d = List.last l d.
Proof. destruct l; [contradiction | reflexivity]. Qed.

Lemma last_split_on sep (a b : string) :
  List.last (split_on sep (a ++ String sep b)) EmptyString
  = List.last (split_on sep b) EmptyString.
Proof.
  induction a as [| c a IH].
  - rewrite append_nil. cbn [split_on]. rewrite Ascii.eqb_refl.
    apply last_cons. destruct b; cbn [split_on]; [discriminate |].
    destruct (Ascii.eqb _ _); [discriminate |].
    destruct (split_on sep b); discriminate.
  - rewrite append_cons. cbn [split_on].
    pose proof (split_on_two sep a b) as H2.
    destruct (Ascii.eqb c sep).
    + rewrite last_cons; [exact IH |].
      destruct (split_on sep (a ++ String sep b)); [cbn in H2; lia | discriminate].
    + destruct (split_on sep (a ++ String sep b)) as [| w [| w' ws]];
        [cbn in H2; lia | cbn in H2; lia |].
      rewrite <- IH. reflexivity.
Qed.

(** The name of a file without its extension, for a name whose last dot
    comes after a character that is none. *)
Lemma splitext_name (root ext : string) c (pre post : string) :
  root = pre ++ String c post -> Ascii.eqb c "." = false ->
  has_char "/" root = false -> has_char "/" ext = false ->
  has_char "." ext = false ->
  splitext (root ++ String "." ext) = (root, String "." ext).
Proof.
  intros Hroot Hc Hs1 Hs2 Hd. unfold splitext, rfind.
  assert (Hsep : rfind_from "/" (root ++ String "." ext) 0 (-1) = -1).
  { apply rfind_from_absent. rewrite has_char_append. cbn [has_char].
    rewrite Hs1, Hs2. reflexivity. }
  assert (Hdot : rfind_from "." (root ++ String "." ext) 0 (-1)
                 = Z.of_nat (String.length root)).
  { rewrite rfind_from_app. cbn [rfind_from]. rewrite Ascii.eqb_refl.
    rewrite rfind_from_absent by exact Hd. lia. }
  rewrite Hsep, Hdot. cbv zeta.
  assert (Hslice : slice (root ++ String "." ext) 0 (Z.of_nat (String.length root))
                   = root).
  { unfold slice. rewrite Z.sub_0_r, Nat2Z.id. apply substring_prefix. }
  change (-1 + 1) with 0. rewrite Hslice.
  destruct (Z.ltb_spec (-1) (Z.of_nat (String.length root))); [| lia].
  rewrite Hroot at 1. rewrite skip_dots_found by exact Hc. cbn [andb]. f_equal.
  unfold slice. rewrite Nat2Z.id, length_append.
  replace (Z.to_nat (Z.of_nat (String.length root + String.length (String "." ext))
                     - Z.of_nat (String.length root)))
    with (String.length (String "." ext)) by lia.
  apply substring_suffix.
Qed.

(** X20. The report takes its date from the name of the summary file: for a
    name [<stem>_<key>.json] whose key holds no underscore, dot or slash, the
    text it parses is the key. So the run of the report fails with
    [ValueError] exactly when the key is no date, and for the print of a date
    with a four-digit year the report carries that date. *)
Theorem report_date_of_summary_file (stem key : string) :
  has_char "/" stem = false ->
  has_char "_" key = false -> has_char "." key = false ->
  has_char "/" key = false ->
  let filename := stem ++ "_" ++ key ++ ".json" in
  splitext filename = (stem ++ "_" ++ key, ".json")
  /\ report_date filename = strptime key
  /\ forall d, valid_date (year d) (month d) (day d) = true -> 1000 <= year d ->
               key = strftime_ymd d -> report_date filename = Some d.
Proof.
  intros Hs Hu Hd Hk filename.
  assert (Hsplit : splitext filename = (stem ++ "_" ++ key, ".json")).
  { unfold filename.
    replace (stem ++ "_" ++ key ++ ".json")
      with ((stem ++ "_" ++ key) ++ String "." "json").
    - apply (splitext_name (stem ++ "_" ++ key) "json" "_" stem key).
      + rewrite append_cons, append_nil. reflexivity.
      + reflexivity.
      + rewrite has_char_append, append_cons, append_nil. cbn [has_char].
        rewrite Hs, Hk. reflexivity.
      + reflexivity.
      + reflexivity.
    - rewrite !append_assoc. reflexivity. }
  assert (Hdate : report_date filename = strptime key).
  { unfold report_date. rewrite Hsplit. cbn [fst]. unfold last_part.
    rewrite !append_cons, !append_nil, last_split_on.
    rewrite split_on_plain by exact Hu. reflexivity. }
  split; [exact Hsplit |]. split; [exact Hdate |].
  intros [y m dd] Hv _ ->. rewrite Hdate. apply strptime_strftime, Hv.
Qed.

End KeyFacts.

Section ReportFacts.
Import PyStr Calendar Sensor Reports.
Context {mtime : Type} `{EqDecision mtime}.
Variable repr : mtime -> string.
Variable json_load : string -> option jval.

Abbreviation entry := (@dir_entry mtime).
Abbreviation sensor := (generate_pdf_reports_sensor repr json_load).

Lemma endswith_append (a b : string) : endswith (a ++ b) b = true.
Proof.
  unfold endswith. rewrite length_append.
  replace (String.length a + String.length b - String.length b)%nat
    with (String.length a) by lia.
  rewrite substring_suffix, String.eqb_refl, andb_true_r.
  apply Nat.leb_le. lia.
Qed.

(** X21. The sensor asks for a report for every changed file whose name ends
    in [.json], but the report can only be built for a name that ends in a
    date: for a name [<name>.json] where [name] holds no underscore, hyphen,
    dot or slash, the evaluation emits a request with that file name, and the
    date of the report does not parse, so the run it asks for fails with
    [ValueError]. *)
Theorem undated_file_requested (c : option (gmap string mtime))
    (listing : list entry) res e (name : string) :
  sensor c listing = Ok res ->
  In e listing -> is_file e = true -> changed (default ∅ c) e = true ->
  filename e = name ++ ".json" -> name <> EmptyString ->
  has_char "_" name = false -> has_char "-" name = false ->
  has_char "." name = false -> has_char "/" name = false ->
  is_summary e = true
  /\ (exists rr, In rr (run_requests res) /\ config_filename rr = filename e)
  /\ report_date (filename e) = None.
Proof.
  intros Hrun Hin Hfile Hch Hname Hne Hu Hh Hd Hs.
  assert (Hsum : is_summary e = true).
  { unfold is_summary. rewrite Hname, endswith_append, Hfile. reflexivity. }
  split; [exact Hsum |]. split.
  - apply sensor_ok in Hrun as (_ & Hruns & Hall).
    rewrite List.Forall_forall in Hall. specialize (Hall e Hin).
    rewrite Hsum, Hch in Hall. destruct (Hall eq_refl) as [j Hj].
    eexists. split.
    + rewrite Hruns. apply in_flat_map. exists e. split; [exact Hin |].
      unfold Sensor.requests_of. rewrite Hsum, Hch, Hj. left. reflexivity.
    + reflexivity.
  - rewrite Hname. unfold report_date.
    destruct name as [| x name]; [contradiction |].
    cbn [has_char] in Hd. apply orb_false_iff in Hd as [Hx Hd'].
    change (String x name ++ ".json") with (String x name ++ String "." "json").
    rewrite (splitext_name (String x name) "json" x EmptyString name);
      [| reflexivity | exact Hx | exact Hs | reflexivity | reflexivity].
    cbn [fst]. unfold last_part. rewrite split_on_plain by exact Hu.
    cbn [List.last]. unfold strptime. rewrite split_on_plain by exact Hh.
    reflexivity.
Qed.

End ReportFacts.

Section RecordFacts.
Import PyStr Calendar Posts Summaries Reports.

Context {mtime : Type}.
Variable submission : string -> nat -> fetch_result.
Variable complete : nat -> string -> outcome string.
Variable json_loads : string -> option jval.

Abbreviation world := (@Summaries.world mtime).
Abbreviation row_run := (@summarize_row mtime submission complete json_loads).

Lemma dict_get_set k k' v d :
  dict_get k (dict_set k' v d)
  = if String.eqb k' k then Some v else dict_get k d.
Proof.
  induction d as [| [k0 v0] d IH]; cbn [dict_set dict_get].
  - destruct (String.eqb k' k); reflexivity.
  - destruct (String.eqb k0 k') eqn:E0; cbn [dict_get].
    + apply String.eqb_eq in E0. subst k0.
      destruct (String.eqb k' k); reflexivity.
    + destruct (String.eqb k0 k) eqn:E1; [| exact IH].
      apply String.eqb_eq in E1. subst k0.
      rewrite String.eqb_sym, E0. reflexivity.
Qed.

Lemma dict_get_app k (a b : dict) :
  dict_get k (a ++ b)%list
  = match dict_get k a with Some v => Some v | None => dict_get k b end.
Proof.
  induction a as [| [k0 v0] a IH]; [reflexivity |].
  cbn [app dict_get]. destruct (String.eqb k0 k); [reflexivity | exact IH].
Qed.

(** A key of the merged dictionary holds the last value the second one gives
    it, and otherwise the value of the first. *)
Lemma dict_get_update k more : forall d,
  dict_get k (dict_update d more)
  = match dict_get k (rev more) with
    | Some v => Some v
    | None => dict_get k d
    end.
Proof.
  unfold dict_update. induction more as [| [k' v'] more IH]; intros d.
  - reflexivity.
  - cbn [fold_left fst snd rev]. rewrite IH, dict_get_app, dict_get_set.
    cbn [dict_get]. destruct (dict_get k (rev more)); [reflexivity |].
    destruct (String.eqb k' k); reflexivity.
Qed.

Lemma dict_set_keys k v d :
  NoDup (List.map fst d) -> NoDup (List.map fst (dict_set k v d))
  /\ forall x, In x (List.map fst (dict_set k v d)) <-> x = k \/ In x (List.map fst d).
Proof.
  induction d as [| [k0 v0] d IH]; intros Hnd.
  - cbn. split; [apply NoDup_singleton | intros x; split; intros [-> | H]; auto].
  - cbn [List.map fst] in Hnd. apply NoDup_cons in Hnd as [Hfresh Hnd].
    destruct (IH Hnd) as [IH1 IH2]. cbn [dict_set].
    destruct (String.eqb k0 k) eqn:E.
    + apply String.eqb_eq in E. subst k0. cbn [List.map fst]. split.
      * apply NoDup_cons. auto.
      * intros x. cbn [In]. intuition (subst; auto).
    + cbn [List.map fst]. split.
      * apply NoDup_cons. split; [| exact IH1].
        rewrite list_elem_of_In, IH2. intros [-> | Hin].
        -- rewrite String.eqb_refl in E. discriminate.
        -- apply Hfresh, list_elem_of_In, Hin.
      * intros x. cbn [In]. rewrite IH2. intuition (subst; auto).
Qed.

Lemma dict_update_keys more : forall d,
  NoDup (List.map fst d) -> NoDup (List.map fst (dict_update d more)).
Proof.
  unfold dict_update. induction more as [| [k v] more IH]; intros d Hnd;
    [exact Hnd |].
  cbn [fold_left]. apply IH, dict_set_keys, Hnd.
Qed.


Lemma fetch_post_step fuel attempt id :
  fetch_post submission (S fuel) attempt id
  = match submission id attempt with
    | Fetched p => Ok p
    | FetchServerError =>
        match fuel with
        | O => Raise ServerError
        | S _ => fetch_post submission fuel (S attempt) id
        end
    | FetchOtherError => Raise UpstreamError
    end.
Proof. reflexivity. Qed.

Lemma fetch_post_from fuel : forall attempt k id,
  (k <= fuel)%nat ->
  (forall j, (j < k)%nat -> submission id (attempt + j) = FetchServerError) ->
  fetch_post submission (S fuel) attempt id
  = match submission id (attempt + k) with
    | Fetched p => Ok p
    | FetchOtherError => Raise UpstreamError
    | FetchServerError =>
        match (fuel - k)%nat with
        | O => Raise ServerError
        | S _ => fetch_post submission (fuel - k) (S (attempt + k)) id
        end
    end.
Proof.
  induction fuel as [| fuel IH]; intros attempt k id Hk Hse.
  - assert (k = 0%nat) as -> by lia. rewrite Nat.add_0_r, fetch_post_step.
    reflexivity.
  - rewrite fetch_post_step. destruct k as [| k].
    + rewrite Nat.add_0_r, Nat.sub_0_r. reflexivity.
    + pose proof (Hse 0%nat ltac:(lia)) as H0. rewrite Nat.add_0_r in H0.
      rewrite H0, (IH (S attempt) k id ltac:(lia)).
      * replace (S attempt + k)%nat with (attempt + S k)%nat by lia.
        replace (S fuel - S k)%nat with (fuel - k)%nat by lia. reflexivity.
      * intros j Hj. replace (S attempt + j)%nat with (attempt + S j)%nat by lia.
        apply Hse. lia.
Qed.

(** X23. The retry loop around the fetch of a submission, and what it means
    for the row: the first of the five attempts that is no server error
    decides. If it is another error, or if all five are server errors, the
    row raises before any request is sent to the language model, and the
    world is as it was. *)
Theorem fetch_post_retries (row : post_row) (w : world) :
  (forall k p, (k < 5)%nat ->
     (forall j, (j < k)%nat -> submission (post_id row) j = FetchServerError) ->
     submission (post_id row) k = Fetched p ->
     fetch_post submission 5 0 (post_id row) = Ok p)
  /\ (forall k, (k < 5)%nat ->
        (forall j, (j < k)%nat -> submission (post_id row) j = FetchServerError) ->
        submission (post_id row) k = FetchOtherError ->
        row_run row w = (Raise UpstreamError, w))
  /\ ((forall j, (j < 5)%nat -> submission (post_id row) j = FetchServerError) ->
      row_run row w = (Raise ServerError, w)).
Proof.
  pose proof (summarize_row_cases submission complete json_loads row w) as Hc.
  split; [| split].
  - intros k p Hk Hse Hp.
    rewrite (fetch_post_from 4 0 k (post_id row) ltac:(lia) Hse).
    cbn [Nat.add]. rewrite Hp. reflexivity.
  - intros k Hk Hse Hp.
    rewrite (fetch_post_from 4 0 k (post_id row) ltac:(lia) Hse) in Hc.
    cbn [Nat.add] in Hc. rewrite Hp in Hc. exact Hc.
  - intros Hall.
    rewrite (fetch_post_from 4 0 4 (post_id row) ltac:(lia)
               ltac:(intros j Hj; apply Hall; lia)) in Hc.
    cbn [Nat.add Nat.sub] in Hc. rewrite (Hall 4%nat ltac:(lia)) in Hc. exact Hc.
Qed.

End RecordFacts.

Section ReportScenarios.
Import PyStr Calendar Posts Sensor Summaries Reports.
Open Scope Z_scope.

Lemma partition_key_round_trip_witness :
  strptime (strftime_ymd (mkdate 2024 5 6)) = Some (mkdate 2024 5 6).
Proof.
  exact (proj1 (partition_key_round_trip (mktime_fixed 0) (mkdate 2024 5 6)
                  eq_refl ltac:(cbn; lia))).
Defined.

Lemma report_date_of_summary_file_witness :
  report_date ("post_summaries" ++ "_" ++ "2024-05-06" ++ ".json")
  = Some (mkdate 2024 5 6).
Proof.
  destruct (report_date_of_summary_file "post_summaries" "2024-05-06"
              eq_refl eq_refl eq_refl eq_refl) as (_ & _ & H).
  apply (H (mkdate 2024 5 6)); [reflexivity | cbn; lia | reflexivity].
Defined.

Lemma undated_file_requested_witness :
  is_summary
    {| filename := "notes.json"; is_file := true;
       last_modified := 1715000000; body := "[]" |} = true
  /\ report_date "notes.json" = None.
Proof.
  destruct (generate_pdf_reports_sensor repr_seconds Scenario.load_empty None
              notes_dir) as [res | x] eqn:Hrun;
    [| vm_compute in Hrun; discriminate Hrun].
  destruct (undated_file_requested repr_seconds Scenario.load_empty None notes_dir
              res
              {| filename := "notes.json"; is_file := true;
                 last_modified := 1715000000; body := "[]" |}
              "notes" Hrun ltac:(left; reflexivity) eq_refl eq_refl eq_refl
              ltac:(discriminate) eq_refl eq_refl eq_refl eq_refl)
    as (Hsum & _ & Hdate).
  split; [exact Hsum | exact Hdate].
Defined.


Lemma fetch_post_retries_witness :
  fetch_post Scenario.forum_submission 5 0 (post_id Scenario.robot_row)
  = Ok Scenario.forum_post.
Proof.
  destruct (fetch_post_retries Scenario.forum_submission model_empty
              Scenario.loads_object Scenario.robot_row Scenario.empty_world)
    as (H & _).
  apply (H 0%nat); [lia | intros j Hj; lia | reflexivity].
Defined.

End ReportScenarios.

(** * The windows of a day across the stages, and the requests of a run *)

Section ZoneFacts.
Import PyStr Calendar Posts Zone.
Open Scope Z_scope.

Abbreviation ymd_compare a b :=
  (lexcmp (year a ?= year b) (lexcmp (month a ?= month b) (day a ?= day b))).

Lemma compare_strftime_app a b (r1 r2 : string) :
  valid_date (year a) (month a) (day a) = true ->
  valid_date (year b) (month b) (day b) = true ->
  String.compare (strftime_ymd a ++ r1) (strftime_ymd b ++ r2)
  = lexcmp (ymd_compare a b) (String.compare r1 r2).
Proof.
  intros Ha Hb.
  apply valid_date_parts in Ha as (Hya & Hma & Hda).
  apply valid_date_parts in Hb as (Hyb & Hmb & Hdb).
  pose proof (days_in_month_le_31 (year a) (month a) Hma).
  pose proof (days_in_month_le_31 (year b) (month b) Hmb).
  unfold strftime_ymd. rewrite !append_assoc.
  rewrite compare_pad4 by lia. rewrite !lexcmp_assoc. f_equal.
  rewrite ?append_cons, ?append_nil, compare_cons.
  change (Ascii.compare "-" "-") with Eq. cbn [lexcmp].
  rewrite compare_pad2 by lia. f_equal.
  rewrite ?append_cons, ?append_nil, compare_cons.
  change (Ascii.compare "-" "-") with Eq. cbn [lexcmp].
  rewrite compare_pad2 by lia. reflexivity.
Qed.

Lemma ymd_compare_ordinal a b :
  valid_date (year a) (month a) (day a) = true ->
  valid_date (year b) (month b) (day b) = true ->
  ymd_compare a b = (toordinal a ?= toordinal b).
Proof.
  intros Ha Hb. destruct (ymd_compare a b) eqn:E.
  - assert (year a = year b /\ month a = month b /\ day a = day b) as (Ey & Em & Ed).
    { revert E.
      destruct (Z.compare_spec (year a) (year b)); cbn [lexcmp];
        try discriminate.
      destruct (Z.compare_spec (month a) (month b)); cbn [lexcmp];
        try discriminate.
      intros E. apply Z.compare_eq_iff in E. auto. }
    unfold toordinal. rewrite Ey, Em, Ed. symmetry. apply Z.compare_refl.
  - symmetry. apply Z.compare_lt_iff. apply ymd_lt_ordinal; assumption.
  - symmetry. apply Z.compare_gt_iff. apply ymd_lt_ordinal; try assumption.
    rewrite (Z.compare_antisym (year a)), (Z.compare_antisym (month a)),
      (Z.compare_antisym (day a)), <- !lexcmp_flip, E. reflexivity.
Qed.

(** The time of day, printed: never before midnight. *)
Lemma compare_midnight h mi s :
  0 <= h < 100 -> 0 <= mi < 100 -> 0 <= s < 100 ->
  let time := pad2 h ++ ":" ++ pad2 mi ++ ":" ++ pad2 s in
  String.compare " 00:00:00" (" " ++ time) <> Gt
  /\ String.compare (" " ++ time) " 00:00:00" <> Lt.
Proof.
  intros Hh Hm Hs time. unfold time.
  change " 00:00:00" with (" " ++ pad2 0 ++ ":" ++ pad2 0 ++ ":" ++ pad2 0).
  rewrite !(append_cons " "), !append_nil, !compare_cons.
  change (Ascii.compare " " " ") with Eq. cbn [lexcmp].
  rewrite !compare_pad2 by lia.
  rewrite !(append_cons ":"), !append_nil, !compare_cons.
  change (Ascii.compare ":" ":") with Eq. cbn [lexcmp].
  rewrite !compare_pad2 by lia.
  rewrite ?(append_cons ":"), ?append_nil, !compare_cons.
  change (Ascii.compare ":" ":") with Eq. cbn [lexcmp].
  rewrite <- (append_nil_r (pad2 s)), <- (append_nil_r (pad2 0)).
  rewrite !compare_pad2 by lia. cbn [String.compare].
  split.
  - destruct (Z.compare_spec 0 h); cbn [lexcmp]; try discriminate; try lia.
    destruct (Z.compare_spec 0 mi); cbn [lexcmp]; try discriminate; try lia.
    destruct (Z.compare_spec 0 s); cbn [lexcmp]; try discriminate; lia.
  - destruct (Z.compare_spec h 0); cbn [lexcmp]; try discriminate; try lia.
    destruct (Z.compare_spec mi 0); cbn [lexcmp]; try discriminate; try lia.
    destruct (Z.compare_spec s 0); cbn [lexcmp]; try discriminate; lia.
Qed.

(** In a zone at a fixed offset, the text window of a day holds the rows of
    its window of instants. *)
Lemma in_local_window_fixed offset d e r :
  valid_date (year d) (month d) (day d) = true ->
  add_days d 1 = Some e ->
  stamped offset r ->
  in_local_window d e r = true
  <-> mktime_fixed offset d <= created_utc r < mktime_fixed offset e.
Proof.
  intros Hd He [Hloc Hcal].
  pose proof (add_days_ordinal d 1 e He) as Hoe.
  pose proof (valid_date_ordinal _ _ _ Hd) as Hod. fold (toordinal d) in Hod.
  assert (Hve : valid_date (year e) (month e) (day e) = true).
  { unfold add_days in He. destruct (_ && _) eqn:E in He; [| discriminate].
    injection He as <-. apply andb_true_iff in E as [E1 E2].
    apply Z.ltb_lt in E1. apply Z.leb_le in E2. apply ord2ymd_valid. lia. }
  set (ts := created_utc r) in *.
  set (n := (ts + offset) / 86400 + 719163) in *.
  pose proof (ord2ymd_valid n Hcal) as Hvn.
  destruct (ord2ymd_spec n (proj1 Hcal)) as (Hon & _).
  set (secs := (ts + offset) mod 86400).
  assert (Hsecs : 0 <= secs < 86400) by (apply Z.mod_pos_bound; lia).
  destruct (compare_midnight (secs / 3600) (secs mod 3600 / 60) (secs mod 60)
              ltac:(Z.div_mod_to_equations; lia)
              ltac:(Z.div_mod_to_equations; lia)
              ltac:(Z.div_mod_to_equations; lia)) as [Hge Hnl].
  unfold in_local_window, String.leb, String.ltb, str_datetime.
  rewrite Hloc. unfold local_str_fixed. fold ts. cbv zeta. fold n secs.
  rewrite !compare_strftime_app by assumption.
  rewrite !ymd_compare_ordinal by assumption. rewrite Hon, Hoe.
  unfold mktime_fixed. rewrite Hoe.
  assert (Hn : n = toordinal d
               <-> (toordinal d - 719163) * 86400 - offset <= ts
                   < (toordinal d + 1 - 719163) * 86400 - offset).
  { unfold n. Z.div_mod_to_equations. lia. }
  rewrite andb_true_iff, <- Hn.
  destruct (String.compare " 00:00:00" _) eqn:C1; [| | congruence];
    destruct (String.compare _ " 00:00:00") eqn:C2; try congruence;
    destruct (Z.compare_spec (toordinal d) n) as [E | E | E];
    destruct (Z.compare_spec n (toordinal d + 1)) as [E' | E' | E'];
    cbn [lexcmp];
    (split;
     [ intros [HA HB]; try discriminate HA; try discriminate HB; lia
     | intros Heq; try lia; split; reflexivity ]).
Qed.

Lemma filter_filter_and {A} (f g : A -> bool) l :
  List.filter f (List.filter g l) = List.filter (fun x => f x && g x) l.
Proof.
  induction l as [| a l IH]; [reflexivity |].
  cbn [List.filter]. destruct (g a); cbn [List.filter].
  - rewrite andb_true_r. destruct (f a); rewrite IH; reflexivity.
  - rewrite andb_false_r. exact IH.
Qed.

Lemma in_local_window_bool offset d e r :
  valid_date (year d) (month d) (day d) = true ->
  add_days d 1 = Some e ->
  stamped offset r ->
  in_local_window d e r
  = (mktime_fixed offset d <=? created_utc r)
    && (created_utc r <? mktime_fixed offset e).
Proof.
  intros Hd He Hst.
  pose proof (in_local_window_fixed offset d e r Hd He Hst) as H.
  destruct (in_local_window d e r);
    destruct (Z.leb_spec (mktime_fixed offset d) (created_utc r));
    destruct (Z.ltb_spec (created_utc r) (mktime_fixed offset e));
    try reflexivity; exfalso.
  - destruct (proj1 H eq_refl). lia.
  - destruct (proj1 H eq_refl). lia.
  - destruct (proj1 H eq_refl). lia.
  - assert (false = true) by (apply H; lia). discriminate.
Qed.


End ZoneFacts.

Section ZoneScenarios.
Import PyStr Calendar Posts Zone.
Open Scope Z_scope.


End ZoneScenarios.

Section PromptFacts.
Import PyStr Calendar Posts Summaries Prompts.

Context {mtime : Type}.
Variable summary_file : string -> string.
Variable mktime : datetime -> Z.
Variable submission : string -> nat -> fetch_result.
Variable complete : nat -> string -> outcome string.
Variable json_loads : string -> option jval.
Variable json_dumps : jval -> string.

Abbreviation world := (@Summaries.world mtime).
Abbreviation row_run := (@summarize_row mtime submission complete json_loads).
Abbreviation rows_run := (@summarize_rows mtime submission complete json_loads).
Abbreviation stage :=
  (@summarize_robot_posts mtime summary_file mktime submission complete
     json_loads json_dumps).
Abbreviation row_prompt := (Prompts.row_prompt submission).

(** What one row sends. *)
Lemma summarize_row_requests (row : post_row) (w : world) :
  let '(res, w') := row_run row w in
  match row_prompt row with
  | Some text => llm_requests w' = (llm_requests w ++ [text])%list
  | None => llm_requests w' = llm_requests w /\ exists x, res = Raise x
  end.
Proof.
  pose proof (summarize_row_cases submission complete json_loads row w) as H.
  unfold Prompts.row_prompt.
  destruct (fetch_post submission 5 0 (post_id row)) as [p |];
    [| rewrite H; cbn; eauto].
  destruct (p_comments p) as [comments |]; [| rewrite H; cbn; eauto].
  cbv zeta in H.
  destruct (complete _ _) as [reply |]; [| rewrite H; reflexivity].
  destruct (json_loads reply) as [[] |]; rewrite H; reflexivity.
Qed.

Lemma summarize_rows_requests (rows : list post_row) : forall acc (w : world),
  let '(res, w') := rows_run rows acc w in
  exists done rest texts,
    rows = (done ++ rest)%list
    /\ List.map row_prompt done = List.map Some texts
    /\ llm_requests w' = (llm_requests w ++ texts)%list
    /\ ((exists all, res = Ok all) -> rest = []).
Proof.
  induction rows as [| row rows IH]; intros acc w.
  - cbn. exists [], [], []. repeat split; rewrite ?app_nil_r; auto.
  - cbn [summarize_rows]. unfold mbind, M_bind, bind.
    pose proof (summarize_row_requests row w) as Hrow.
    destruct (row_run row w) as [[s | x] w1].
    + specialize (IH (acc ++ [s])%list w1).
      destruct (rows_run rows (acc ++ [s])%list w1) as [res w'].
      destruct IH as (done & rest & texts & -> & Hmap & Hreq & Hok).
      destruct (row_prompt row) as [text |] eqn:Ep.
      * exists (row :: done), rest, (text :: texts).
        split; [reflexivity |]. split; [cbn [List.map]; rewrite Ep, Hmap; reflexivity |].
        split; [rewrite Hreq, Hrow, <- app_assoc; reflexivity | exact Hok].
      * destruct Hrow as [_ [y Hy]]. discriminate.
    + destruct (row_prompt row) as [text |] eqn:Ep.
      * exists [row], rows, [text].
        split; [reflexivity |]. split; [cbn [List.map]; rewrite Ep; reflexivity |].
        split; [exact Hrow | intros [all [=]]].
      * exists [], (row :: rows), [].
        split; [reflexivity |]. split; [reflexivity |].
        split; [rewrite app_nil_r; apply Hrow | intros [all [=]]].
Qed.

(** X25. The language model is asked once per selected post, in the order of
    the table, with the flattened comments of that post, and never for a post
    that comes after a failure: the requests of a run are the texts of the
    first posts of the selection, of all of them when the run returns. *)
Theorem stage_requests_in_order key now robot_posts (w : world) d e :
  strptime key = Some d -> add_days d 1 = Some e ->
  let '(res, w') := stage key now robot_posts w in
  exists done rest texts,
    summary_select (mktime d) (mktime e) robot_posts = (done ++ rest)%list
    /\ List.map row_prompt done = List.map Some texts
    /\ llm_requests w' = (llm_requests w ++ texts)%list
    /\ (res = Ok tt -> rest = []).
Proof.
  intros Hd He. rewrite (stage_unfold summary_file mktime submission complete
                           json_loads json_dumps key now robot_posts d e Hd He).
  cbv zeta. set (df := summary_select (mktime d) (mktime e) robot_posts).
  destruct (0 <? List.length df)%nat eqn:Hnz.
  - pose proof (summarize_rows_requests df [] w) as H.
    destruct (rows_run df [] w) as [[all | x] w1].
    + destruct H as (done & rest & texts & Hsplit & Hmap & Hreq & Hok).
      unfold write_summaries. cbv beta iota. cbn [llm_requests].
      exists done, rest, texts.
      split; [exact Hsplit |]. split; [exact Hmap |].
      split; [exact Hreq | intros _; apply Hok; eauto].
    + destruct H as (done & rest & texts & Hsplit & Hmap & Hreq & _).
      exists done, rest, texts. repeat split; try assumption. discriminate.
  - apply Nat.ltb_ge in Hnz. destruct df; [| cbn in Hnz; lia].
    exists [], [], []. cbn. repeat split; rewrite ?app_nil_r; auto.
Qed.

End PromptFacts.

Section PromptScenarios.
Import PyStr Calendar Posts Summaries Prompts Reports.

Lemma stage_requests_in_order_witness :
  let '(res, w') :=
    summarize_robot_posts Scenario.summary_name (mktime_fixed 0)
      Scenario.forum_submission model_empty Scenario.loads_object
      Scenario.dumps_any "2024-05-06" 1715000000%Z [Scenario.robot_row]
      Scenario.empty_world in
  exists done rest texts,
    summary_select (mktime_fixed 0 (mkdate 2024 5 6))
      (mktime_fixed 0 (mkdate 2024 5 7)) [Scenario.robot_row]
    = (done ++ rest)%list
    /\ List.map (row_prompt Scenario.forum_submission) done = List.map Some texts
    /\ llm_requests w' = (llm_requests Scenario.empty_world ++ texts)%list
    /\ (res = Ok tt -> rest = []).
Proof.
  exact (stage_requests_in_order Scenario.summary_name (mktime_fixed 0)
           Scenario.forum_submission model_empty Scenario.loads_object
           Scenario.dumps_any "2024-05-06" 1715000000%Z [Scenario.robot_row]
           Scenario.empty_world (mkdate 2024 5 6) (mkdate 2024 5 7)
           eq_refl ltac:(vm_compute; reflexivity)).
Defined.

End PromptScenarios.
